(** * cb: command output clipboard manager (main.go)

    A shallow embedding of the output pipeline of [main.go]: the command
    executor, the text transform chain (ANSI strip, trim, head/tail filter,
    display limit), the file persister, the clipboard publisher and the
    orchestrator [main], followed by the properties of the specification.

    Conventions.
    - A Go [string] is a sequence of bytes: [gostring := list byte].
    - A Go [int] is modelled as [Z]; the only arithmetic that can leave the
      64-bit range (the sleep duration) has its wrap-around written out.
    - The operating system (child processes, the executable search path, the
      clock, I/O failures) is an explicit [World] of oracles; the file store
      and the terminal are explicit state threaded through [main]. *)

From Stdlib Require Import List ZArith Lia Bool.
From Stdlib Require Strings.String.
From Stdlib Require Import Strings.Byte Numbers.DecimalString.
Import ListNotations String.StringSyntax.
Delimit Scope string_scope with string.

Local Open Scope Z_scope.
Local Open Scope list_scope.

(* ================================================================== *)
(** * Go strings *)
(* ================================================================== *)

Definition gostring := list byte.

(** String literal of the source, as bytes. *)
Definition go (s : String.string) : gostring := String.list_byte_of_string s.
Arguments go s%_string.

Definition nl : byte := x0a.     (* newline, 0x0a *)
Definition ESC : byte := x1b.    (* escape, 0x1b *)
Definition dquote : byte := x22. (* double quote, 0x22 *)

(** [int(b)] for a byte. *)
Definition bval (b : byte) : Z := Z.of_N (Byte.to_N b).

(** [len(x)] as a Go int. *)
Definition len {A} (l : list A) : Z := Z.of_nat (length l).

Fixpoint gostring_eqb (a b : gostring) : bool :=
  match a, b with
  | [], [] => true
  | x :: a', y :: b' => Byte.eqb x y && gostring_eqb a' b'
  | _, _ => false
  end.

(** [strings.HasSuffix(s, suffix)] *)
Definition HasSuffix (s suffix : gostring) : bool :=
  (length suffix <=? length s)%nat &&
  gostring_eqb (skipn (length s - length suffix) s) suffix.

(** [strings.Split(s, sep)] for a separator of one byte (the source only
    splits on "\n"): the pieces between the separators, [Count+1] of them,
    so the empty string splits into one empty piece. *)
Fixpoint Split (s : gostring) (sep : byte) : list gostring :=
  match s with
  | [] => [[]]
  | c :: t =>
      if Byte.eqb c sep then [] :: Split t sep
      else match Split t sep with
           | l :: ls => (c :: l) :: ls
           | [] => [[c]]
           end
  end.

(** [strings.Join(elems, sep)] *)
Fixpoint Join (elems : list gostring) (sep : gostring) : gostring :=
  match elems with
  | [] => []
  | [e] => e
  | e :: rest => e ++ sep ++ Join rest sep
  end.

(** [strings.Count(s, "\n")]-style count of one byte. *)
Fixpoint Count (s : gostring) (c : byte) : Z :=
  match s with
  | [] => 0
  | x :: t => (if Byte.eqb x c then 1 else 0) + Count t c
  end.

(** [fmt.Sprintf("%d", n)] *)
Definition itoa (n : Z) : gostring :=
  String.list_byte_of_string (NilZero.string_of_int (Z.to_int n)).

(* ================================================================== *)
(** * Text transform chain *)
(* ================================================================== *)

(** ** ANSI stripping

    [regexp.MustCompile(`\x1b\[[0-9;]*[a-zA-Z]`).ReplaceAllString(input, empty)].
    Every byte the pattern can match is ASCII, and Go's UTF-8 decoder never
    takes an ASCII byte into a longer rune, so the leftmost-first search of
    the regexp package visits exactly the byte positions below.  The classes
    [0-9;] and [a-zA-Z] are disjoint: the greedy star needs no backtracking. *)

Definition isParam (c : byte) : bool :=
  let x := bval c in ((48 <=? x) && (x <=? 57)) || (x =? 59).

Definition isLetter (c : byte) : bool :=
  let x := bval c in
  ((97 <=? x) && (x <=? 122)) || ((65 <=? x) && (x <=? 90)).

(** Length of the match of [[0-9;]*[a-zA-Z]] anchored at the head of [s]. *)
Fixpoint matchParams (s : gostring) : option nat :=
  match s with
  | [] => None
  | c :: t =>
      if isParam c then option_map S (matchParams t)
      else if isLetter c then Some 1%nat
      else None
  end.

(** Length of the match of the whole pattern anchored at the head of [s]. *)
Definition matchANSI (s : gostring) : option nat :=
  match s with
  | e :: b :: t =>
      if Byte.eqb e ESC && Byte.eqb b x5b
      then option_map (fun n => S (S n)) (matchParams t)
      else None
  | _ => None
  end.

(** [ReplaceAllString] with the empty replacement: scan left to right; where the pattern
    matches, drop the match and go on after it ([skip] counts the bytes of
    the current match still to drop); elsewhere copy the byte. *)
Fixpoint replaceAll (skip : nat) (s : gostring) : gostring :=
  match s with
  | [] => []
  | c :: t =>
      match skip with
      | S k => replaceAll k t
      | O =>
          match matchANSI s with
          | Some n => replaceAll (Nat.pred n) t
          | None => c :: replaceAll 0 t
          end
      end
  end.

Definition stripANSI (input : gostring) : gostring := replaceAll 0 input.

(** ** Trim: [strings.TrimSpace]

    The standard library's function, on bytes, with its UTF-8 decoding:
    [unicode/utf8.DecodeRuneInString], [DecodeLastRuneInString],
    [unicode.IsSpace], [strings.TrimLeftFunc], [TrimRightFunc], [TrimFunc]. *)

Definition RuneError : Z := 0xFFFD.
Definition RuneSelf : Z := 0x80.
Definition UTFMax : Z := 4.

(** The table [utf8.first] with its accept ranges: what a first byte
    announces. *)
Inductive firstInfo :=
| ASCII
| INVALID
| LEAD (size : nat) (lo hi : Z).

Definition first (b : byte) : firstInfo :=
  let x := bval b in
  if x <? 0x80 then ASCII
  else if x <? 0xC2 then INVALID
  else if x <? 0xE0 then LEAD 2 0x80 0xBF
  else if x =? 0xE0 then LEAD 3 0xA0 0xBF
  else if x <? 0xED then LEAD 3 0x80 0xBF
  else if x =? 0xED then LEAD 3 0x80 0x9F
  else if x <? 0xF0 then LEAD 3 0x80 0xBF
  else if x =? 0xF0 then LEAD 4 0x90 0xBF
  else if x <? 0xF4 then LEAD 4 0x80 0xBF
  else if x =? 0xF4 then LEAD 4 0x80 0x8F
  else INVALID.

(** A byte outside the range a continuation byte must lie in. *)
Definition outside (lo hi : Z) (b : byte) : bool :=
  (bval b <? lo) || (hi <? bval b).

(** [utf8.DecodeRuneInString]: the rune at the head of [s] and its width
    in bytes; [(RuneError, 0)] for the empty string, [(RuneError, 1)] for an
    encoding that is invalid or cut short. *)
Definition DecodeRuneInString (s : gostring) : Z * nat :=
  match s with
  | [] => (RuneError, 0%nat)
  | s0 :: t =>
      match first s0 with
      | ASCII => (bval s0, 1%nat)
      | INVALID => (RuneError, 1%nat)
      | LEAD sz lo hi =>
          if (length s <? sz)%nat then (RuneError, 1%nat)
          else
            match t with
            | [] => (RuneError, 1%nat)
            | s1 :: t1 =>
                if outside lo hi s1 then (RuneError, 1%nat)
                else if (sz <=? 2)%nat then
                  (Z.lor (Z.shiftl (Z.land (bval s0) 0x1F) 6)
                         (Z.land (bval s1) 0x3F), 2%nat)
                else
                  match t1 with
                  | [] => (RuneError, 1%nat)
                  | s2 :: t2 =>
                      if outside 0x80 0xBF s2 then (RuneError, 1%nat)
                      else if (sz <=? 3)%nat then
                        (Z.lor (Z.lor (Z.shiftl (Z.land (bval s0) 0x0F) 12)
                                      (Z.shiftl (Z.land (bval s1) 0x3F) 6))
                               (Z.land (bval s2) 0x3F), 3%nat)
                      else
                        match t2 with
                        | [] => (RuneError, 1%nat)
                        | s3 :: _ =>
                            if outside 0x80 0xBF s3 then (RuneError, 1%nat)
                            else
                              (Z.lor (Z.lor (Z.lor
                                 (Z.shiftl (Z.land (bval s0) 0x07) 18)
                                 (Z.shiftl (Z.land (bval s1) 0x3F) 12))
                                 (Z.shiftl (Z.land (bval s2) 0x3F) 6))
                                 (Z.land (bval s3) 0x3F), 4%nat)
                        end
                  end
            end
      end
  end.

(** [utf8.RuneStart]: not a continuation byte. *)
Definition RuneStart (b : byte) : bool :=
  negb (Z.land (bval b) 0xC0 =? 0x80).

(** [s[i]] for an index in range. *)
Definition at_ (s : gostring) (i : Z) : byte := nth (Z.to_nat i) s x00.

(** [s[a:b]] for [0 <= a <= b <= len(s)]. *)
Definition slice (s : gostring) (a b : Z) : gostring :=
  firstn (Z.to_nat b - Z.to_nat a) (skipn (Z.to_nat a) s).

(** The backward search of [DecodeLastRuneInString] for a byte that starts
    a rune: [for start--; start >= lim; start-- { if RuneStart(s[start])
    { break } }], entered here after the first [start--].  [lim] is at most
    [UTFMax] below the end, so three rounds exhaust the loop. *)
Fixpoint scanBack (rounds : nat) (s : gostring) (start lim : Z) : Z :=
  match rounds with
  | O => start
  | S k =>
      if start <? lim then start
      else if RuneStart (at_ s start) then start
      else scanBack k s (start - 1) lim
  end.

(** [utf8.DecodeLastRuneInString] *)
Definition DecodeLastRuneInString (s : gostring) : Z * nat :=
  let end_ := len s in
  if end_ =? 0 then (RuneError, 0%nat)
  else
    let start := end_ - 1 in
    let r := bval (at_ s start) in
    if r <? RuneSelf then (r, 1%nat)
    else
      let lim := Z.max 0 (end_ - UTFMax) in
      let start := scanBack 3 s (start - 1) lim in
      let start := Z.max 0 start in
      let '(r, size) := DecodeRuneInString (slice s start end_) in
      if start + Z.of_nat size =? end_ then (r, size)
      else (RuneError, 1%nat).

(** [unicode.IsSpace]: the Latin-1 cases, then the White_Space table. *)
Definition IsSpace (r : Z) : bool :=
  if r <=? 0xFF then
    (r =? 9) || (r =? 10) || (r =? 11) || (r =? 12) || (r =? 13) ||
    (r =? 32) || (r =? 0x85) || (r =? 0xA0)
  else
    (r =? 0x1680) || ((0x2000 <=? r) && (r <=? 0x200A)) ||
    ((0x2028 <=? r) && (r <=? 0x2029)) || (r =? 0x202F) ||
    (r =? 0x205F) || (r =? 0x3000).

(** The table [strings.asciiSpace]. *)
Definition asciiSpace (c : byte) : bool :=
  let x := bval c in
  (x =? 9) || (x =? 10) || (x =? 11) || (x =? 12) || (x =? 13) || (x =? 32).

(** [strings.indexFunc]: [for i, r := range s { if f(r) == truth { return i } }],
    [-1] when the loop ends.  The range loop decodes a rune at [i] and
    resumes after it: [skip] counts the bytes of the current rune still to
    pass. *)
Fixpoint indexFunc_from (skip : nat) (i : Z) (s : gostring)
         (f : Z -> bool) (truth : bool) : Z :=
  match s with
  | [] => -1
  | _ :: t =>
      match skip with
      | S k => indexFunc_from k (i + 1) t f truth
      | O =>
          let '(r, w) := DecodeRuneInString s in
          if Bool.eqb (f r) truth then i
          else indexFunc_from (Nat.pred w) (i + 1) t f truth
      end
  end.

Definition indexFunc (s : gostring) (f : Z -> bool) (truth : bool) : Z :=
  indexFunc_from 0 0 s f truth.

(** [strings.lastIndexFunc]: [for i := len(s); i > 0; { r, size :=
    DecodeLastRuneInString(s[0:i]); i -= size; if f(r) == truth { return i } }],
    [-1] when the loop ends.  Every round lowers [i], so [len(s)] rounds
    are enough. *)
Fixpoint lastIndexFunc_from (rounds : nat) (s : gostring) (i : Z)
         (f : Z -> bool) (truth : bool) : Z :=
  match rounds with
  | O => -1
  | S k =>
      if i <=? 0 then -1
      else
        let '(r, size) := DecodeLastRuneInString (slice s 0 i) in
        let i := i - Z.of_nat size in
        if Bool.eqb (f r) truth then i
        else lastIndexFunc_from k s i f truth
  end.

Definition lastIndexFunc (s : gostring) (f : Z -> bool) (truth : bool) : Z :=
  lastIndexFunc_from (length s) s (len s) f truth.

(** [strings.TrimLeftFunc] *)
Definition TrimLeftFunc (s : gostring) (f : Z -> bool) : gostring :=
  let i := indexFunc s f false in
  if i =? -1 then [] else slice s i (len s).

(** [strings.TrimRightFunc] *)
Definition TrimRightFunc (s : gostring) (f : Z -> bool) : gostring :=
  let i := lastIndexFunc s f false in
  let i :=
    if (0 <=? i) && (RuneSelf <=? bval (at_ s i))
    then let '(_, wid) := DecodeRuneInString (slice s i (len s)) in
         i + Z.of_nat wid
    else i + 1 in
  slice s 0 i.

(** [strings.TrimFunc] *)
Definition TrimFunc (s : gostring) (f : Z -> bool) : gostring :=
  TrimRightFunc (TrimLeftFunc s f) f.

(** Second loop of [TrimSpace], on [u = s[start:]]: [stop] runs down from
    the end to the first ASCII non-space byte. *)
Fixpoint trimSpaceStop (u : gostring) (stop : nat) : gostring :=
  match stop with
  | O => slice u 0 0
  | S k =>
      let c := at_ u (Z.of_nat k) in
      if RuneSelf <=? bval c then TrimRightFunc (slice u 0 (Z.of_nat stop)) IsSpace
      else if asciiSpace c then trimSpaceStop u k
      else slice u 0 (Z.of_nat stop)
  end.

(** [strings.TrimSpace]: the first loop runs [start] up over ASCII space;
    the recursion is on [s[start:]]. *)
Fixpoint TrimSpace (s : gostring) : gostring :=
  match s with
  | [] => trimSpaceStop s (length s)
  | c :: t =>
      if RuneSelf <=? bval c then TrimFunc s IsSpace
      else if asciiSpace c then TrimSpace t
      else trimSpaceStop s (length s)
  end.

(** ** Head/tail filter and display limit *)

(** [lines[:n]] and [lines[n:]] for an index already checked to be in
    range by the caller. *)
Definition slice_to {A} (l : list A) (n : Z) : list A := firstn (Z.to_nat n) l.
Definition slice_from {A} (l : list A) (n : Z) : list A := skipn (Z.to_nat n) l.

Definition applyLineFilters (output : gostring) (headLines tailLines : Z)
  : gostring :=
  if (headLines <=? 0) && (tailLines <=? 0) then output
  else
    let lines := Split output nl in
    let lines :=
      if (0 <? headLines) && (headLines <? len lines)
      then slice_to lines headLines else lines in
    let lines :=
      if (0 <? tailLines) && (tailLines <? len lines)
      then slice_from lines (len lines - tailLines) else lines in
    Join lines [nl].

Definition limitLines (output : gostring) (maxLines : Z) : gostring :=
  if maxLines <=? 0 then output
  else
    let lines := Split output nl in
    if len lines <=? maxLines then output
    else Join (slice_to lines maxLines) [nl].

(* ================================================================== *)
(** * The environment of one run *)
(* ================================================================== *)

(** A Go [error] value.  [OSError] is an error handed up by [os] or
    [os/exec] (a failed lookup or start, a non-zero exit, an I/O error);
    [ErrorString] is one built by [fmt.Errorf].  Both carry their
    [Error()] text. *)
Inductive error :=
| OSError (msg : gostring)
| ErrorString (msg : gostring).

Definition Error (e : error) : gostring :=
  match e with OSError m => m | ErrorString m => m end.

Inductive Stream := Out | Err.

(** What [cmd.Run()] observes.  [SpawnFailed]: the executable was not found
    or could not be started, nothing ran.  [Ran]: the process ran to its
    end; [writes] are its writes to standard output and standard error in
    the order they were made, and [waitErr] is the error of [Wait], [None]
    exactly when the exit status is zero. *)
Inductive RunOutcome :=
| SpawnFailed (e : error)
| Ran (writes : list (Stream * gostring)) (waitErr : option error).

(** What the program does to the outside, in order. *)
Inductive Event :=
| EvStdout (text : gostring)
| EvStderr (text : gostring)
| EvSleep (nanoseconds : Z)
| EvRun (name : gostring) (args : list gostring) (stdin : gostring)
| EvMkdirAll (dir : gostring) (perm : Z)
| EvOpenFile (path : gostring) (flags : Z) (perm : Z)
| EvWrite (path : gostring) (content : gostring)
| EvClose (path : gostring).

(** The regular files, by path.  A file is known by the path text it is
    opened with: two spellings of one path, links, and writers other than
    this program are outside the model. *)
Definition FS := gostring -> option gostring.

Definition fs_set (fs : FS) (path : gostring) (content : gostring) : FS :=
  fun p => if gostring_eqb p path then Some content else fs p.

Definition fs_empty : FS := fun _ => None.

(** The oracles of the operating system.  [exec_run] may depend on what the
    program has done so far ([history]), so that two runs of the same helper
    need not end alike. *)
Record World := {
  (** [exec.LookPath(name)] succeeds *)
  look_path : gostring -> bool;
  (** [exec.Command(name, args...)] with this standard input, then [Run()] *)
  exec_run : list Event -> gostring -> list gostring -> gostring -> RunOutcome;
  (** [time.Now().Format("2006-01-02 15:04:05")] *)
  now : gostring;
  (** [filepath.Dir(path)] *)
  filepath_Dir : gostring -> gostring;
  (** [os.MkdirAll(dir, perm)] fails *)
  mkdir_all : gostring -> option error;
  (** [os.OpenFile(path, flags, perm)] fails *)
  open_file : gostring -> Z -> option error;
  (** [f.WriteString(content)] fails after having written [n] bytes *)
  write_string : gostring -> gostring -> option (nat * error)
}.

Record State := {
  fs : FS;
  trace : list Event
}.

(** ** The monad of the program: state, [os.Exit] and panics *)

Inductive outcome (A : Type) :=
| Done (a : A)
| Exit (code : Z)
| Panic.
Arguments Done {A} a.
Arguments Exit {A} code.
Arguments Panic {A}.

Definition M (A : Type) := State -> outcome A * State.

Definition ret {A} (a : A) : M A := fun st => (Done a, st).

Definition bind {A B} (m : M A) (k : A -> M B) : M B :=
  fun st =>
    match m st with
    | (Done a, st') => k a st'
    | (Exit c, st') => (Exit c, st')
    | (Panic, st') => (Panic, st')
    end.

Declare Scope go_scope.
Delimit Scope go_scope with go.
Notation "x <- c1 ;; c2" := (bind c1 (fun x => c2))
  (at level 61, c1 at next level, right associativity) : go_scope.
Notation "c1 ;; c2" := (bind c1 (fun _ => c2))
  (at level 61, right associativity) : go_scope.
Local Open Scope go_scope.

Definition emit (e : Event) : M unit :=
  fun st => (Done tt, {| fs := fs st; trace := trace st ++ [e] |}).

Definition get_trace : M (list Event) := fun st => (Done (trace st), st).
Definition get_fs : M FS := fun st => (Done (fs st), st).
Definition put_fs (f : FS) : M unit :=
  fun st => (Done tt, {| fs := f; trace := trace st |}).

(** [os.Exit(code)] *)
Definition os_Exit {A} (code : Z) : M A := fun st => (Exit code, st).
Definition panic {A} : M A := fun st => (Panic, st).

Definition when (b : bool) (m : M unit) : M unit := if b then m else ret tt.

(** [fmt.Print] and friends on [os.Stdout], [fmt.Fprint] on [os.Stderr]. *)
Definition print_stdout (text : gostring) : M unit := emit (EvStdout text).
Definition print_stderr (text : gostring) : M unit := emit (EvStderr text).

(** [cmd.Run()] for [exec.Command(name, args...)] with [cmd.Stdin] set. *)
Definition cmd_Run (w : World) (name : gostring) (args : list gostring)
           (stdin : gostring) : M RunOutcome :=
  history <- get_trace ;;
  emit (EvRun name args stdin) ;;
  ret (exec_run w history name args stdin).

(** The bytes a buffer receives that is attached to the streams [sel]
    accepts. *)
Fixpoint collect (sel : Stream -> bool) (writes : list (Stream * gostring))
  : gostring :=
  match writes with
  | [] => []
  | (st, chunk) :: rest =>
      if sel st then chunk ++ collect sel rest else collect sel rest
  end.

Definition isOut (s : Stream) : bool := match s with Out => true | Err => false end.
Definition isErr (s : Stream) : bool := match s with Out => false | Err => true end.

(* ================================================================== *)
(** * Command executor *)
(* ================================================================== *)

(** [fmt.Errorf("%v (stderr: %s)", err, text)] *)
Definition Errorf_stderr (prefix : gostring) (err : error) (text : gostring)
  : error :=
  ErrorString (prefix ++ Error err ++ go " (stderr: " ++ text ++ go ")").

Definition executeCommand (w : World) (args : list gostring)
           (captureStderr : bool) : M (gostring * option error) :=
  match args with
  | [] => panic                       (* args[0]: index out of range *)
  | name :: rest =>
      r <- cmd_Run w name rest [] ;;
      (* the contents of the buffers [stdout] and [stderr] after Run *)
      let writes := match r with SpawnFailed _ => [] | Ran ws _ => ws end in
      let stdout :=
        collect (fun st => if captureStderr then true else isOut st) writes in
      let stderr :=
        collect (fun st => if captureStderr then false else isErr st) writes in
      let err := match r with SpawnFailed e => Some e | Ran _ e => e end in
      match err with
      | Some e =>
          if captureStderr then ret (stdout, None)
          else if 0 <? len stderr
               then ret (stdout, Some (Errorf_stderr [] e stderr))
               else ret (stdout, Some e)
      | None => ret (stdout, None)
      end
  end.

(* ================================================================== *)
(** * File persister *)
(* ================================================================== *)

(** The flags of package [os] (Linux). *)
Definition O_WRONLY : Z := 0x1.
Definition O_CREATE : Z := 0x40.
Definition O_TRUNC : Z := 0x200.
Definition O_APPEND : Z := 0x400.

(** The permission bits 0755 and 0644, written in octal in the source. *)
Definition perm_0755 : Z := 7 * 64 + 5 * 8 + 5.
Definition perm_0644 : Z := 6 * 64 + 4 * 8 + 4.

Definition has_flag (flags flag : Z) : bool := negb (Z.land flags flag =? 0).

(** [os.OpenFile(path, flags, perm)] for a file opened for writing: on
    success the file exists, emptied when [O_TRUNC] is set. *)
Definition os_OpenFile (w : World) (path : gostring) (flags perm : Z)
  : M (option error) :=
  emit (EvOpenFile path flags perm) ;;
  match open_file w path flags with
  | Some e => ret (Some e)
  | None =>
      files <- get_fs ;;
      match files path with
      | Some old =>
          when (has_flag flags O_TRUNC) (put_fs (fs_set files path [])) ;;
          ret None
      | None =>
          if has_flag flags O_CREATE
          then put_fs (fs_set files path []) ;; ret None
          else ret (Some (OSError (go "no such file or directory")))
      end
  end.

(** [f.WriteString(content)] on a file just opened with [flags]: the bytes
    go to the end of the file under [O_APPEND], and to offset 0 otherwise.
    A failing write leaves the bytes it managed to write. *)
Definition file_WriteString (w : World) (path : gostring) (flags : Z)
           (content : gostring) : M (option error) :=
  emit (EvWrite path content) ;;
  files <- get_fs ;;
  let old := match files path with Some o => o | None => [] end in
  let put (bytes : gostring) :=
    if has_flag flags O_APPEND then old ++ bytes
    else bytes ++ skipn (length bytes) old in
  match write_string w path content with
  | Some (n, e) => put_fs (fs_set files path (put (firstn n content))) ;;
                   ret (Some e)
  | None => put_fs (fs_set files path (put content)) ;; ret None
  end.

Definition writeToFile (w : World) (path : gostring) (content : gostring)
           (appendMode : bool) : M (option error) :=
  let dir := filepath_Dir w path in
  emit (EvMkdirAll dir perm_0755) ;;
  match mkdir_all w dir with
  | Some err => ret (Some err)
  | None =>
      let flags := Z.lor O_CREATE O_WRONLY in
      let flags :=
        if appendMode then Z.lor flags O_APPEND else Z.lor flags O_TRUNC in
      oerr <- os_OpenFile w path flags perm_0644 ;;
      match oerr with
      | Some err => ret (Some err)
      | None =>
          err <- file_WriteString w path flags content ;;
          emit (EvClose path) ;;     (* defer f.Close() *)
          ret err
      end
  end.

(* ================================================================== *)
(** * Clipboard publisher *)
(* ================================================================== *)

Definition detectClipboardTool (w : World) : gostring * list gostring :=
  (* Try Wayland first (wl-copy) *)
  if look_path w (go "wl-copy") then (go "wl-copy", [])
  (* Try X11 (xclip) *)
  else if look_path w (go "xclip")
  then (go "xclip", [go "-selection"; go "clipboard"])
  (* Try xsel as fallback *)
  else if look_path w (go "xsel")
  then (go "xsel", [go "--clipboard"; go "--input"])
  else ([], []).

(** The error of [cmd.Run()], [nil] as [None]. *)
Definition run_error (r : RunOutcome) : option error :=
  match r with SpawnFailed e => Some e | Ran _ e => e end.

Definition copyToClipboard (w : World) (content : gostring)
  : M (option error) :=
  let '(tool, args) := detectClipboardTool w in
  if gostring_eqb tool [] then
    ret (Some (ErrorString
                 (go "no clipboard tool found (tried: wl-copy, xclip, xsel)")))
  else
    r <- cmd_Run w tool args content ;;
    let stderr :=
      collect isErr match r with SpawnFailed _ => [] | Ran ws _ => ws end in
    match run_error r with
    | Some err =>
        ret (Some (Errorf_stderr (go "clipboard command failed: ") err stderr))
    | None => ret None
    end.

Definition clearClipboard (w : World) : M (option error) :=
  let '(tool, args) := detectClipboardTool w in
  if gostring_eqb tool [] then
    ret (Some (ErrorString (go "no clipboard tool found")))
  else
    r <- cmd_Run w tool args [] ;;
    ret (run_error r).

(* ================================================================== *)
(** * Orchestrator *)
(* ================================================================== *)

Record Config := {
  headLines : Z;
  tailLines : Z;
  quietLines : Z;
  quiet : bool;
  file : gostring;
  clear : bool;
  stderr : bool;
  append : bool;
  noClipboard : bool;
  verbose : bool;
  noTemp : bool;
  raw : bool;
  delay : Z;
  trim : bool;
  help : bool;
  showVersion : bool
}.

(** The same configuration with other quiet settings: the two fields the
    quiet flag points to. *)
Definition set_quiet (config : Config) (q : bool) (lines : Z) : Config := {|
  headLines := headLines config; tailLines := tailLines config;
  quietLines := lines; quiet := q;
  file := file config; clear := clear config; stderr := stderr config;
  append := append config; noClipboard := noClipboard config;
  verbose := verbose config; noTemp := noTemp config; raw := raw config;
  delay := delay config; trim := trim config; help := help config;
  showVersion := showVersion config |}.

(** [quietFlag], the [flag.Value] of [-q]: [lines] points to [quietLines]
    and [set] to [quiet].  Package [flag] calls [Set] with the value of the
    flag, and, [IsBoolFlag] being true, with the text true when the flag is
    given without a value.  [Sscanf_d] stands for [fmt.Sscanf(value, "%d",
    &lines)]. *)
Definition quietFlag_String (config : Config) : gostring :=
  if quiet config && (quietLines config =? 0) then go "true"
  else itoa (quietLines config).

Definition quietFlag_Set (Sscanf_d : gostring -> Z + error) (config : Config)
           (value : gostring) : Config * option error :=
  let config := set_quiet config true (quietLines config) in
  if gostring_eqb value [] || gostring_eqb value (go "true") then
    (set_quiet config true 0, None)
  else
    match Sscanf_d value with
    | inr err => (config, Some err)
    | inl lines => (set_quiet config true lines, None)
    end.

Definition quietFlag_IsBoolFlag : bool := true.

Definition version : gostring := go "00.00.001".

Definition helpText : gostring :=
  Join [
    go "cb - Command output clipboard manager";
    [];
    go "Usage:";
    go "  cb [flags] <command> [args...]";
    [];
    go "Description:";
    go "  Run any command, capture its output, save to file, and copy to clipboard.";
    [];
    go "Flags:";
    go "  -h X              Copy only the head of output by X lines";
    go "  -t X              Copy only the tail of output by X lines";
    go "  -q [X]            Suppress stdout entirely, or show only X lines";
    go "  -f FILE           Write output to specific file instead of /tmp/cb.txt";
    go "  -c, --clear       Clear clipboard before writing";
    go "  -e, --error       Copy stderr instead of stdout";
    go "  -a, --append      Append output to file instead of overwriting";
    go "  -n                Disable clipboard, only save to file";
    go "  -v, --verbose     Show what was copied / debug info";
    go "  --no-temp         Skip writing to /tmp entirely";
    go "  -r, --raw         Preserve terminal formatting/ANSI codes";
    go "  --delay N         Wait N seconds before copying output";
    go "  --trim            Trim leading and trailing whitespace";
    go "  --version         Show program version";
    go "  --help            Display this help message";
    [];
    go "Examples:";
    go "  cb echo " ++ [dquote] ++ go "hello world" ++ [dquote];
    go "  cb ls -l /home/user";
    go "  cb -h 10 dmesg";
    go "  cb -f output.txt -v ps aux";
    go "  cb -e -v somecommand";
    [];
    go "Notes:";
    go "  - Requires wl-copy (Wayland) or xclip/xsel (X11) for clipboard support";
    go "  - Output is saved with timestamp header: [date time " ++ [dquote]
       ++ go "command" ++ [dquote] ++ go "]:"
  ] [nl].

Definition printHelp : M unit := print_stdout (helpText ++ [nl]).

(** A product of two [int64] values, as the machine computes it. *)
Definition wrap64 (z : Z) : Z := (z + 2 ^ 63) mod 2 ^ 64 - 2 ^ 63.

(** [time.Second], in nanoseconds. *)
Definition Second : Z := 1000000000.

(** The strip / trim / head-tail chain of [main], stage by stage. *)

(** Strip ANSI codes unless -r/--raw is specified *)
Definition stripStage (config : Config) (output : gostring) : gostring :=
  if negb (raw config) then stripANSI output else output.

(** Apply trim if specified *)
Definition trimStage (config : Config) (output : gostring) : gostring :=
  if trim config then TrimSpace output else output.

Definition transform (config : Config) (output : gostring) : gostring :=
  let output := stripStage config output in
  let output := trimStage config output in
  (* Apply head/tail filtering *)
  applyLineFilters output (headLines config) (tailLines config).

(** [fmt.Sprintf] of the header, around the timestamp and the command. *)
Definition header_of (timestamp cmdStr : gostring) : gostring :=
  go "[" ++ timestamp ++ go " " ++ [dquote] ++ cmdStr ++ [dquote]
     ++ go "]:" ++ [nl].

(** The text [main] echoes to the terminal, when it echoes. *)
Definition printed (config : Config) (output : gostring) : gostring :=
  if 0 <? quietLines config then limitLines output (quietLines config)
  else output.

(** The blocks of [main], one definition per block of the source. *)

(** Apply delay if specified *)
Definition delayStep (config : Config) : M unit :=
  if 0 <? delay config then
    when (verbose config)
         (print_stdout (go "Waiting " ++ itoa (delay config)
                           ++ go " seconds..." ++ [nl])) ;;
    emit (EvSleep (wrap64 (delay config * Second)))
  else ret tt.

(** Prepare output with timestamp header *)
Definition record_of (w : World) (args : list gostring) (output : gostring)
  : gostring :=
  let cmdStr := Join args (go " ") in
  let timestamp := now w in
  let header := header_of timestamp cmdStr in
  header ++ output ++ [nl].

Definition targetFile_of (config : Config) : gostring :=
  if gostring_eqb (file config) [] then go "/tmp/cb.txt" else file config.

(** Write to file unless --no-temp is specified *)
Definition persistStep (w : World) (config : Config) (fullOutput : gostring)
  : M unit :=
  if negb (noTemp config) then
    let targetFile := targetFile_of config in
    err <- writeToFile w targetFile fullOutput (append config) ;;
    match err with
    | Some e =>
        print_stderr (go "Error writing to file: " ++ Error e ++ [nl]) ;;
        os_Exit 1
    | None => ret tt
    end ;;
    when (verbose config)
         (print_stdout (go "Output written to " ++ targetFile ++ [nl]))
  else ret tt.

(** Copy to clipboard unless -n is specified *)
Definition publishStep (w : World) (config : Config) (output : gostring)
  : M unit :=
  if negb (noClipboard config) then
    (if clear config then
       err <- clearClipboard w ;;
       match err with
       | Some e =>
           when (verbose config)
                (print_stderr (go "Warning: could not clear clipboard: "
                                  ++ Error e ++ [nl]))
       | None => ret tt
       end
     else ret tt) ;;
    err <- copyToClipboard w output ;;
    match err with
    | Some e =>
        print_stderr (go "Error copying to clipboard: " ++ Error e ++ [nl]) ;;
        os_Exit 1
    | None => ret tt
    end ;;
    when (verbose config)
         (let lines := Count output nl + 1 in
          print_stdout (go "Copied " ++ itoa lines
                            ++ go " lines to clipboard" ++ [nl]))
  else ret tt.

(** Print output to stdout unless quiet mode *)
Definition echoStep (config : Config) (output : gostring) : M unit :=
  if quiet config && (quietLines config =? 0) then
    ret tt                                   (* Suppress all output *)
  else
    let printOutput := printed config output in
    if negb (gostring_eqb printOutput []) then
      print_stdout printOutput ;;
      when (negb (HasSuffix printOutput [nl])) (print_stdout [nl])
    else ret tt.

(** [main], from the parsed flags [config] and [args = flag.Args()]. *)
Definition main (w : World) (config : Config) (args : list gostring)
  : M unit :=
  (if help config then printHelp ;; os_Exit 0 else ret tt) ;;
  (if showVersion config
   then print_stdout (go "cb version " ++ version ++ [nl]) ;; os_Exit 0
   else ret tt) ;;
  (* Get command arguments *)
  (if len args =? 0
   then print_stderr (go "Error: no command specified" ++ [nl]) ;;
        printHelp ;; os_Exit 1
   else ret tt) ;;
  (* Execute command and capture output *)
  r <- executeCommand w args (stderr config) ;;
  let '(output, err) := r in
  match err with
  | Some e =>
      print_stderr (go "Error executing command: " ++ Error e ++ [nl]) ;;
      os_Exit 1
  | None => ret tt
  end ;;
  delayStep config ;;
  let output := transform config output in
  let fullOutput := record_of w args output in
  persistStep w config fullOutput ;;
  publishStep w config output ;;
  echoStep config output.

(** ** Observations of a run *)

(** The state after [cmd.Run]: one more event, the files untouched. *)
Definition ran (st : State) (name : gostring) (args : list gostring)
           (stdin : gostring) : State :=
  {| fs := fs st; trace := trace st ++ [EvRun name args stdin] |}.

Definition init (files : FS) : State := {| fs := files; trace := [] |}.

(** The exit status of the process: 0 when [main] returns, the argument of
    [os.Exit], 2 for a panic. *)
Definition exit_code {A} (o : outcome A) : Z :=
  match o with Done _ => 0 | Exit c => c | Panic => 2 end.

(** Everything written to standard output, in order. *)
Fixpoint stdout_of (tr : list Event) : gostring :=
  match tr with
  | [] => []
  | EvStdout t :: rest => t ++ stdout_of rest
  | _ :: rest => stdout_of rest
  end.

(** The contents handed to [f.WriteString], in order. *)
Fixpoint written (tr : list Event) : list gostring :=
  match tr with
  | [] => []
  | EvWrite _ c :: rest => c :: written rest
  | _ :: rest => written rest
  end.

(* ================================================================== *)
(** * Specification-side definitions and sample inputs *)
(* ================================================================== *)

(** ** Head/tail filter, in the words of the specification *)

(** Manual slicing: the first [n] and the last [n] elements of a list. *)
Definition first_n {A} (n : Z) (L : list A) : list A := firstn (Z.to_nat n) L.
Definition last_n {A} (n : Z) (L : list A) : list A :=
  skipn (length L - Z.to_nat n) L.

(** Head stage: keep the first [H] lines when [H > 0] and [H < len L]. *)
Definition headStage (H : Z) (L : list gostring) : list gostring :=
  if (0 <? H) && (H <? len L) then first_n H L else L.

(** Tail stage: keep the last [T] lines when [T > 0] and [T < len L]. *)
Definition tailStage (T : Z) (L : list gostring) : list gostring :=
  if (0 <? T) && (T <? len L) then last_n T L else L.

Definition sample_lines : gostring := go "a
b
c
d
e".

(** ** ANSI escape sequences, in the words of the specification *)

(** An escape sequence: ESC, an opening bracket, a run of digits and
    semicolons, then one ASCII letter. *)
Definition isEscape (E : gostring) : Prop :=
  exists ps l,
    E = ESC :: x5b :: ps ++ [l] /\ forallb isParam ps = true /\
    isLetter l = true.

(** A text free of escape sequences: no part of it is one. *)
Definition EscapeFree (G : gostring) : Prop :=
  forall pre E post, isEscape E -> G <> pre ++ E ++ post.

(** [Interspersed G T]: [T] is [G] with escape sequences put in at any
    places, any number of them. *)
Inductive Interspersed : gostring -> gostring -> Prop :=
| Interspersed_nil : Interspersed [] []
| Interspersed_keep c G T :
    Interspersed G T -> Interspersed (c :: G) (c :: T)
| Interspersed_esc E G T :
    isEscape E -> Interspersed G T -> Interspersed G (E ++ T).

(** Sample: red text between a colour code and a reset. *)
Definition sample_plain : gostring := go "red!".
Definition sample_coloured : gostring :=
  (ESC :: go "[1;31m") ++ go "red" ++ (ESC :: go "[0m") ++ go "!".

Definition default_config : Config := {|
  headLines := 0; tailLines := 0; quietLines := 0; quiet := false;
  file := []; clear := false; stderr := false; append := false;
  noClipboard := false; verbose := false; noTemp := false; raw := false;
  delay := 0; trim := false; help := false; showVersion := false |}.

Definition raw_config : Config := {|
  headLines := 0; tailLines := 0; quietLines := 0; quiet := false;
  file := []; clear := false; stderr := false; append := false;
  noClipboard := false; verbose := false; noTemp := false; raw := true;
  delay := 0; trim := false; help := false; showVersion := false |}.

(** ** Sample worlds *)

Definition err_not_found : error :=
  OSError (go "exec: no-such-command: executable file not found in $PATH").

(** A machine with wl-copy installed and no I/O faults, on which the
    command [no-such-command] does not exist and every other command is
    given by [child]. *)
Definition sample_world (child : RunOutcome) : World := {|
  look_path := fun name => gostring_eqb name (go "wl-copy");
  exec_run := fun _ name _ _ =>
    if gostring_eqb name (go "wl-copy") then Ran [] None
    else if gostring_eqb name (go "no-such-command")
         then SpawnFailed err_not_found
         else child;
  now := go "2025-11-17 19:41:29";
  filepath_Dir := fun _ => go "/tmp";
  mkdir_all := fun _ => None;
  open_file := fun _ _ => None;
  write_string := fun _ _ => None |}.

(** A child that writes to both streams and exits with status 1. *)
Definition failing_child : RunOutcome :=
  Ran [(Out, go "partial "); (Err, go "boom"); (Out, go "output")]
      (Some (OSError (go "exit status 1"))).

Definition capture_config : Config := {|
  headLines := 0; tailLines := 0; quietLines := 0; quiet := false;
  file := []; clear := false; stderr := true; append := false;
  noClipboard := false; verbose := false; noTemp := false; raw := false;
  delay := 0; trim := false; help := false; showVersion := false |}.

(** ** Clipboard tools, in the words of the specification *)

(** The candidates in priority order, each with its fixed arguments. *)
Definition clipboardCandidates : list (gostring * list gostring) :=
  [ (go "wl-copy", []);
    (go "xclip", [go "-selection"; go "clipboard"]);
    (go "xsel", [go "--clipboard"; go "--input"]) ].

Fixpoint isPrefix (p s : gostring) : bool :=
  match p, s with
  | [], _ => true
  | x :: p', y :: s' => Byte.eqb x y && isPrefix p' s'
  | _ :: _, [] => false
  end.

(** [sub] occurs in [s]. *)
Fixpoint contains (sub s : gostring) : bool :=
  isPrefix sub s ||
  match s with
  | [] => false
  | _ :: t => contains sub t
  end.

(** A machine with only xsel installed, and one with no clipboard tool. *)
Definition xsel_world : World := {|
  look_path := fun name => gostring_eqb name (go "xsel");
  exec_run := fun _ _ _ _ => Ran [] None;
  now := go "2025-11-17 19:41:29";
  filepath_Dir := fun _ => go "/tmp";
  mkdir_all := fun _ => None;
  open_file := fun _ _ => None;
  write_string := fun _ _ => None |}.

Definition bare_world : World := {|
  look_path := fun _ => false;
  exec_run := fun _ _ _ _ => Ran [] None;
  now := go "2025-11-17 19:41:29";
  filepath_Dir := fun _ => go "/tmp";
  mkdir_all := fun _ => None;
  open_file := fun _ _ => None;
  write_string := fun _ _ => None |}.

(** ** Files *)

(** The bytes of the file at [path], none when it does not exist. *)
Definition content_of (files : FS) (path : gostring) : gostring :=
  match files path with Some c => c | None => [] end.

(** Two Records as [main] formats them. *)
Definition sample_record1 : gostring :=
  record_of (sample_world failing_child) [go "echo"; go "First"; go "run"]
            (go "First run").
Definition sample_record2 : gostring :=
  record_of (sample_world failing_child) [go "echo"; go "Second"; go "run"]
            (go "Second run").

(** ** The orchestrator, in the words of the specification *)

(** Steps 1 to 6 of the orchestrator: [main] up to and including the
    clipboard block; the result is the transformed text that the last block
    is about to echo. *)
Definition capture_persist_publish (w : World) (config : Config)
           (args : list gostring) : M gostring :=
  (if help config then printHelp ;; os_Exit 0 else ret tt) ;;
  (if showVersion config
   then print_stdout (go "cb version " ++ version ++ [nl]) ;; os_Exit 0
   else ret tt) ;;
  (if len args =? 0
   then print_stderr (go "Error: no command specified" ++ [nl]) ;;
        printHelp ;; os_Exit 1
   else ret tt) ;;
  r <- executeCommand w args (stderr config) ;;
  let '(output, err) := r in
  match err with
  | Some e =>
      print_stderr (go "Error executing command: " ++ Error e ++ [nl]) ;;
      os_Exit 1
  | None => ret tt
  end ;;
  delayStep config ;;
  let output := transform config output in
  let fullOutput := record_of w args output in
  persistStep w config fullOutput ;;
  publishStep w config output ;;
  ret output.

(** Fully quiet: the quiet flag was set and no line count given. *)
Definition fullyQuiet (config : Config) : bool :=
  quiet config && (quietLines config =? 0).

(** What step 7 puts on the terminal for the transformed text [output]:
    nothing when fully quiet; otherwise the text to display, followed by a
    newline when that text is not empty and does not end in one. *)
Definition echo_text (config : Config) (output : gostring) : gostring :=
  if fullyQuiet config then []
  else
    let p := printed config output in
    match p with
    | [] => []
    | _ => p ++ (if HasSuffix p [nl] then [] else [nl])
    end.

(** The events of a run other than what it prints on standard output. *)
Fixpoint silent (tr : list Event) : list Event :=
  match tr with
  | [] => []
  | EvStdout _ :: rest => silent rest
  | e :: rest => e :: silent rest
  end.

(** The standard inputs handed to the processes the run started. *)
Fixpoint stdins (tr : list Event) : list gostring :=
  match tr with
  | [] => []
  | EvRun _ _ stdin :: rest => stdin :: stdins rest
  | _ :: rest => stdins rest
  end.

(** A child that prints one line and one that prints nothing; both exit
    with status 0. *)
Definition hello_child : RunOutcome := Ran [(Out, go "hello" ++ [nl])] None.
Definition silent_child : RunOutcome := Ran [] None.

(** A child that prints three lines. *)
Definition lines_child : RunOutcome :=
  Ran [(Out, go "1" ++ [nl] ++ go "2" ++ [nl] ++ go "3" ++ [nl])] None.

Definition append_config : Config := {|
  headLines := 0; tailLines := 0; quietLines := 0; quiet := false;
  file := []; clear := false; stderr := false; append := true;
  noClipboard := false; verbose := false; noTemp := false; raw := false;
  delay := 0; trim := false; help := false; showVersion := false |}.

(** ** White space at the two ends of a text *)

(** The text begins with a white-space rune, as [TrimLeftFunc] reads it. *)
Definition leadSpace (s : gostring) : bool :=
  IsSpace (fst (DecodeRuneInString s)).

(** The text ends with a white-space rune, as [TrimRightFunc] reads it. *)
Definition lastSpace (s : gostring) : bool :=
  IsSpace (fst (DecodeLastRuneInString s)).

(** ** Lines without the separator *)

(** The byte [sep] does not occur in [l]. *)
Definition sepFree (sep : byte) (l : gostring) : bool :=
  forallb (fun c => negb (Byte.eqb c sep)) l.

(** ** Kinds of events *)

Definition isRunEv (e : Event) : bool :=
  match e with EvRun _ _ _ => true | _ => false end.

Definition isFileEv (e : Event) : bool :=
  match e with
  | EvMkdirAll _ _ | EvOpenFile _ _ _ | EvWrite _ _ | EvClose _ => true
  | _ => false
  end.

(** The processes a run started, and its operations on files, in order. *)
Definition runs (tr : list Event) : list Event := filter isRunEv tr.
Definition fileops (tr : list Event) : list Event := filter isFileEv tr.

(** What [delayStep] does, whatever the state. *)
Definition delay_events (config : Config) : list Event :=
  if 0 <? delay config then
    (if verbose config
     then [EvStdout (go "Waiting " ++ itoa (delay config)
                        ++ go " seconds..." ++ [nl])]
     else [])
    ++ [EvSleep (wrap64 (delay config * Second))]
  else [].

(** The processes the clipboard block starts for a tool [(tool, args)]:
    the clearing run with an empty input when asked for, then the
    publishing run with the text. *)
Definition clipboard_runs (config : Config) (tool : gostring)
           (args : list gostring) (output : gostring) : list Event :=
  if noClipboard config || gostring_eqb tool [] then []
  else (if clear config then [EvRun tool args []] else [])
       ++ [EvRun tool args output].

(** Text made of ASCII bytes only. *)
Definition isASCII (s : gostring) : bool :=
  forallb (fun c => bval c <? 0x80) s.

Fixpoint dropWhile {A} (p : A -> bool) (l : list A) : list A :=
  match l with
  | [] => []
  | x :: t => if p x then dropWhile p t else l
  end.

(** Dropping the matching elements at both ends. *)
Definition dropEnds {A} (p : A -> bool) (l : list A) : list A :=
  rev (dropWhile p (rev (dropWhile p l))).

(** The operations of one [writeToFile] on the file system, as the oracles
    decide: the directory is made first; the file is opened only when that
    did not fail; it is written and closed only when the opening did not
    fail. *)
Definition writeToFile_events (w : World) (path content : gostring)
           (appendMode : bool) : list Event :=
  let dir := filepath_Dir w path in
  let flags :=
    if appendMode then Z.lor (Z.lor O_CREATE O_WRONLY) O_APPEND
    else Z.lor (Z.lor O_CREATE O_WRONLY) O_TRUNC in
  EvMkdirAll dir perm_0755 ::
  match mkdir_all w dir with
  | Some _ => []
  | None =>
      EvOpenFile path flags perm_0644 ::
      match open_file w path flags with
      | Some _ => []
      | None => [EvWrite path content; EvClose path]
      end
  end.

(** A machine on which every write fails after four bytes. *)
Definition faulty_world : World := {|
  look_path := fun name => gostring_eqb name (go "xsel");
  exec_run := fun _ _ _ _ => Ran [] None;
  now := go "2025-11-17 19:41:29";
  filepath_Dir := fun _ => go "/tmp";
  mkdir_all := fun _ => None;
  open_file := fun _ _ => None;
  write_string := fun _ _ =>
    Some (4%nat, OSError (go "no space left on device")) |}.

(** A machine whose clipboard tool fails when given an empty input, and a
    configuration that clears the clipboard first and reports. *)
Definition clear_failing_world : World := {|
  look_path := fun name => gostring_eqb name (go "xclip");
  exec_run := fun _ _ _ stdin =>
    if gostring_eqb stdin [] then Ran [] (Some (OSError (go "exit status 1")))
    else Ran [] None;
  now := go "2025-11-17 19:41:29";
  filepath_Dir := fun _ => go "/tmp";
  mkdir_all := fun _ => None;
  open_file := fun _ _ => None;
  write_string := fun _ _ => None |}.

Definition clear_verbose_config : Config := {|
  headLines := 0; tailLines := 0; quietLines := 0; quiet := false;
  file := []; clear := true; stderr := false; append := false;
  noClipboard := false; verbose := true; noTemp := false; raw := false;
  delay := 0; trim := false; help := false; showVersion := false |}.

(** ** More sample configurations *)

(** [--no-temp], [-n], and [-f out/log.txt -v]. *)
Definition no_temp_config : Config := {|
  headLines := 0; tailLines := 0; quietLines := 0; quiet := false;
  file := []; clear := false; stderr := false; append := false;
  noClipboard := false; verbose := false; noTemp := true; raw := false;
  delay := 0; trim := false; help := false; showVersion := false |}.

Definition file_only_config : Config := {|
  headLines := 0; tailLines := 0; quietLines := 0; quiet := false;
  file := []; clear := false; stderr := false; append := false;
  noClipboard := true; verbose := false; noTemp := false; raw := false;
  delay := 0; trim := false; help := false; showVersion := false |}.

Definition named_file_config : Config := {|
  headLines := 0; tailLines := 0; quietLines := 0; quiet := false;
  file := go "out/log.txt"; clear := false; stderr := false; append := false;
  noClipboard := false; verbose := true; noTemp := false; raw := false;
  delay := 0; trim := false; help := false; showVersion := false |}.

(** [--delay 2 -v]. *)
Definition delayed_config : Config := {|
  headLines := 0; tailLines := 0; quietLines := 0; quiet := false;
  file := []; clear := false; stderr := false; append := false;
  noClipboard := false; verbose := true; noTemp := false; raw := false;
  delay := 2; trim := false; help := false; showVersion := false |}.

(* ================================================================== *)
(** * Properties *)
(* ================================================================== *)

(** ** Sanity checks of the model on concrete inputs *)

Ltac decide_Z :=
  symmetry;
  first [ apply Z.ltb_lt | apply Z.ltb_ge | apply Z.leb_le | apply Z.leb_gt
        | apply Z.eqb_eq | apply Z.eqb_neq ];
  lia.

Example applyLineFilters_window :
  applyLineFilters sample_lines 3 2 = go "b
c".
Proof. reflexivity. Qed.

Example limitLines_two : limitLines sample_lines 2 = go "a
b".
Proof. reflexivity. Qed.

Example itoa_samples :
  itoa 0 = go "0" /\ itoa 42 = go "42" /\ itoa (-15) = go "-15".
Proof. repeat split. Qed.

(** An unfinished sequence at the end of the text is not a match. *)
Example stripANSI_unfinished :
  stripANSI (sample_coloured ++ ESC :: go "[12") = go "red!" ++ ESC :: go "[12".
Proof. reflexivity. Qed.

Example TrimSpace_ascii :
  TrimSpace (go "
  hello world  
") = go "hello world".
Proof. vm_compute. reflexivity. Qed.

(** No-break space (C2 A0) in front; EN QUAD (E2 80 80), IDEOGRAPHIC
    SPACE (E3 80 80) and a blank at the end. *)
Example TrimSpace_unicode :
  TrimSpace (xc2 :: xa0 :: go " a" ++ [xe2; x80; x80; xe3; x80; x80; x20])
  = go "a".
Proof. vm_compute. reflexivity. Qed.

(** A stray continuation byte is no white space and stops the trim. *)
Example TrimSpace_invalid_utf8 :
  TrimSpace (go " a" ++ [xe2; x80; x80; x80; xe3; x80; x80; x20])
  = go "a" ++ [xe2; x80; x80; x80]
  /\ TrimSpace [xe2; x80; x80; x80; xe3; x80; x80; x20; x80]
     = [x80; xe3; x80; x80; x20; x80].
Proof. split; vm_compute; reflexivity. Qed.

(** Scenario A of the specification: [echo hello] with no flags. *)
Example scenario_echo_hello :
  let run := main (sample_world hello_child) default_config
                  [go "echo"; go "hello"] (init fs_empty) in
  fst run = Done tt
  /\ fs (snd run) (go "/tmp/cb.txt")
     = Some (go "[2025-11-17 19:41:29 " ++ [dquote] ++ go "echo hello"
                ++ [dquote] ++ go "]:" ++ [nl] ++ go "hello" ++ [nl; nl])
  /\ stdins (trace (snd run)) = [[]; go "hello" ++ [nl]]
  /\ stdout_of (trace (snd run)) = go "hello" ++ [nl].
Proof. repeat split. Qed.

(** Scenario C: with [-q] nothing is printed, file and clipboard are
    served all the same; with a line count the echo alone is cut. *)
Example scenario_quiet :
  let quiet_run := main (sample_world lines_child)
                        (set_quiet default_config true 0)
                        [go "seq"; go "3"] (init fs_empty) in
  let limited_run := main (sample_world lines_child)
                          (set_quiet default_config true 1)
                          [go "seq"; go "3"] (init fs_empty) in
  stdout_of (trace (snd quiet_run)) = []
  /\ stdout_of (trace (snd limited_run)) = go "1" ++ [nl]
  /\ stdins (trace (snd quiet_run))
     = [[]; go "1" ++ [nl] ++ go "2" ++ [nl] ++ go "3" ++ [nl]]
  /\ stdins (trace (snd limited_run)) = stdins (trace (snd quiet_run)).
Proof. repeat split. Qed.

(** ** Lines *)

Lemma Split_nonempty (s : gostring) (sep : byte) : Split s sep <> [].
Proof.
  destruct s as [|c t]; simpl; [discriminate|].
  destruct (Byte.eqb c sep); [discriminate|].
  destruct (Split t sep); discriminate.
Qed.

(** Joining what was split gives the text back: [applyLineFilters] and
    [limitLines] may return [output] itself or the rejoined lines. *)
Lemma Join_Split (s : gostring) (sep : byte) : Join (Split s sep) [sep] = s.
Proof.
  induction s as [|c t IH]; simpl; [reflexivity|].
  destruct (Byte.eqb c sep) eqn:E.
  - apply Byte.byte_dec_bl in E. subst c.
    destruct (Split t sep) as [|l ls] eqn:S; [now apply Split_nonempty in S|].
    simpl. now rewrite <- IH.
  - destruct (Split t sep) as [|l ls] eqn:S; [now apply Split_nonempty in S|].
    rewrite <- IH. destruct ls; reflexivity.
Qed.

Lemma headStage_slice (H : Z) (L : list gostring) :
  0 < H -> headStage H L = first_n H L.
Proof.
  intros HH. unfold headStage, first_n, len.
  destruct (H <? Z.of_nat (length L)) eqn:E; rewrite andb_comm; simpl.
  - now replace (0 <? H) with true by decide_Z.
  - apply Z.ltb_ge in E. symmetry. apply firstn_all2. lia.
Qed.

Lemma headStage_noop (H : Z) (L : list gostring) :
  H <= 0 \/ len L <= H -> headStage H L = L.
Proof.
  unfold headStage. intros [HH|HH].
  - now replace (0 <? H) with false by decide_Z.
  - replace (H <? len L) with false by decide_Z.
    now rewrite andb_false_r.
Qed.

Lemma tailStage_slice (T : Z) (L : list gostring) :
  0 < T -> tailStage T L = last_n T L.
Proof.
  intros HT. unfold tailStage, last_n, len.
  destruct (T <? Z.of_nat (length L)) eqn:E; rewrite andb_comm; simpl.
  - now replace (0 <? T) with true by decide_Z.
  - apply Z.ltb_ge in E.
    replace (length L - Z.to_nat T)%nat with 0%nat by lia. reflexivity.
Qed.

Lemma tailStage_noop (T : Z) (L : list gostring) :
  T <= 0 \/ len L <= T -> tailStage T L = L.
Proof.
  unfold tailStage. intros [HT|HT].
  - now replace (0 <? T) with false by decide_Z.
  - replace (T <? len L) with false by decide_Z.
    now rewrite andb_false_r.
Qed.

(** The slice [lines[len(lines)-T:]] of the source is the last [T] lines. *)
Lemma slice_from_last_n (T : Z) (L : list gostring) :
  0 < T -> T < len L -> slice_from L (len L - T) = last_n T L.
Proof.
  intros H0 H1. unfold slice_from, last_n, len in *. f_equal. lia.
Qed.

(** C3. Head/tail filtering.  For every text, with [L] its lines (split on
    newline), and all counts [H] and [T]: [applyLineFilters] keeps the first
    [H] lines when [0 < H < len L], then the last [T] lines of what is left
    when [0 < T] and [T] is below that length, and rejoins with newline.  A
    stage whose count is zero (or negative), or at least the current number
    of lines, changes nothing; a stage with a positive count equals the
    manual slice (first [H], last [T] elements). *)
Theorem applyLineFilters_head_then_tail (s : gostring) (H T : Z) :
  let L := Split s nl in
  applyLineFilters s H T = Join (tailStage T (headStage H L)) [nl]
  /\ (0 < H -> headStage H L = first_n H L)
  /\ (H <= 0 \/ len L <= H -> headStage H L = L)
  /\ (0 < T -> tailStage T (headStage H L) = last_n T (headStage H L))
  /\ (T <= 0 \/ len (headStage H L) <= T ->
      tailStage T (headStage H L) = headStage H L).
Proof.
  intros L. split; [|repeat split].
  - unfold applyLineFilters. fold L.
    destruct ((H <=? 0) && (T <=? 0)) eqn:E.
    + apply andb_prop in E as [EH ET].
      apply Z.leb_le in EH, ET.
      rewrite tailStage_noop, headStage_noop by auto.
      unfold L. now rewrite Join_Split.
    + f_equal. unfold tailStage at 1, headStage at 1 2 3.
      fold (headStage H L).
      change (slice_to L H) with (first_n H L).
      destruct ((0 <? T) && (T <? len _)) eqn:ET; [|reflexivity].
      apply andb_prop in ET as [E0 E1].
      apply Z.ltb_lt in E0, E1.
      now apply slice_from_last_n.
  - apply headStage_slice.
  - apply headStage_noop.
  - apply tailStage_slice.
  - apply tailStage_noop.
Qed.

Lemma applyLineFilters_head_then_tail_witness :
  applyLineFilters sample_lines 3 2 = go "b
c"
  /\ headStage 3 (Split sample_lines nl) = [go "a"; go "b"; go "c"]
  /\ tailStage 2 (headStage 3 (Split sample_lines nl)) = [go "b"; go "c"].
Proof.
  pose proof (applyLineFilters_head_then_tail sample_lines 3 2)
    as (E & Hh & _ & Ht & _).
  split; [|split].
  - rewrite E. reflexivity.
  - rewrite Hh by lia. reflexivity.
  - rewrite Ht by lia. reflexivity.
Defined.

(** ** ANSI stripping *)

Lemma letter_not_param (c : byte) : isLetter c = true -> isParam c = false.
Proof. destruct c; simpl; intros H; try reflexivity; discriminate H. Qed.

Lemma param_not_ESC (c : byte) : isParam c = true -> c <> ESC.
Proof. intros H ->. discriminate H. Qed.

Lemma letter_not_ESC (c : byte) : isLetter c = true -> c <> ESC.
Proof. intros H ->. discriminate H. Qed.

Lemma matchParams_complete (ps : gostring) (l : byte) (rest : gostring) :
  forallb isParam ps = true -> isLetter l = true ->
  matchParams (ps ++ l :: rest) = Some (S (length ps)).
Proof.
  intros Hps Hl. induction ps as [|p ps IH]; simpl in *.
  - now rewrite (letter_not_param l Hl), Hl.
  - apply andb_prop in Hps as [Hp Hps]. rewrite Hp, (IH Hps). reflexivity.
Qed.

Lemma matchParams_sound (s : gostring) (n : nat) :
  matchParams s = Some n ->
  exists ps l rest,
    s = ps ++ l :: rest /\ forallb isParam ps = true /\ isLetter l = true /\
    n = S (length ps).
Proof.
  revert n. induction s as [|c t IH]; simpl; intros n H; [discriminate|].
  destruct (isParam c) eqn:Ec.
  - destruct (matchParams t) as [m|] eqn:Em; [|discriminate].
    injection H as <-.
    destruct (IH m eq_refl) as (ps & l & rest & -> & Hps & Hl & ->).
    exists (c :: ps), l, rest. simpl. rewrite Ec, Hps. auto.
  - destruct (isLetter c) eqn:El; [|discriminate].
    injection H as <-. exists [], c, t. auto.
Qed.

(** The matcher finds exactly the escape sequences of the specification. *)
Lemma matchANSI_complete (E rest : gostring) :
  isEscape E -> matchANSI (E ++ rest) = Some (length E).
Proof.
  intros (ps & l & -> & Hps & Hl). simpl.
  rewrite <- app_assoc. simpl.
  rewrite (matchParams_complete ps l rest Hps Hl). simpl.
  rewrite length_app. simpl. do 3 f_equal. lia.
Qed.

Lemma matchANSI_sound (s : gostring) (n : nat) :
  matchANSI s = Some n ->
  exists E rest, isEscape E /\ s = E ++ rest /\ n = length E.
Proof.
  destruct s as [|e [|b t]]; simpl; try discriminate.
  destruct (Byte.eqb e ESC) eqn:Ee; [|discriminate].
  destruct (Byte.eqb b x5b) eqn:Eb; [|discriminate]. simpl.
  apply Byte.byte_dec_bl in Ee, Eb. subst e b.
  destruct (matchParams t) as [m|] eqn:Em; [|discriminate].
  simpl. intros H. injection H as <-.
  destruct (matchParams_sound t m Em) as (ps & l & rest & -> & Hps & Hl & ->).
  exists (ESC :: x5b :: ps ++ [l]), rest. split; [|split].
  - exists ps, l. auto.
  - simpl. now rewrite <- app_assoc.
  - simpl. rewrite length_app. simpl. lia.
Qed.

Lemma replaceAll_skip (p T : gostring) :
  replaceAll (length p) (p ++ T) = replaceAll 0 T.
Proof. induction p as [|c p IH]; simpl; [reflexivity | exact IH]. Qed.

Lemma stripANSI_escape (E T : gostring) :
  isEscape E -> stripANSI (E ++ T) = stripANSI T.
Proof.
  intros HE. unfold stripANSI.
  pose proof (matchANSI_complete E T HE) as Hm.
  destruct HE as (ps & l & -> & _ & _).
  cbn [app replaceAll] in *. rewrite Hm.
  cbn [length Nat.pred]. apply (replaceAll_skip (x5b :: ps ++ [l])).
Qed.

Lemma stripANSI_keep (c : byte) (T : gostring) :
  matchANSI (c :: T) = None -> stripANSI (c :: T) = c :: stripANSI T.
Proof. unfold stripANSI. cbn [replaceAll]. now intros ->. Qed.

Lemma EscapeFree_tail (c : byte) (G : gostring) :
  EscapeFree (c :: G) -> EscapeFree G.
Proof.
  intros H pre E post HE ->. exact (H (c :: pre) E post HE eq_refl).
Qed.

(** A byte of [T] that is not ESC was not put in: it is a byte of [G]. *)
Lemma Interspersed_head (x : byte) (G T : gostring) :
  x <> ESC -> Interspersed G (x :: T) ->
  exists G', G = x :: G' /\ Interspersed G' T.
Proof.
  intros Hx H. remember (x :: T) as T0 eqn:E0.
  revert x T Hx E0.
  induction H as [|c G T1 H _|E G T1 HE H IH]; intros x T Hx E0.
  - discriminate.
  - injection E0 as -> ->. eauto.
  - destruct HE as (ps & l & -> & _ & _). simpl in E0.
    injection E0 as E0 _. congruence.
Qed.

Lemma Interspersed_params (ps : gostring) (l : byte) (rest G : gostring) :
  forallb isParam ps = true -> isLetter l = true ->
  Interspersed G (ps ++ l :: rest) ->
  exists G', G = ps ++ l :: G' /\ Interspersed G' rest.
Proof.
  intros Hps Hl. revert G.
  induction ps as [|p ps IH]; simpl in *; intros G H.
  - apply Interspersed_head in H; [exact H | now apply letter_not_ESC].
  - apply andb_prop in Hps as [Hp Hps].
    apply Interspersed_head in H as (G1 & -> & H);
      [|now apply param_not_ESC].
    destruct (IH Hps G1 H) as (G' & -> & H'). eauto.
Qed.

(** A match that begins at a byte kept from [G] lies in [G] as a whole. *)
Lemma Interspersed_keep_no_match (c : byte) (G T : gostring) :
  EscapeFree (c :: G) -> Interspersed G T -> matchANSI (c :: T) = None.
Proof.
  intros HG H. destruct (matchANSI (c :: T)) as [n|] eqn:Em; [|reflexivity].
  exfalso.
  destruct (matchANSI_sound _ _ Em) as (E & rest & HE & Eq & _).
  pose proof HE as (ps & l & -> & Hps & Hl).
  simpl in Eq. injection Eq as -> ->.
  apply Interspersed_head in H as (G1 & -> & H); [|discriminate].
  rewrite <- app_assoc in H. simpl in H.
  apply (Interspersed_params ps l rest G1 Hps Hl) in H as (G' & -> & _).
  apply (HG [] (ESC :: x5b :: ps ++ [l]) G' HE).
  simpl. now rewrite <- app_assoc.
Qed.

Lemma stripANSI_Interspersed (G T : gostring) :
  EscapeFree G -> Interspersed G T -> stripANSI T = G.
Proof.
  intros HG H. induction H as [|c G T H IH|E G T HE H IH].
  - reflexivity.
  - rewrite stripANSI_keep
      by exact (Interspersed_keep_no_match c G T HG H).
    f_equal. apply IH. now apply EscapeFree_tail in HG.
  - rewrite stripANSI_escape by assumption. now apply IH.
Qed.

(** A text without the ESC byte is free of escape sequences. *)
Lemma no_ESC_EscapeFree (G : gostring) :
  forallb (fun c => negb (Byte.eqb c ESC)) G = true -> EscapeFree G.
Proof.
  intros H pre E post (ps & l & -> & _ & _) ->.
  rewrite forallb_app in H. apply andb_prop in H as [_ H].
  simpl in H. discriminate H.
Qed.

(** C4. ANSI stripping.  For every escape-free text [G] and every [T] made
    from [G] by interspersing sequences ESC, bracket, digits or semicolons,
    one ASCII letter: [stripANSI T = G].  And in raw mode the strip stage of
    [main] is skipped: the captured text reaches the next stage unchanged,
    and the transform chain is the trim and head/tail stages alone. *)
Theorem stripANSI_recovers_ground_truth :
  (forall G T : gostring,
      EscapeFree G -> Interspersed G T -> stripANSI T = G)
  /\ (forall (config : Config) (output : gostring),
         raw config = true ->
         stripStage config output = output /\
         transform config output =
           applyLineFilters (trimStage config output)
                            (headLines config) (tailLines config)).
Proof.
  split.
  - exact stripANSI_Interspersed.
  - intros config output Hraw. unfold transform, stripStage.
    rewrite Hraw. simpl. auto.
Qed.

Lemma sample_plain_EscapeFree : EscapeFree sample_plain.
Proof. apply no_ESC_EscapeFree. reflexivity. Qed.

Lemma sample_Interspersed : Interspersed sample_plain sample_coloured.
Proof.
  apply (Interspersed_esc (ESC :: go "[1;31m") sample_plain
           (go "red" ++ (ESC :: go "[0m") ++ go "!")).
  { exists (go "1;31"), "m"%byte. repeat split. }
  change (Interspersed ("r"%byte :: "e"%byte :: "d"%byte :: go "!")
            ("r"%byte :: "e"%byte :: "d"%byte :: (ESC :: go "[0m") ++ go "!")).
  do 3 apply Interspersed_keep.
  apply (Interspersed_esc (ESC :: go "[0m") (go "!") (go "!")).
  { exists (go "0"), "m"%byte. repeat split. }
  apply Interspersed_keep. apply Interspersed_nil.
Qed.

Lemma stripANSI_recovers_ground_truth_witness :
  stripANSI sample_coloured = sample_plain
  /\ stripStage raw_config sample_coloured = sample_coloured.
Proof.
  destruct stripANSI_recovers_ground_truth as [Hs Hr]. split.
  - apply Hs; [exact sample_plain_EscapeFree | exact sample_Interspersed].
  - apply (Hr raw_config sample_coloured). reflexivity.
Defined.

(** ** Command executor *)

Lemma collect_all (writes : list (Stream * gostring)) :
  collect (fun _ => true) writes = concat (map snd writes).
Proof.
  induction writes as [|[st c] ws IH]; simpl; [reflexivity|now rewrite IH].
Qed.

Lemma collect_none (writes : list (Stream * gostring)) :
  collect (fun _ => false) writes = [].
Proof. induction writes as [|[st c] ws IH]; simpl; auto. Qed.

Lemma executeCommand_eq (w : World) (name : gostring) (rest : list gostring)
      (captureStderr : bool) (st : State) :
  executeCommand w (name :: rest) captureStderr st =
  (Done
     (match exec_run w (trace st) name rest [] with
      | SpawnFailed e =>
          ([], if captureStderr then None else Some e)
      | Ran ws None =>
          (collect (fun s => if captureStderr then true else isOut s) ws, None)
      | Ran ws (Some e) =>
          (collect (fun s => if captureStderr then true else isOut s) ws,
           if captureStderr then None
           else if 0 <? len (collect isErr ws)
                then Some (Errorf_stderr [] e (collect isErr ws))
                else Some e)
      end),
   ran st name rest []).
Proof.
  unfold executeCommand, cmd_Run, bind, get_trace, emit, ret, ran. simpl.
  destruct (exec_run w (trace st) name rest []) as [e|ws [e|]];
    destruct captureStderr; simpl; try reflexivity.
  destruct (0 <? len (collect _ ws)); reflexivity.
Qed.

(** C7. Non-merged child failure.  With capture-stderr mode off and a child
    that ran and exited non-zero ([Wait] gave the error [e]),
    [executeCommand] returns the captured standard output together with an
    error: the wait error itself when the child wrote nothing to standard
    error, and otherwise an error whose text is the text of the wait error
    followed by the captured standard-error text. *)
Theorem executeCommand_child_failure_separate
        (w : World) (name : gostring) (rest : list gostring) (st : State)
        (writes : list (Stream * gostring)) (e : error) :
  exec_run w (trace st) name rest [] = Ran writes (Some e) ->
  exists err,
    executeCommand w (name :: rest) false st =
      (Done (collect isOut writes, Some err), ran st name rest [])
    /\ (collect isErr writes = [] -> err = e)
    /\ (collect isErr writes <> [] ->
        Error err =
          Error e ++ go " (stderr: " ++ collect isErr writes ++ go ")").
Proof.
  intros Hrun. rewrite executeCommand_eq, Hrun.
  destruct (collect isErr writes) as [|c cs] eqn:Ec.
  - exists e. simpl. repeat split; congruence.
  - eexists. split; [reflexivity|]. split; [discriminate|].
    intros _. reflexivity.
Qed.

Lemma executeCommand_child_failure_separate_witness :
  exists err,
    executeCommand (sample_world failing_child) [go "make"; go "all"] false
                   (init fs_empty) =
      (Done (go "partial output", Some err),
       ran (init fs_empty) (go "make") [go "all"] [])
    /\ Error err = go "exit status 1 (stderr: boom)".
Proof.
  destruct (executeCommand_child_failure_separate
              (sample_world failing_child) (go "make") [go "all"]
              (init fs_empty) _ _ eq_refl) as (err & Hrun & _ & Herr).
  exists err. split; [exact Hrun|].
  rewrite Herr; [reflexivity | discriminate].
Defined.

(** ** Orchestrator: the executor's verdict *)

(** The first three blocks of [main] pass when neither help nor the version
    is asked for and a command is given. *)
Lemma main_runs_command (w : World) (config : Config) (name : gostring)
      (rest : list gostring) (st : State) :
  help config = false -> showVersion config = false ->
  main w config (name :: rest) st =
  (r <- executeCommand w (name :: rest) (stderr config) ;;
   let '(output, err) := r in
   match err with
   | Some e =>
       print_stderr (go "Error executing command: " ++ Error e ++ [nl]) ;;
       os_Exit 1
   | None => ret tt
   end ;;
   delayStep config ;;
   let output := transform config output in
   let fullOutput := record_of w (name :: rest) output in
   persistStep w config fullOutput ;;
   publishStep w config output ;;
   echoStep config output) st.
Proof.
  intros Hh Hv. unfold main. rewrite Hh, Hv.
  replace (len (name :: rest) =? 0) with false
    by (symmetry; apply Z.eqb_neq; unfold len; simpl length; lia).
  reflexivity.
Qed.

(** When the executor reports an error, [main] prints it to standard error
    and exits with status 1: the run consists of the attempt to run the
    command and of that message, and no file is touched. *)
Lemma main_executor_error (w : World) (config : Config) (name : gostring)
      (rest : list gostring) (st : State) (out : gostring) (e : error) :
  help config = false -> showVersion config = false ->
  executeCommand w (name :: rest) (stderr config) st =
    (Done (out, Some e), ran st name rest []) ->
  main w config (name :: rest) st =
  (Exit 1,
   {| fs := fs st;
      trace := trace st ++
        [EvRun name rest [];
         EvStderr (go "Error executing command: " ++ Error e ++ [nl])] |}).
Proof.
  intros Hh Hv Hx. rewrite main_runs_command by assumption.
  unfold bind at 1. rewrite Hx.
  unfold bind, print_stderr, emit, os_Exit, ran. simpl.
  now rewrite <- app_assoc.
Qed.

(** C1, as the code has it.  For every non-empty argument vector:
    (a) in capture-stderr mode a child that ran and exited non-zero is not
    fatal: [executeCommand] returns the merged output of both streams, in
    the order written, and no error;
    (b) with capture-stderr mode off, an executable that cannot be found or
    started yields an error, and [main] then prints it and exits with
    status 1 having done nothing but the attempt: no file and no clipboard
    step;
    (c) in capture-stderr mode every error of [Run] is dropped, the failure
    to start included: [executeCommand] returns the empty output and no
    error. *)
Theorem executeCommand_fatal_policy
        (w : World) (name : gostring) (rest : list gostring) (st : State) :
  (forall writes e,
      exec_run w (trace st) name rest [] = Ran writes (Some e) ->
      executeCommand w (name :: rest) true st =
        (Done (concat (map snd writes), None), ran st name rest []))
  /\ (forall e,
         exec_run w (trace st) name rest [] = SpawnFailed e ->
         executeCommand w (name :: rest) false st =
           (Done ([], Some e), ran st name rest [])
         /\ forall config,
             help config = false -> showVersion config = false ->
             stderr config = false ->
             main w config (name :: rest) st =
               (Exit 1,
                {| fs := fs st;
                   trace := trace st ++
                     [EvRun name rest [];
                      EvStderr (go "Error executing command: "
                                   ++ Error e ++ [nl])] |}))
  /\ (forall e,
         exec_run w (trace st) name rest [] = SpawnFailed e ->
         executeCommand w (name :: rest) true st =
           (Done ([], None), ran st name rest [])).
Proof.
  split; [|split].
  - intros writes e Hrun. rewrite executeCommand_eq, Hrun.
    now rewrite collect_all.
  - intros e Hrun.
    assert (Hx : executeCommand w (name :: rest) false st =
                 (Done ([], Some e), ran st name rest []))
      by now rewrite executeCommand_eq, Hrun.
    split; [exact Hx|].
    intros config Hh Hv He. apply main_executor_error with (out := []); auto.
    now rewrite He.
  - intros e Hrun. now rewrite executeCommand_eq, Hrun.
Qed.

Lemma executeCommand_fatal_policy_witness :
  executeCommand (sample_world failing_child) [go "make"] true
                 (init fs_empty) =
    (Done (go "partial boomoutput", None),
     ran (init fs_empty) (go "make") [] [])
  /\ exit_code (fst (main (sample_world failing_child) default_config
                          [go "no-such-command"] (init fs_empty))) = 1
  /\ executeCommand (sample_world failing_child) [go "no-such-command"] true
                    (init fs_empty) =
       (Done ([], None), ran (init fs_empty) (go "no-such-command") [] []).
Proof.
  destruct (executeCommand_fatal_policy
              (sample_world failing_child) (go "make") [] (init fs_empty))
    as (Ha & _ & _).
  destruct (executeCommand_fatal_policy
              (sample_world failing_child) (go "no-such-command") []
              (init fs_empty)) as (_ & Hb & Hc).
  split; [|split].
  - exact (Ha _ _ eq_refl).
  - destruct (Hb _ eq_refl) as [_ Hm].
    rewrite (Hm default_config eq_refl eq_refl eq_refl). reflexivity.
  - exact (Hc _ eq_refl).
Defined.

(** C1, as stated, fails: in capture-stderr mode an executable that cannot
    be found yields no error.  The run goes on, persists a Record with an
    empty text and exits with status 0. *)
Lemma spawn_failure_not_reported_in_capture_mode :
  exec_run (sample_world failing_child) [] (go "no-such-command") [] []
    = SpawnFailed err_not_found
  /\ fst (executeCommand (sample_world failing_child)
            [go "no-such-command"] true (init fs_empty)) = Done ([], None)
  /\ exit_code (fst (main (sample_world failing_child) capture_config
                       [go "no-such-command"] (init fs_empty))) = 0
  /\ fs (snd (main (sample_world failing_child) capture_config
                [go "no-such-command"] (init fs_empty))) (go "/tmp/cb.txt")
     = Some (go "[2025-11-17 19:41:29 " ++ [dquote] ++ go "no-such-command"
                ++ [dquote] ++ go "]:" ++ [nl; nl]).
Proof. repeat split; vm_compute; reflexivity. Qed.

(** ** Clipboard publisher *)

Lemma gostring_eqb_eq (a b : gostring) : gostring_eqb a b = true <-> a = b.
Proof.
  revert b. induction a as [|x a IH]; destruct b as [|y b]; simpl;
    try (split; [discriminate|discriminate]); [tauto|].
  rewrite andb_true_iff, IH. split.
  - intros [E ->]. apply Byte.byte_dec_bl in E. now subst.
  - intros H. injection H as -> ->. split; [apply Byte.byte_dec_lb|]; auto.
Qed.

Lemma gostring_eqb_refl (a : gostring) : gostring_eqb a a = true.
Proof. now apply gostring_eqb_eq. Qed.

(** What [copyToClipboard] does once a tool is chosen. *)
Lemma copyToClipboard_trace (w : World) (content : gostring) (st : State)
      (tool : gostring) (args : list gostring) :
  detectClipboardTool w = (tool, args) -> tool <> [] ->
  snd (copyToClipboard w content st) = ran st tool args content.
Proof.
  intros Hd Hne. unfold copyToClipboard. rewrite Hd.
  destruct (gostring_eqb tool []) eqn:E;
    [apply gostring_eqb_eq in E; contradiction|].
  unfold bind, cmd_Run, get_trace, emit, ret, ran. simpl.
  destruct (run_error _); reflexivity.
Qed.

(** C8. Clipboard tool discovery.  The search path is probed in the fixed
    order wl-copy (no arguments), xclip (-selection clipboard), xsel
    (--clipboard --input), and the first tool found is the one
    [copyToClipboard] runs, with its arguments and the content on standard
    input.  When none of the three is found, [copyToClipboard] runs nothing
    and fails with an error whose text names all three. *)
Theorem detectClipboardTool_priority (w : World) :
  detectClipboardTool w =
    match find (fun c => look_path w (fst c)) clipboardCandidates with
    | Some c => c
    | None => ([], [])
    end
  /\ (forall c content st,
         find (fun c => look_path w (fst c)) clipboardCandidates = Some c ->
         snd (copyToClipboard w content st) = ran st (fst c) (snd c) content)
  /\ (find (fun c => look_path w (fst c)) clipboardCandidates = None ->
      forall content st,
        copyToClipboard w content st =
          (Done (Some (ErrorString
             (go "no clipboard tool found (tried: wl-copy, xclip, xsel)"))),
           st))
  /\ forallb
       (fun c => contains (fst c)
          (go "no clipboard tool found (tried: wl-copy, xclip, xsel)"))
       clipboardCandidates = true.
Proof.
  assert (Hd : detectClipboardTool w =
    match find (fun c => look_path w (fst c)) clipboardCandidates with
    | Some c => c
    | None => ([], [])
    end).
  { unfold detectClipboardTool, clipboardCandidates, find, fst.
    destruct (look_path w (go "wl-copy")); [reflexivity|].
    destruct (look_path w (go "xclip")); [reflexivity|].
    destruct (look_path w (go "xsel")); reflexivity. }
  split; [exact Hd|]. split; [|split].
  - intros [tool args] content st Hf. rewrite Hf in Hd.
    apply copyToClipboard_trace; [exact Hd|].
    unfold clipboardCandidates, find, fst in Hf.
    destruct (look_path w (go "wl-copy"));
      [injection Hf as <- <-; discriminate|].
    destruct (look_path w (go "xclip"));
      [injection Hf as <- <-; discriminate|].
    destruct (look_path w (go "xsel"));
      [injection Hf as <- <-; discriminate|discriminate].
  - intros Hf content st. rewrite Hf in Hd.
    unfold copyToClipboard. rewrite Hd. reflexivity.
  - reflexivity.
Qed.

Lemma detectClipboardTool_priority_witness :
  snd (copyToClipboard xsel_world (go "hello") (init fs_empty)) =
    ran (init fs_empty) (go "xsel") [go "--clipboard"; go "--input"]
        (go "hello")
  /\ copyToClipboard bare_world (go "hello") (init fs_empty) =
       (Done (Some (ErrorString
          (go "no clipboard tool found (tried: wl-copy, xclip, xsel)"))),
        init fs_empty).
Proof.
  split.
  - destruct (detectClipboardTool_priority xsel_world) as (_ & H & _).
    exact (H (go "xsel", [go "--clipboard"; go "--input"]) (go "hello")
             (init fs_empty) eq_refl).
  - destruct (detectClipboardTool_priority bare_world) as (_ & _ & H & _).
    exact (H eq_refl (go "hello") (init fs_empty)).
Defined.

(** ** File persister *)

Lemma fs_set_same (files : FS) (path content : gostring) :
  fs_set files path content path = Some content.
Proof. unfold fs_set. now rewrite gostring_eqb_refl. Qed.

Lemma fs_set_other (files : FS) (path content p : gostring) :
  p <> path -> fs_set files path content p = files p.
Proof.
  intros H. unfold fs_set. destruct (gostring_eqb p path) eqn:E; auto.
  apply gostring_eqb_eq in E. contradiction.
Qed.

Lemma written_app (a b : list Event) :
  written (a ++ b) = written a ++ written b.
Proof.
  induction a as [|e a IH]; simpl; [reflexivity|].
  destruct e; simpl; now rewrite IH.
Qed.

(** One successful [writeToFile]: in append mode the content goes after
    what the file held, in overwrite mode it replaces it; no other file
    changes. *)
Lemma writeToFile_success (w : World) (path content : gostring)
      (appendMode : bool) (st : State) :
  fst (writeToFile w path content appendMode st) = Done None ->
  let st' := snd (writeToFile w path content appendMode st) in
  fs st' path =
    Some (if appendMode then content_of (fs st) path ++ content else content)
  /\ (forall p, p <> path -> fs st' p = fs st p)
  /\ written (trace st') = written (trace st) ++ [content].
Proof.
  unfold writeToFile, os_OpenFile, file_WriteString, bind, emit, get_fs,
    put_fs, when, ret.
  destruct (mkdir_all w (filepath_Dir w path)) as [e|]; [discriminate|].
  destruct appendMode;
  [ change (has_flag (Z.lor (Z.lor O_CREATE O_WRONLY) O_APPEND) O_TRUNC) with false;
    change (has_flag (Z.lor (Z.lor O_CREATE O_WRONLY) O_APPEND) O_CREATE) with true;
    change (has_flag (Z.lor (Z.lor O_CREATE O_WRONLY) O_APPEND) O_APPEND) with true
  | change (has_flag (Z.lor (Z.lor O_CREATE O_WRONLY) O_TRUNC) O_TRUNC) with true;
    change (has_flag (Z.lor (Z.lor O_CREATE O_WRONLY) O_TRUNC) O_CREATE) with true;
    change (has_flag (Z.lor (Z.lor O_CREATE O_WRONLY) O_TRUNC) O_APPEND) with false ];
  (destruct (open_file w path _) as [e|]; [discriminate|]);
  unfold content_of;
  destruct (fs st path) as [old|] eqn:Eold; cbn [fs trace fst snd];
  rewrite ?Eold, ?fs_set_same;
  (destruct (write_string w path content) as [[n e]|]; [discriminate|]);
  cbn [fs trace fst snd]; intros _;
  (split; [rewrite ?fs_set_same, ?Eold; cbn [app]; rewrite ?skipn_nil, ?app_nil_r
          |split;
           [intros p Hp; rewrite !fs_set_other by assumption; reflexivity
           |rewrite <- !app_assoc, !written_app; simpl; now rewrite ?app_nil_r]]).
  all: reflexivity.
Qed.

(** C6. File round-trip.  For every path and every two Records written one
    after the other with [writeToFile], both writes succeeding: in overwrite
    mode the file then holds exactly the bytes of the second Record; in
    append mode it holds what it held before, then the bytes of the first
    Record immediately followed by the bytes of the second, header and
    all. *)
Theorem writeToFile_round_trip
        (w1 w2 : World) (path record1 record2 : gostring)
        (appendMode : bool) (st0 : State) :
  let st1 := snd (writeToFile w1 path record1 appendMode st0) in
  let st2 := snd (writeToFile w2 path record2 appendMode st1) in
  fst (writeToFile w1 path record1 appendMode st0) = Done None ->
  fst (writeToFile w2 path record2 appendMode st1) = Done None ->
  fs st2 path =
    Some (if appendMode
          then content_of (fs st0) path ++ record1 ++ record2
          else record2).
Proof.
  intros st1 st2 H1 H2.
  destruct (writeToFile_success w1 path record1 appendMode st0 H1)
    as (E1 & _ & _).
  destruct (writeToFile_success w2 path record2 appendMode st1 H2)
    as (E2 & _ & _).
  fold st1 in E1. fold st2 in E2. rewrite E2.
  destruct appendMode; [|reflexivity].
  unfold content_of at 1. rewrite E1. now rewrite <- app_assoc.
Qed.

Lemma writeToFile_round_trip_witness :
  fs (snd (writeToFile xsel_world (go "/tmp/cb.txt") sample_record2 false
             (snd (writeToFile xsel_world (go "/tmp/cb.txt") sample_record1
                     false (init fs_empty)))))
     (go "/tmp/cb.txt") = Some sample_record2
  /\ fs (snd (writeToFile xsel_world (go "/tmp/cb.txt") sample_record2 true
                (snd (writeToFile xsel_world (go "/tmp/cb.txt")
                        sample_record1 true (init fs_empty)))))
        (go "/tmp/cb.txt") = Some (sample_record1 ++ sample_record2).
Proof.
  split.
  - exact (writeToFile_round_trip xsel_world xsel_world (go "/tmp/cb.txt")
             sample_record1 sample_record2 false (init fs_empty)
             eq_refl eq_refl).
  - exact (writeToFile_round_trip xsel_world xsel_world (go "/tmp/cb.txt")
             sample_record1 sample_record2 true (init fs_empty)
             eq_refl eq_refl).
Defined.

(** ** Orchestrator: the blocks of [main] *)

Lemma main_split (w : World) (config : Config) (args : list gostring)
      (st : State) :
  main w config args st =
  (output <- capture_persist_publish w config args ;; echoStep config output)
    st.
Proof.
  unfold main, capture_persist_publish, bind.
  destruct (help config); [reflexivity|].
  destruct (showVersion config); [reflexivity|].
  destruct (len args =? 0); [reflexivity|]. cbv beta iota delta [ret].
  destruct (executeCommand w args (stderr config) st) as [[[out [e|]]| |] st1];
    try reflexivity.
  destruct (delayStep config st1) as [[[]| |] st2]; try reflexivity.
  destruct (persistStep w config (record_of w args (transform config out))
              st2) as [[[]| |] st3]; try reflexivity.
  destruct (publishStep w config (transform config out) st3)
    as [[[]| |] st4]; reflexivity.
Qed.

Lemma capture_persist_publish_quiet (w : World) (config : Config)
      (q : bool) (lines : Z) (args : list gostring) :
  capture_persist_publish w (set_quiet config q lines) args =
  capture_persist_publish w config args.
Proof. reflexivity. Qed.

Lemma stdout_of_app (a b : list Event) :
  stdout_of (a ++ b) = stdout_of a ++ stdout_of b.
Proof.
  induction a as [|e a IH]; simpl; [reflexivity|].
  destruct e; simpl; rewrite IH; try reflexivity.
  now rewrite app_assoc.
Qed.

Lemma silent_app (a b : list Event) : silent (a ++ b) = silent a ++ silent b.
Proof.
  induction a as [|e a IH]; simpl; [reflexivity|].
  destruct e; simpl; now rewrite IH.
Qed.

Lemma stdins_app (a b : list Event) : stdins (a ++ b) = stdins a ++ stdins b.
Proof.
  induction a as [|e a IH]; simpl; [reflexivity|].
  destruct e; simpl; now rewrite IH.
Qed.

(** The last block of [main] only prints. *)
Lemma echoStep_facts (config : Config) (output : gostring) (st : State) :
  exists ext,
    echoStep config output st =
      (Done tt, {| fs := fs st; trace := trace st ++ ext |})
    /\ stdout_of ext = echo_text config output
    /\ silent ext = [] /\ written ext = [] /\ stdins ext = [].
Proof.
  unfold echoStep, echo_text, fullyQuiet.
  destruct (quiet config && (quietLines config =? 0)).
  - exists []. rewrite app_nil_r. destruct st. repeat split.
  - destruct (printed config output) as [|c p] eqn:Ep; cbn [gostring_eqb negb].
    + exists []. rewrite app_nil_r. destruct st. repeat split.
    + unfold bind, print_stdout, emit, when, ret. cbn [fs trace].
      destruct (HasSuffix (c :: p) [nl]); cbn [negb fs trace].
      * exists [EvStdout (c :: p)]. repeat split.
      * exists [EvStdout (c :: p); EvStdout [nl]]. rewrite <- app_assoc.
        repeat split.
Qed.

Lemma delayStep_facts (config : Config) (st : State) :
  exists ext,
    delayStep config st =
      (Done tt, {| fs := fs st; trace := trace st ++ ext |})
    /\ written ext = [] /\ stdins ext = []
    /\ (verbose config = false -> stdout_of ext = []).
Proof.
  unfold delayStep. destruct (0 <? delay config).
  - unfold bind, when, print_stdout, emit, ret.
    destruct (verbose config); cbn [fs trace].
    + eexists [_; _]. rewrite <- app_assoc. repeat split; discriminate.
    + eexists [_]. repeat split.
  - exists []. rewrite app_nil_r. destruct st. repeat split.
Qed.

(** Everything [writeToFile] can do: it starts no process and prints
    nothing; either it fails before writing and leaves the files as they
    were, or it hands [content] to the one write. *)
Lemma writeToFile_facts (w : World) (path content : gostring)
      (appendMode : bool) (st : State) :
  let r := writeToFile w path content appendMode st in
  exists ext,
    trace (snd r) = trace st ++ ext
    /\ stdins ext = [] /\ stdout_of ext = []
    /\ ((written ext = [] /\ fs (snd r) = fs st /\ fst r <> Done None
         /\ exists e, fst r = Done (Some e))
        \/ (written ext = [content]
            /\ (write_string w path content = None -> fst r = Done None)
            /\ exists oe, fst r = Done oe)).
Proof.
  unfold writeToFile, os_OpenFile, file_WriteString, bind, emit, get_fs,
    put_fs, when, ret.
  destruct (mkdir_all w (filepath_Dir w path)) as [e|]; cbn [fs trace fst snd].
  { eexists [_]. repeat split. left. repeat split; [discriminate|eauto]. }
  destruct (open_file w path _) as [e|]; cbn [fs trace fst snd].
  { eexists [_; _]. rewrite <- app_assoc. repeat split.
    left. repeat split; [discriminate|eauto]. }
  destruct appendMode;
  [ change (has_flag (Z.lor (Z.lor O_CREATE O_WRONLY) O_APPEND) O_TRUNC)
      with false;
    change (has_flag (Z.lor (Z.lor O_CREATE O_WRONLY) O_APPEND) O_CREATE)
      with true
  | change (has_flag (Z.lor (Z.lor O_CREATE O_WRONLY) O_TRUNC) O_TRUNC)
      with true;
    change (has_flag (Z.lor (Z.lor O_CREATE O_WRONLY) O_TRUNC) O_CREATE)
      with true ];
  (destruct (fs st path) as [old|]; cbn [fs trace fst snd];
   destruct (write_string w path content) as [[n e]|]; cbn [fs trace fst snd];
   (eexists [_; _; _; _]; rewrite <- !app_assoc; repeat split;
    right; repeat split; try (intros; discriminate || reflexivity); eauto)).
Qed.

Lemma persistStep_facts (w : World) (config : Config) (full : gostring)
      (st : State) :
  let r := persistStep w config full st in
  let target := targetFile_of config in
  exists ext,
    trace (snd r) = trace st ++ ext
    /\ stdins ext = []
    /\ (verbose config = false -> stdout_of ext = [])
    /\ (fst r = Done tt \/ fst r = Exit 1)
    /\ ((written ext = [] /\ fs (snd r) = fs st
         /\ (noTemp config = false -> fst r = Exit 1))
        \/ (written ext = [full] /\ noTemp config = false
            /\ (write_string w target full = None \/ fst r = Done tt ->
                fst r = Done tt
                /\ fs (snd r) target =
                     Some (if append config
                           then content_of (fs st) target ++ full else full)
                /\ forall p, p <> target -> fs (snd r) p = fs st p))).
Proof.
  unfold persistStep. destruct (noTemp config); cbn [negb].
  { exists []. rewrite app_nil_r. repeat split; auto.
    left. repeat split. discriminate. }
  pose proof (writeToFile_facts w (targetFile_of config) full
                (append config) st) as F.
  pose proof (writeToFile_success w (targetFile_of config) full
                (append config) st) as S.
  cbv zeta in F, S. unfold bind.
  destruct (writeToFile w (targetFile_of config) full (append config) st)
    as [o st1].
  cbn [fst snd] in F, S.
  destruct F as (ext & Ht & Hi & Ho & [(Hw & Hfs & Hne & e & ->)
                                      |(Hw & Hws & [e|] & ->)]).
  - unfold print_stderr, emit, os_Exit. cbn [fst snd fs trace].
    eexists (ext ++ [_]). rewrite Ht, <- app_assoc.
    rewrite stdins_app, stdout_of_app, written_app, Hi, Ho, Hw.
    split; [reflexivity|]. split; [reflexivity|]. split; [reflexivity|].
    split; [now right|]. left. auto.
  - unfold print_stderr, emit, os_Exit. cbn [fst snd fs trace].
    eexists (ext ++ [_]). rewrite Ht, <- app_assoc.
    rewrite stdins_app, stdout_of_app, written_app, Hi, Ho, Hw.
    split; [reflexivity|]. split; [reflexivity|]. split; [reflexivity|].
    split; [now right|]. right. split; [reflexivity|]. split; [reflexivity|].
    intros [H|H]; [specialize (Hws H)|]; discriminate.
  - destruct (S eq_refl) as (Hfs & Hoth & _).
    unfold when, print_stdout, emit, ret.
    destruct (verbose config); cbn [fst snd fs trace].
    + eexists (ext ++ [_]). rewrite Ht, <- app_assoc.
      rewrite stdins_app, stdout_of_app, written_app, Hi, Ho, Hw.
      split; [reflexivity|]. split; [reflexivity|]. split; [discriminate|].
      split; [now left|]. right. auto.
    + exists ext. rewrite Ht, Hi, Ho, Hw.
      split; [reflexivity|]. split; [reflexivity|]. split; [reflexivity|].
      split; [now left|]. right. auto.
Qed.

Lemma bind_Done {A B} (m : M A) (k : A -> M B) (st st1 : State) (a : A) :
  m st = (Done a, st1) -> bind m k st = k a st1.
Proof. unfold bind. now intros ->. Qed.

Lemma clearClipboard_facts (w : World) (st : State) :
  let r := clearClipboard w st in
  fs (snd r) = fs st
  /\ exists ext,
      trace (snd r) = trace st ++ ext
      /\ written ext = [] /\ stdout_of ext = []
      /\ (forall i, In i (stdins ext) -> i = [])
      /\ exists oe, fst r = Done oe.
Proof.
  unfold clearClipboard. destruct (detectClipboardTool w) as [tool args].
  destruct (gostring_eqb tool []).
  - cbn. split; [reflexivity|]. exists []. rewrite app_nil_r.
    do 3 (split; [reflexivity|]). split; [intros i []|eauto].
  - unfold cmd_Run, bind, get_trace, emit, ret. cbn [fst snd fs trace].
    split; [reflexivity|]. eexists [_].
    do 3 (split; [reflexivity|]). split; [|eauto].
    intros i [<-|[]]. reflexivity.
Qed.

Lemma copyToClipboard_facts (w : World) (content : gostring) (st : State) :
  let r := copyToClipboard w content st in
  fs (snd r) = fs st
  /\ exists ext,
      trace (snd r) = trace st ++ ext
      /\ written ext = [] /\ stdout_of ext = []
      /\ ((ext = [] /\ exists e, fst r = Done (Some e))
          \/ (ext = [EvRun (fst (detectClipboardTool w))
                           (snd (detectClipboardTool w)) content]
              /\ exists oe, fst r = Done oe)).
Proof.
  unfold copyToClipboard. destruct (detectClipboardTool w) as [tool args].
  destruct (gostring_eqb tool []).
  - cbn. split; [reflexivity|]. exists []. rewrite app_nil_r.
    do 3 (split; [reflexivity|]). left. eauto.
  - unfold cmd_Run, bind, get_trace, emit, ret. cbn [fst snd fs trace].
    destruct (run_error _); cbn [fst snd fs trace];
      (split; [reflexivity|]; eexists [_];
       do 3 (split; [reflexivity|]); right; eauto).
Qed.

Lemma publishStep_facts (w : World) (config : Config) (output : gostring)
      (st : State) :
  let r := publishStep w config output st in
  fs (snd r) = fs st
  /\ (fst r = Done tt \/ fst r = Exit 1)
  /\ exists ext,
      trace (snd r) = trace st ++ ext
      /\ written ext = []
      /\ (verbose config = false -> stdout_of ext = [])
      /\ (forall i, In i (stdins ext) -> i = [] \/ i = output)
      /\ (fst r = Done tt -> noClipboard config = false ->
          In (EvRun (fst (detectClipboardTool w))
                    (snd (detectClipboardTool w)) output) ext).
Proof.
  unfold publishStep. destruct (noClipboard config); cbn [negb].
  { split; [reflexivity|]. split; [now left|].
    exists []. rewrite app_nil_r. repeat split; auto; [intros i []|discriminate]. }
  assert (H1 : exists st1 ext1,
             (if clear config
              then bind (clearClipboard w)
                     (fun err => match err with
                        | Some e => when (verbose config)
                            (print_stderr
                               (go "Warning: could not clear clipboard: "
                                   ++ Error e ++ [nl]))
                        | None => ret tt end)
              else ret tt) st = (Done tt, st1)
             /\ fs st1 = fs st /\ trace st1 = trace st ++ ext1
             /\ written ext1 = [] /\ stdout_of ext1 = []
             /\ (forall i, In i (stdins ext1) -> i = [])).
  { destruct (clear config).
    - pose proof (clearClipboard_facts w st) as F. cbv zeta in F.
      unfold bind. destruct (clearClipboard w st) as [o st1].
      cbn [fst snd] in F.
      destruct F as (Hfs & ext & Ht & Hw & Ho & Hi & [e|] & ->).
      + unfold when, print_stderr, emit, ret.
        destruct (verbose config); cbn [fs trace].
        * eexists _, (ext ++ [_]). split; [reflexivity|]. cbn [fs trace].
          rewrite Ht, <- app_assoc, written_app, stdout_of_app, stdins_app,
            Hw, Ho. repeat split; auto.
          intros i Hin. apply in_app_or in Hin as [Hin|[]]. auto.
        * exists st1, ext. repeat split; auto.
      + exists st1, ext. repeat split; auto.
    - exists st, []. rewrite app_nil_r. repeat split; auto. intros i []. }
  destruct H1 as (st1 & ext1 & H1 & Hfs1 & Ht1 & Hw1 & Ho1 & Hi1).
  rewrite (bind_Done _ _ _ _ _ H1). clear H1.
  pose proof (copyToClipboard_facts w output st1) as F. cbv zeta in F.
  unfold bind. destruct (copyToClipboard w output st1) as [o st2].
  cbn [fst snd] in F.
  destruct F as (Hfs2 & ext2 & Ht2 & Hw2 & Ho2 & Hc).
  assert (Hi2 : forall i, In i (stdins ext2) -> i = [] \/ i = output).
  { destruct Hc as [[-> _]|[-> _]]; simpl; intros i Hin; [easy|].
    destruct Hin as [<-|[]]. now right. }
  assert (Hi12 : forall i, In i (stdins (ext1 ++ ext2)) ->
                           i = [] \/ i = output).
  { intros i Hin. rewrite stdins_app in Hin.
    apply in_app_or in Hin as [Hin|Hin]; auto. }
  assert (Hoe : exists oe, o = Done oe)
    by (destruct Hc as [[_ [e ->]]|[_ [oe ->]]]; eauto).
  destruct Hoe as [[e|] ->].
  - unfold print_stderr, emit, os_Exit. cbn [fst snd fs trace].
    split; [congruence|]. split; [now right|].
    eexists (ext1 ++ ext2 ++ [_]).
    rewrite Ht2, Ht1, <- !app_assoc.
    rewrite !written_app, !stdout_of_app, Hw1, Hw2, Ho1, Ho2.
    split; [reflexivity|]. split; [reflexivity|]. split; [reflexivity|].
    split; [|discriminate].
    intros i Hin. rewrite app_assoc, stdins_app in Hin.
    apply in_app_or in Hin as [Hin|[]]. auto.
  - assert (He2 : ext2 = [EvRun (fst (detectClipboardTool w))
                                (snd (detectClipboardTool w)) output]).
    { destruct Hc as [[_ [e He]]|[-> _]]; [discriminate|reflexivity]. }
    unfold when, print_stdout, emit, ret.
    destruct (verbose config); cbn [fst snd fs trace].
    + split; [congruence|]. split; [now left|].
      eexists (ext1 ++ ext2 ++ [_]).
      rewrite Ht2, Ht1, <- !app_assoc.
      rewrite !written_app, Hw1, Hw2.
      split; [reflexivity|]. split; [reflexivity|]. split; [discriminate|].
      split.
      * intros i Hin. rewrite app_assoc, stdins_app in Hin.
        apply in_app_or in Hin as [Hin|[]]. auto.
      * intros _ _. apply in_or_app. right. apply in_or_app. left.
        rewrite He2. now left.
    + split; [congruence|]. split; [now left|].
      exists (ext1 ++ ext2).
      rewrite Ht2, Ht1, <- !app_assoc.
      rewrite !written_app, !stdout_of_app, Hw1, Hw2, Ho1, Ho2.
      split; [reflexivity|]. split; [reflexivity|]. split; [reflexivity|].
      split; [exact Hi12|].
      intros _ _. apply in_or_app. right. rewrite He2. now left.
Qed.

Lemma bind_Exit {A B} (m : M A) (k : A -> M B) (st st1 : State) (c : Z) :
  m st = (Exit c, st1) -> bind m k st = (Exit c, st1).
Proof. unfold bind. now intros ->. Qed.

Lemma pair_eta {A B} (p : A * B) : p = (fst p, snd p).
Proof. now destruct p. Qed.

(** Steps 1 to 6, observed.  Whatever the run writes to the file is the
    Record of the transformed text; when the steps get through, the same
    text went to the clipboard tool. *)
Lemma capture_persist_publish_facts (w : World) (config : Config)
      (args : list gostring) (st : State) :
  let r := capture_persist_publish w config args st in
  let target := targetFile_of config in
  exists ext,
    trace (snd r) = trace st ++ ext
    /\ (forall c, In c (written ext) ->
        noTemp config = false /\ written ext = [c]
        /\ exists captured,
            fst (executeCommand w args (stderr config) st)
              = Done (captured, None)
            /\ c = record_of w args (transform config captured)
            /\ (write_string w target c = None ->
                fs (snd r) target =
                  Some (if append config
                        then content_of (fs st) target ++ c else c)))
    /\ (forall out, fst r = Done out ->
        exists captured,
          fst (executeCommand w args (stderr config) st)
            = Done (captured, None)
          /\ out = transform config captured
          /\ (noTemp config = false ->
              written ext = [record_of w args out]
              /\ fs (snd r) target =
                   Some (if append config
                         then content_of (fs st) target
                                ++ record_of w args out
                         else record_of w args out))
          /\ (noTemp config = true -> written ext = [] /\ fs (snd r) = fs st)
          /\ (noClipboard config = false ->
              In (EvRun (fst (detectClipboardTool w))
                        (snd (detectClipboardTool w)) out) ext)
          /\ (forall i, In i (stdins ext) -> i = [] \/ i = out)
          /\ (verbose config = false -> stdout_of ext = [])).
Proof.
  unfold capture_persist_publish.
  destruct (help config).
  { eexists [_]. split; [reflexivity|]. split; [intros c []|discriminate]. }
  destruct (showVersion config).
  { eexists [_]. split; [reflexivity|]. split; [intros c []|discriminate]. }
  destruct args as [|name rest].
  { eexists [_; _]. split; [cbn; now rewrite <- app_assoc|].
    split; [intros c []|discriminate]. }
  replace (len (name :: rest) =? 0) with false
    by (symmetry; apply Z.eqb_neq; unfold len; simpl length; lia).
  rewrite !(bind_Done _ _ st st tt) by reflexivity.
  pose proof (executeCommand_eq w name rest (stderr config) st) as Hx.
  set (res := match exec_run w (trace st) name rest [] with
              | SpawnFailed e => _ | Ran ws None => _ | Ran ws (Some e) => _
              end) in Hx.
  rewrite (bind_Done _ _ _ _ _ Hx), Hx. clear Hx.
  cbn [fst]. destruct res as [captured [e|]].
  { eexists [_; _]. split; [cbn; now rewrite <- app_assoc|].
    split; [intros c []|discriminate]. }
  rewrite (bind_Done _ _ _ (ran st name rest []) tt) by reflexivity.
  destruct (delayStep_facts config (ran st name rest []))
    as (extd & Hd & Hwd & Hid & Hod).
  rewrite (bind_Done _ _ _ _ _ Hd). cbn [ran fs trace] in *. clear Hd.
  set (st2 := {| fs := fs st; trace := (trace st ++ _) ++ extd |}).
  set (out := transform config captured).
  pose proof (persistStep_facts w config (record_of w (name :: rest) out) st2)
    as (extp & Htp & Hip & Hop & Hrp & Hp).
  pose proof (pair_eta (persistStep w config
                          (record_of w (name :: rest) out) st2)) as Ep.
  set (r3 := persistStep w config (record_of w (name :: rest) out) st2) in *.
  cbn [fs trace st2] in Htp, Hp.
  destruct Hrp as [Hrp|Hrp]; rewrite Hrp in Ep.
  2:{ rewrite (bind_Exit _ _ _ _ _ Ep). cbn [fst snd].
      exists ([EvRun name rest []] ++ extd ++ extp).
      rewrite Htp, <- !app_assoc. split; [reflexivity|].
      split; [|discriminate].
      rewrite !written_app, Hwd. cbn [written app].
      destruct Hp as [(Hw & _)|(Hw & Hnt & Hfs)]; rewrite Hw;
        [intros c []|].
      intros c [<-|[]]. split; [exact Hnt|]. split; [reflexivity|].
      exists captured. split; [reflexivity|]. split; [reflexivity|].
      intros Hws. destruct (Hfs (or_introl Hws)) as (H & _). congruence. }
  rewrite (bind_Done _ _ _ _ _ Ep).
  pose proof (publishStep_facts w config out (snd r3))
    as (Hfs4 & Hr4 & extc & Htc & Hwc & Hoc & Hic & Hinc).
  pose proof (pair_eta (publishStep w config out (snd r3))) as Ec.
  set (r4 := publishStep w config out (snd r3)) in *.
  exists ([EvRun name rest []] ++ extd ++ extp ++ extc).
  assert (Htr : trace (snd r4) =
                trace st ++ [EvRun name rest []] ++ extd ++ extp ++ extc)
    by (rewrite Htc, Htp; now rewrite <- !app_assoc).
  assert (Hwr : written ([EvRun name rest []] ++ extd ++ extp ++ extc)
                = written extp)
    by (rewrite !written_app, Hwd, Hwc; cbn; now rewrite app_nil_r).
  assert (Hfsr : fs (snd r4) = fs (snd r3)) by exact Hfs4.
  assert (HA : forall c, In c (written extp) ->
     noTemp config = false /\ written extp = [c]
     /\ exists captured0,
         Done (captured, @None error) = Done (captured0, None)
         /\ c = record_of w (name :: rest) (transform config captured0)
         /\ (write_string w (targetFile_of config) c = None ->
             fs (snd r3) (targetFile_of config) =
               Some (if append config
                     then content_of (fs st) (targetFile_of config) ++ c
                     else c))).
  { intros c Hin.
    destruct Hp as [(Hw & _)|(Hw & Hnt & Hfs)]; rewrite Hw in *;
      [destruct Hin|].
    destruct Hin as [<-|[]]. split; [exact Hnt|]. split; [reflexivity|].
    exists captured. split; [reflexivity|]. split; [reflexivity|].
    intros Hws. now destruct (Hfs (or_introl Hws)) as (_ & H & _). }
  destruct Hr4 as [Hr4|Hr4]; rewrite Hr4 in Ec;
    [rewrite (bind_Done _ _ _ _ _ Ec)|rewrite (bind_Exit _ _ _ _ _ Ec)];
    cbn [ret fst snd]; rewrite Htr, Hwr, Hfsr;
    (split; [reflexivity|]); (split; [exact HA|]); [|discriminate].
  intros o Ho. injection Ho as <-.
  exists captured. split; [reflexivity|]. split; [reflexivity|].
  split; [|split; [|split; [|split]]].
  - intros Hnt. destruct Hp as [(_ & _ & Hx)|(Hw & _ & Hfs)].
    + specialize (Hx Hnt). congruence.
    + split; [exact Hw|]. now destruct (Hfs (or_intror Hrp)) as (_ & H & _).
  - intros Hnt. destruct Hp as [(Hw & Hfs & _)|(_ & Hx & _)];
      [auto|congruence].
  - intros Hnc. apply in_or_app. right. apply in_or_app. right.
    apply in_or_app. right. auto.
  - intros i Hin. rewrite !stdins_app, Hid, Hip in Hin. cbn in Hin.
    destruct Hin as [<-|Hin]; auto.
  - intros Hv. rewrite !stdout_of_app, Hod, Hop, Hoc by assumption.
    reflexivity.
Qed.

(** ** Orchestrator: terminal output *)

Lemma HasSuffix_newline (s : gostring) : HasSuffix (s ++ [nl]) [nl] = true.
Proof.
  unfold HasSuffix. rewrite length_app. cbn [length].
  replace (length s + 1 - 1)%nat with (length s) by lia.
  rewrite skipn_app, skipn_all, Nat.sub_diag.
  replace (1 <=? length s + 1)%nat with true
    by (symmetry; apply Nat.leb_le; lia).
  reflexivity.
Qed.

(** The flag [-q] given without a value makes the run fully quiet. *)
Lemma quietFlag_Set_no_value (Sscanf_d : gostring -> Z + error)
      (config : Config) :
  fullyQuiet (fst (quietFlag_Set Sscanf_d config (go "true"))) = true
  /\ snd (quietFlag_Set Sscanf_d config (go "true")) = None.
Proof. split; reflexivity. Qed.

(** The display limit keeps the first lines: a limit that reaches the
    number of lines keeps the text as it is. *)
Lemma limitLines_first_n (output : gostring) (maxLines : Z) :
  0 < maxLines ->
  limitLines output maxLines = Join (first_n maxLines (Split output nl)) [nl].
Proof.
  intros H. unfold limitLines, first_n.
  replace (maxLines <=? 0) with false by decide_Z.
  destruct (len (Split output nl) <=? maxLines) eqn:E; [|reflexivity].
  apply Z.leb_le in E. unfold len in E.
  rewrite firstn_all2 by lia. now rewrite Join_Split.
Qed.

(** C2, as the code has it.  For every run that gets through steps 1 to 6
    with the transformed text [output]: [main] returns, so the exit status
    is 0, and its last block adds to standard output
    - nothing, when fully quiet (quiet set, no line count);
    - otherwise the text to display, which is the first [quietLines] lines
      of [output] when a positive count was given and [output] itself when
      not, followed by a newline exactly when that text is not empty and
      lacks a trailing one; for an empty text nothing is printed.
    Without verbose mode nothing else reaches standard output. *)
Theorem terminal_output_decision
        (w : World) (config : Config) (args : list gostring)
        (st st1 : State) (output : gostring) :
  capture_persist_publish w config args st = (Done output, st1) ->
  exists captured ext,
    fst (executeCommand w args (stderr config) st) = Done (captured, None)
    /\ output = transform config captured
    /\ main w config args st =
         (Done tt, {| fs := fs st1; trace := trace st1 ++ ext |})
    /\ exit_code (fst (main w config args st)) = 0
    /\ (fullyQuiet config = true -> stdout_of ext = [])
    /\ (fullyQuiet config = false ->
        let p := if 0 <? quietLines config
                 then Join (first_n (quietLines config) (Split output nl)) [nl]
                 else output in
        stdout_of ext =
          match p with
          | [] => []
          | _ => p ++ (if HasSuffix p [nl] then [] else [nl])
          end)
    /\ (verbose config = false ->
        stdout_of (trace st1 ++ ext) = stdout_of (trace st) ++ stdout_of ext).
Proof.
  intros Hpre.
  destruct (capture_persist_publish_facts w config args st)
    as (ext0 & Ht0 & _ & HB). rewrite Hpre in *. cbn [fst snd] in *.
  destruct (HB output eq_refl) as (captured & Hx & Hout & _ & _ & _ & _ & Hv).
  destruct (echoStep_facts config output st1) as (ext & He & Ho & _).
  assert (Hm : main w config args st =
               (Done tt, {| fs := fs st1; trace := trace st1 ++ ext |})).
  { rewrite main_split. rewrite (bind_Done _ _ _ _ _ Hpre). exact He. }
  exists captured, ext.
  split; [exact Hx|]. split; [exact Hout|]. split; [exact Hm|].
  split; [now rewrite Hm|]. split; [|split].
  - intros Hq. rewrite Ho. unfold echo_text. now rewrite Hq.
  - intros Hq. rewrite Ho. unfold echo_text, printed. rewrite Hq.
    destruct (0 <? quietLines config) eqn:El; [|reflexivity].
    apply Z.ltb_lt in El. now rewrite limitLines_first_n.
  - intros Hvf. rewrite stdout_of_app, Ht0, stdout_of_app, (Hv Hvf).
    now rewrite app_nil_r.
Qed.

Lemma terminal_output_decision_witness :
  exit_code (fst (main (sample_world hello_child) default_config
                       [go "echo"; go "hello"] (init fs_empty))) = 0
  /\ exists ext,
      main (sample_world hello_child) default_config
           [go "echo"; go "hello"] (init fs_empty)
      = (Done tt,
         {| fs := fs (snd (capture_persist_publish
                             (sample_world hello_child) default_config
                             [go "echo"; go "hello"] (init fs_empty)));
            trace := trace (snd (capture_persist_publish
                                   (sample_world hello_child) default_config
                                   [go "echo"; go "hello"] (init fs_empty)))
                       ++ ext |})
      /\ stdout_of ext = go "hello" ++ [nl].
Proof.
  destruct (terminal_output_decision
              (sample_world hello_child) default_config
              [go "echo"; go "hello"] (init fs_empty)
              (snd (capture_persist_publish (sample_world hello_child)
                      default_config [go "echo"; go "hello"]
                      (init fs_empty)))
              (go "hello" ++ [nl]) eq_refl)
    as (captured & ext & _ & _ & Hm & Hx & _ & Hp & _).
  split; [exact Hx|]. exists ext. split; [exact Hm|].
  exact (Hp eq_refl).
Defined.

(** C2, as stated, fails on an empty text: it lacks a trailing newline, yet
    no newline is printed.  Here the command prints nothing, the run is not
    quiet, and standard output stays empty. *)
Lemma empty_text_prints_no_newline :
  fullyQuiet default_config = false
  /\ printed default_config (transform default_config []) = []
  /\ HasSuffix (printed default_config (transform default_config [])) [nl]
     = false
  /\ exit_code (fst (main (sample_world silent_child) default_config
                          [go "true"] (init fs_empty))) = 0
  /\ stdout_of (trace (snd (main (sample_world silent_child) default_config
                              [go "true"] (init fs_empty)))) = []
  /\ stdout_of (trace (snd (main (sample_world silent_child) default_config
                              [go "true"] (init fs_empty))))
     <> printed default_config (transform default_config []) ++ [nl].
Proof. repeat split; vm_compute; congruence. Qed.

(** ** Orchestrator: what is persisted and published *)

(** C5. Display limiting is print-only.  Take any run and the same run
    under any other quiet settings (flag and line count): the exit, the
    files and every event other than what is printed on standard output are
    the same, and so is the transform chain.  The bytes the run writes to
    the file are the header, then the transformed text (the output of the
    strip, trim and head/tail chain on the captured text), then one
    newline; when the run gets to its end, that same transformed text,
    whole, is what the clipboard tool received on standard input. *)
Theorem display_limit_is_print_only
        (w : World) (config : Config) (args : list gostring) (st : State)
        (q : bool) (lines : Z) :
  let run := main w config args st in
  let run' := main w (set_quiet config q lines) args st in
  fst run' = fst run
  /\ fs (snd run') = fs (snd run)
  /\ silent (trace (snd run')) = silent (trace (snd run))
  /\ (forall captured,
         transform (set_quiet config q lines) captured
         = transform config captured)
  /\ exists ext,
      trace (snd run) = trace st ++ ext
      /\ (forall c, In c (written ext) ->
          exists captured,
            fst (executeCommand w args (stderr config) st)
              = Done (captured, None)
            /\ c = header_of (now w) (Join args (go " "))
                     ++ transform config captured ++ [nl])
      /\ (fst run = Done tt ->
          exists captured,
            fst (executeCommand w args (stderr config) st)
              = Done (captured, None)
            /\ (noTemp config = false ->
                written ext =
                  [header_of (now w) (Join args (go " "))
                     ++ transform config captured ++ [nl]])
            /\ (noClipboard config = false ->
                In (EvRun (fst (detectClipboardTool w))
                          (snd (detectClipboardTool w))
                          (transform config captured)) ext)
            /\ (forall i, In i (stdins ext) ->
                          i = [] \/ i = transform config captured)).
Proof.
  intros run run'. subst run run'.
  rewrite !main_split, capture_persist_publish_quiet.
  destruct (capture_persist_publish_facts w config args st)
    as (ext0 & Ht0 & HA & HB).
  assert (HA' : forall c, In c (written ext0) ->
            exists captured,
              fst (executeCommand w args (stderr config) st)
                = Done (captured, None)
              /\ c = header_of (now w) (Join args (go " "))
                       ++ transform config captured ++ [nl]).
  { intros c Hin. destruct (HA c Hin) as (_ & _ & cap & Hx & Hc & _).
    exists cap. split; [exact Hx|exact Hc]. }
  destruct (capture_persist_publish w config args st) as [[out| |] st1] eqn:Ep;
    cbn [fst snd] in *.
  - rewrite !(bind_Done _ _ _ _ _ Ep).
    destruct (echoStep_facts config out st1)
      as (ext & -> & _ & Hs & Hw & Hi).
    destruct (echoStep_facts (set_quiet config q lines) out st1)
      as (ext' & -> & _ & Hs' & _ & _).
    cbn [fst snd fs trace].
    rewrite !silent_app, Hs, Hs'.
    do 4 (split; [reflexivity|]).
    exists (ext0 ++ ext). rewrite Ht0, <- app_assoc, written_app, Hw,
      stdins_app, Hi, !app_nil_r.
    split; [reflexivity|]. split; [exact HA'|].
    intros _. destruct (HB out eq_refl)
      as (cap & Hx & -> & Hnt & _ & Hnc & Hin & _).
    exists cap. split; [exact Hx|]. split; [|split].
    + intros H. destruct (Hnt H) as [Hwr _]. exact Hwr.
    + intros H. apply in_or_app. left. auto.
    + exact Hin.
  - rewrite !(bind_Exit _ _ _ _ _ Ep). cbn [fst snd].
    do 4 (split; [reflexivity|]).
    exists ext0. split; [exact Ht0|]. split; [exact HA'|discriminate].
  - unfold bind. rewrite Ep. cbn [fst snd].
    do 4 (split; [reflexivity|]).
    exists ext0. split; [exact Ht0|]. split; [exact HA'|discriminate].
Qed.

Lemma display_limit_is_print_only_witness :
  fs (snd (main (sample_world lines_child) (set_quiet default_config true 1)
             [go "seq"; go "3"] (init fs_empty)))
  = fs (snd (main (sample_world lines_child) default_config
               [go "seq"; go "3"] (init fs_empty)))
  /\ exists ext,
      trace (snd (main (sample_world lines_child) default_config
                    [go "seq"; go "3"] (init fs_empty))) = [] ++ ext
      /\ exists captured,
          fst (executeCommand (sample_world lines_child) [go "seq"; go "3"]
                 false (init fs_empty)) = Done (captured, None)
          /\ written ext =
               [header_of (go "2025-11-17 19:41:29") (go "seq 3")
                  ++ transform default_config captured ++ [nl]]
          /\ In (EvRun (go "wl-copy") []
                       (transform default_config captured)) ext.
Proof.
  destruct (display_limit_is_print_only
              (sample_world lines_child) default_config [go "seq"; go "3"]
              (init fs_empty) true 1)
    as (_ & Hfs & _ & _ & ext & Ht & _ & Hdone).
  split; [exact Hfs|]. exists ext. split; [exact Ht|].
  destruct (Hdone eq_refl) as (captured & Hx & Hw & Hc & _).
  exists captured. split; [exact Hx|]. split.
  - exact (Hw eq_refl).
  - exact (Hc eq_refl).
Defined.

(** ** Orchestrator: the Record ends with a newline *)

Lemma record_of_shape (w : World) (args : list gostring) (t : gostring) :
  record_of w args t = header_of (now w) (Join args (go " ")) ++ t ++ [nl]
  /\ HasSuffix (record_of w args t) [nl] = true.
Proof.
  unfold record_of. split; [reflexivity|].
  rewrite app_assoc. apply HasSuffix_newline.
Qed.

(** What one run writes, whether or not it gets to its end. *)
Lemma main_written (w : World) (config : Config) (args : list gostring)
      (st : State) :
  let run := main w config args st in
  let target := targetFile_of config in
  exists ext,
    trace (snd run) = trace st ++ ext
    /\ forall c, In c (written ext) ->
        written ext = [c]
        /\ (exists captured,
               fst (executeCommand w args (stderr config) st)
                 = Done (captured, None)
               /\ c = header_of (now w) (Join args (go " "))
                        ++ transform config captured ++ [nl])
        /\ HasSuffix c [nl] = true
        /\ (write_string w target c = None ->
            fs (snd run) target =
              Some (if append config
                    then content_of (fs st) target ++ c else c)).
Proof.
  intros run target. subst run target. rewrite main_split.
  destruct (capture_persist_publish_facts w config args st)
    as (ext0 & Ht0 & HA & _).
  assert (HA' : forall c, In c (written ext0) ->
            written ext0 = [c]
            /\ (exists captured,
                   fst (executeCommand w args (stderr config) st)
                     = Done (captured, None)
                   /\ c = header_of (now w) (Join args (go " "))
                            ++ transform config captured ++ [nl])
            /\ HasSuffix c [nl] = true
            /\ (write_string w (targetFile_of config) c = None ->
                fs (snd (capture_persist_publish w config args st))
                   (targetFile_of config) =
                  Some (if append config
                        then content_of (fs st) (targetFile_of config) ++ c
                        else c))).
  { intros c Hin. destruct (HA c Hin) as (_ & H1 & cap & Hx & -> & Hfs).
    destruct (record_of_shape w args (transform config cap)) as [Hr Hs].
    split; [exact H1|]. split; [exists cap; split; [exact Hx|exact Hr]|].
    split; [exact Hs|exact Hfs]. }
  destruct (capture_persist_publish w config args st) as [[out| |] st1] eqn:Ep;
    cbn [fst snd] in *.
  - rewrite (bind_Done _ _ _ _ _ Ep).
    destruct (echoStep_facts config out st1) as (ext & -> & _ & _ & Hw & _).
    cbn [fst snd fs trace].
    exists (ext0 ++ ext). rewrite Ht0, <- app_assoc, written_app, Hw,
      app_nil_r.
    split; [reflexivity|exact HA'].
  - rewrite (bind_Exit _ _ _ _ _ Ep). cbn [fst snd].
    exists ext0. split; [exact Ht0|exact HA'].
  - unfold bind. rewrite Ep. cbn [fst snd].
    exists ext0. split; [exact Ht0|exact HA'].
Qed.

(** C10. Every Record the program persists ends with a newline: what one
    run hands to the write is exactly the header, then the transformed text
    of that run (the strip, trim and head/tail chain on the text the
    executor captured), then one newline, written once; when the write does
    not fail the file then holds it, after the earlier content in append
    mode.  So of two runs on the same file, the second in append mode, the
    file ends up holding the first Record, newline last, immediately
    followed by the second Record: the second header begins a fresh
    line. *)
Theorem record_ends_with_newline :
  (forall (w : World) (config : Config) (args : list gostring) (st : State),
      let run := main w config args st in
      let target := targetFile_of config in
      exists ext,
        trace (snd run) = trace st ++ ext
        /\ forall c, In c (written ext) ->
            written ext = [c]
            /\ (exists captured,
                   fst (executeCommand w args (stderr config) st)
                     = Done (captured, None)
                   /\ c = header_of (now w) (Join args (go " "))
                            ++ transform config captured ++ [nl])
            /\ HasSuffix c [nl] = true
            /\ (write_string w target c = None ->
                fs (snd run) target =
                  Some (if append config
                        then content_of (fs st) target ++ c else c)))
  /\ (forall (w1 w2 : World) (config1 config2 : Config)
             (args1 args2 : list gostring) (files : FS) (c1 c2 : gostring),
         let run1 := main w1 config1 args1 (init files) in
         let run2 := main w2 config2 args2 (init (fs (snd run1))) in
         let target := targetFile_of config1 in
         targetFile_of config2 = target ->
         append config2 = true ->
         In c1 (written (trace (snd run1))) ->
         write_string w1 target c1 = None ->
         In c2 (written (trace (snd run2))) ->
         write_string w2 target c2 = None ->
         exists captured1 captured2,
           fst (executeCommand w1 args1 (stderr config1) (init files))
             = Done (captured1, None)
           /\ fst (executeCommand w2 args2 (stderr config2)
                     (init (fs (snd run1))))
              = Done (captured2, None)
           /\ c1 = header_of (now w1) (Join args1 (go " "))
                     ++ transform config1 captured1 ++ [nl]
           /\ c2 = header_of (now w2) (Join args2 (go " "))
                     ++ transform config2 captured2 ++ [nl]
           /\ fs (snd run2) target =
                Some ((if append config1 then content_of files target
                       else [])
                      ++ header_of (now w1) (Join args1 (go " "))
                      ++ transform config1 captured1 ++ [nl]
                      ++ header_of (now w2) (Join args2 (go " "))
                      ++ transform config2 captured2 ++ [nl])).
Proof.
  split; [exact main_written|].
  intros w1 w2 config1 config2 args1 args2 files c1 c2 run1 run2 target
         Htgt Happ Hin1 Hw1 Hin2 Hw2.
  destruct (main_written w1 config1 args1 (init files)) as (ext1 & Ht1 & H1).
  destruct (main_written w2 config2 args2 (init (fs (snd run1))))
    as (ext2 & Ht2 & H2).
  fold run1 in Ht1, H1. fold run2 in Ht2, H2. cbn [init trace app] in Ht1, Ht2.
  rewrite Ht1 in Hin1. rewrite Ht2 in Hin2.
  destruct (H1 c1 Hin1) as (_ & (cap1 & Hx1 & E1) & _ & Hfs1).
  destruct (H2 c2 Hin2) as (_ & (cap2 & Hx2 & E2) & _ & Hfs2).
  fold target in Hfs1. rewrite Htgt in Hfs2.
  specialize (Hfs1 Hw1). specialize (Hfs2 Hw2).
  rewrite Happ in Hfs2. cbn [init fs] in Hfs1, Hfs2.
  unfold content_of in Hfs2 at 1. rewrite Hfs1 in Hfs2.
  exists cap1, cap2.
  split; [exact Hx1|]. split; [exact Hx2|].
  split; [exact E1|]. split; [exact E2|].
  rewrite Hfs2, E1, E2. f_equal.
  destruct (append config1); rewrite <- ?app_assoc; reflexivity.
Qed.

Lemma record_ends_with_newline_witness :
  exists captured1 captured2,
    fst (executeCommand (sample_world lines_child) [go "seq"; go "3"] false
           (init fs_empty)) = Done (captured1, None)
    /\ fst (executeCommand (sample_world hello_child) [go "echo"; go "hello"]
              false
              (init (fs (snd (main (sample_world lines_child) default_config
                                [go "seq"; go "3"] (init fs_empty))))))
       = Done (captured2, None)
    /\ fs (snd (main (sample_world hello_child) append_config
                  [go "echo"; go "hello"]
                  (init (fs (snd (main (sample_world lines_child)
                                    default_config
                                    [go "seq"; go "3"] (init fs_empty)))))))
          (go "/tmp/cb.txt")
       = Some ([] ++ header_of (go "2025-11-17 19:41:29") (go "seq 3")
                 ++ transform default_config captured1 ++ [nl]
                 ++ header_of (go "2025-11-17 19:41:29") (go "echo hello")
                 ++ transform append_config captured2 ++ [nl]).
Proof.
  destruct record_ends_with_newline as [_ H].
  destruct (H (sample_world lines_child) (sample_world hello_child)
              default_config append_config [go "seq"; go "3"]
              [go "echo"; go "hello"] fs_empty
              (record_of (sample_world lines_child) [go "seq"; go "3"]
                         (go "1" ++ [nl] ++ go "2" ++ [nl] ++ go "3" ++ [nl]))
              (record_of (sample_world hello_child) [go "echo"; go "hello"]
                         (go "hello" ++ [nl]))
              eq_refl eq_refl (or_introl eq_refl) eq_refl
              (or_introl eq_refl) eq_refl)
    as (captured1 & captured2 & Hx1 & Hx2 & _ & _ & Hfs).
  exists captured1, captured2.
  split; [exact Hx1|]. split; [exact Hx2|exact Hfs].
Defined.

(** ** Trim: UTF-8 decoding *)

Lemma RuneStart_spec (c : byte) :
  RuneStart c = (bval c <? 0x80) || (0xBF <? bval c).
Proof. destruct c; reflexivity. Qed.

Lemma first_ASCII (c : byte) : bval c < 0x80 -> first c = ASCII.
Proof.
  intros H. unfold first.
  now replace (bval c <? 0x80) with true by decide_Z.
Qed.

Lemma first_not_ASCII (c : byte) : 0x80 <= bval c -> first c <> ASCII.
Proof.
  intros H. unfold first.
  replace (bval c <? 0x80) with false by decide_Z.
  repeat match goal with
         | |- context [if ?b then _ else _] => destruct b
         end; discriminate.
Qed.

Lemma first_LEAD (c : byte) (sz : nat) (lo hi : Z) :
  first c = LEAD sz lo hi ->
  (sz = 2 \/ sz = 3 \/ sz = 4)%nat /\ 0x80 <= lo /\ hi <= 0xBF
  /\ 0xC2 <= bval c.
Proof.
  unfold first.
  destruct (bval c <? 0x80) eqn:E1; [discriminate|].
  destruct (bval c <? 0xC2) eqn:E2; [discriminate|].
  apply Z.ltb_ge in E2.
  repeat match goal with
         | |- context [if ?b then _ else _] => destruct b
         end; intros H; inversion H; subst; lia.
Qed.

Lemma first_ASCII_inv (c : byte) : first c = ASCII -> bval c < 0x80.
Proof.
  intros H. destruct (Z.lt_ge_cases (bval c) 0x80) as [|G]; [assumption|].
  now apply first_not_ASCII in G.
Qed.

Lemma first_INVALID_inv (c : byte) : first c = INVALID -> 0x80 <= bval c.
Proof.
  intros H. destruct (Z.lt_ge_cases (bval c) 0x80) as [G|]; [|assumption].
  apply first_ASCII in G. congruence.
Qed.

(** The four ways [DecodeRuneInString] can end: the empty string; an ASCII
    byte; a byte that starts no valid encoding here (width 1, RuneError); a
    valid encoding of two to four bytes, which is read from those bytes
    alone. *)
Lemma Decode_cases (s : gostring) :
  (s = [] /\ DecodeRuneInString s = (RuneError, 0%nat))
  \/ (exists c t, s = c :: t /\ bval c < 0x80
                  /\ DecodeRuneInString s = (bval c, 1%nat))
  \/ (exists c t, s = c :: t /\ 0x80 <= bval c
                  /\ DecodeRuneInString s = (RuneError, 1%nat))
  \/ (exists c t r w, s = c :: t /\ 0xC2 <= bval c
                  /\ DecodeRuneInString s = (r, w)
                  /\ (2 <= w <= length s)%nat
                  /\ forall q, DecodeRuneInString (firstn w s ++ q) = (r, w)).
Proof.
  destruct s as [|s0 t]; [left; auto|]. right.
  destruct (first s0) as [| |sz lo hi] eqn:F.
  - left. exists s0, t. split; [reflexivity|].
    split; [now apply first_ASCII_inv|].
    unfold DecodeRuneInString. now rewrite F.
  - right. left. exists s0, t. split; [reflexivity|].
    split; [now apply first_INVALID_inv|].
    unfold DecodeRuneInString. now rewrite F.
  - right. destruct (first_LEAD _ _ _ _ F) as (Hsz & Hlo & Hhi & Hc).
    assert (Hc' : 0x80 <= bval s0) by lia.
    destruct (DecodeRuneInString (s0 :: t)) as [r w] eqn:E.
    assert (Herr : (r, w) = (RuneError, 1%nat) ->
                   exists c t0, s0 :: t = c :: t0 /\ 0x80 <= bval c
                                /\ (r, w) = (RuneError, 1%nat))
      by (intros H; exists s0, t; auto).
    unfold DecodeRuneInString in E. rewrite F in E.
    destruct t as [|s1 t1].
    { left. apply Herr. destruct (_ <? _)%nat in E; congruence. }
    destruct (outside lo hi s1) eqn:O1.
    { left. apply Herr. destruct (_ <? _)%nat in E; congruence. }
    destruct Hsz as [->|[->| ->]].
    + cbn in E. right. exists s0, (s1 :: t1), r, w.
      injection E as <- <-. cbn [length firstn app].
      repeat split; try lia.
      intros q. unfold DecodeRuneInString. rewrite F, O1. reflexivity.
    + destruct t1 as [|s2 t2]; [left; apply Herr; cbn in E; congruence|].
      cbn in E. destruct (outside 0x80 0xBF s2) eqn:O2;
        [left; apply Herr; congruence|].
      right. exists s0, (s1 :: s2 :: t2), r, w.
      injection E as <- <-. cbn [length firstn app].
      repeat split; try lia.
      intros q. unfold DecodeRuneInString. rewrite F, O1, O2. reflexivity.
    + destruct t1 as [|s2 t2]; [left; apply Herr; cbn in E; congruence|].
      destruct t2 as [|s3 t3].
      { left; apply Herr; cbn in E; congruence. }
      cbn in E. destruct (outside 0x80 0xBF s2) eqn:O2;
        [left; apply Herr; congruence|].
      destruct (outside 0x80 0xBF s3) eqn:O3;
        [left; apply Herr; congruence|].
      right. exists s0, (s1 :: s2 :: s3 :: t3), r, w.
      injection E as <- <-. cbn [length firstn app].
      repeat split; try lia.
      intros q. unfold DecodeRuneInString. rewrite F, O1, O2, O3.
      reflexivity.
Qed.

(** A byte at or above 0x80 that is followed by nothing, or by a byte that
    starts a rune, decodes as an error of width 1. *)
Lemma Decode_lone (b : byte) (q : gostring) :
  0x80 <= bval b ->
  (q = [] \/ exists c q', q = c :: q' /\ RuneStart c = true) ->
  DecodeRuneInString (b :: q) = (RuneError, 1%nat).
Proof.
  intros Hb Hq. unfold DecodeRuneInString.
  destruct (first b) as [| |sz lo hi] eqn:F.
  - now apply first_not_ASCII in Hb.
  - reflexivity.
  - destruct (first_LEAD _ _ _ _ F) as (_ & Hlo & Hhi & _).
    destruct (_ <? _)%nat; [reflexivity|].
    destruct Hq as [->|(c & q' & -> & Hc)]; [reflexivity|].
    rewrite RuneStart_spec in Hc.
    assert (O : outside lo hi c = true).
    { unfold outside. apply orb_true_iff in Hc as [Hc|Hc];
        [apply Z.ltb_lt in Hc|apply Z.ltb_lt in Hc]; apply orb_true_iff;
        [left|right]; apply Z.ltb_lt; lia. }
    now rewrite O.
Qed.

Lemma IsSpace_RuneError : IsSpace RuneError = false.
Proof. reflexivity. Qed.

(** On ASCII the table [asciiSpace] and [unicode.IsSpace] agree. *)
Lemma IsSpace_ascii (c : byte) :
  bval c < 0x80 -> IsSpace (bval c) = asciiSpace c.
Proof.
  intros H. unfold IsSpace, asciiSpace.
  replace (bval c <=? 0xFF) with true by decide_Z.
  replace (bval c =? 0x85) with false by decide_Z.
  replace (bval c =? 0xA0) with false by decide_Z.
  now rewrite !orb_false_r.
Qed.

Lemma RuneStart_ascii (c : byte) : bval c < 0x80 -> RuneStart c = true.
Proof.
  intros H. rewrite RuneStart_spec. apply orb_true_iff. left.
  now apply Z.ltb_lt.
Qed.

Lemma RuneStart_lead (c : byte) : 0xC2 <= bval c -> RuneStart c = true.
Proof.
  intros H. rewrite RuneStart_spec. apply orb_true_iff. right.
  apply Z.ltb_lt. lia.
Qed.

(** A white-space rune at the head of a prefix is at the head of the whole
    text. *)
Lemma leadSpace_prefix (e : nat) (u : gostring) :
  leadSpace (firstn e u) = true -> leadSpace u = true.
Proof.
  unfold leadSpace. intros H.
  destruct (Decode_cases (firstn e u))
    as [[_ E]|[(c & t & Hs & Hc & E)|[(c & t & Hs & _ & E)
                                     |(c & t & r & w & Hs & _ & E & Hw & Hq)]]];
    rewrite E in H; cbn [fst] in H; try discriminate H.
  - destruct u as [|c' u']; [now destruct e|].
    destruct e; [discriminate|]. cbn in Hs. injection Hs as -> _.
    unfold DecodeRuneInString. now rewrite (first_ASCII c Hc).
  - specialize (Hq (skipn w (firstn e u) ++ skipn e u)).
    rewrite app_assoc, firstn_skipn, firstn_skipn in Hq. now rewrite Hq.
Qed.

Lemma scanBack_le (k : nat) (s : gostring) (start lim : Z) :
  scanBack k s start lim <= start.
Proof.
  revert start. induction k as [|k IH]; intros start; simpl; [lia|].
  destruct (start <? lim); [lia|].
  destruct (RuneStart _); [lia|].
  specialize (IH (start - 1)). lia.
Qed.

Lemma slice_to_end (s : gostring) (a : Z) :
  0 <= a -> slice s a (len s) = skipn (Z.to_nat a) s.
Proof.
  intros H. unfold slice, len. rewrite Nat2Z.id.
  apply firstn_all2. rewrite length_skipn. lia.
Qed.

Lemma slice_from_start (s : gostring) (b : Z) :
  slice s 0 b = firstn (Z.to_nat b) s.
Proof. unfold slice. cbn [Z.to_nat skipn]. now rewrite Nat.sub_0_r. Qed.

(** The four ways [DecodeLastRuneInString] can end: the empty string; a
    last byte that is ASCII; a last byte that ends no valid encoding
    (width 1, RuneError); a valid encoding of two to four bytes that ends
    the string. *)
Lemma DecodeLast_cases (p : gostring) :
  (p = [] /\ DecodeLastRuneInString p = (RuneError, 0%nat))
  \/ (exists pre c, p = pre ++ [c] /\ bval c < 0x80
                    /\ DecodeLastRuneInString p = (bval c, 1%nat))
  \/ (exists pre c, p = pre ++ [c] /\ 0x80 <= bval c
                    /\ DecodeLastRuneInString p = (RuneError, 1%nat))
  \/ (exists pre enc r,
         p = pre ++ enc /\ (2 <= length enc)%nat
         /\ DecodeLastRuneInString p = (r, length enc)
         /\ 0xC2 <= bval (hd x00 enc)
         /\ forall q, DecodeRuneInString (enc ++ q) = (r, length enc)).
Proof.
  induction p as [|c pre _] using rev_ind.
  - left. auto.
  - right.
    assert (Hlen : len (pre ++ [c]) = Z.of_nat (length pre) + 1)
      by (unfold len; rewrite length_app; cbn [length]; lia).
    assert (Hat : at_ (pre ++ [c]) (len (pre ++ [c]) - 1) = c).
    { unfold at_. rewrite Hlen.
      replace (Z.to_nat (Z.of_nat (length pre) + 1 - 1)) with (length pre)
        by lia.
      now rewrite nth_middle. }
    unfold DecodeLastRuneInString.
    replace (len (pre ++ [c]) =? 0) with false
      by decide_Z.
    rewrite Hat. unfold RuneSelf.
    destruct (bval c <? 0x80) eqn:Ec.
    { apply Z.ltb_lt in Ec. left. exists pre, c. auto. }
    apply Z.ltb_ge in Ec. right.
    set (p := pre ++ [c]) in *.
    set (start := Z.max 0 (scanBack 3 p (len p - 1 - 1)
                                    (Z.max 0 (len p - UTFMax)))).
    assert (Hstart : 0 <= start <= len p - 1).
    { subst start.
      pose proof (scanBack_le 3 p (len p - 1 - 1) (Z.max 0 (len p - UTFMax))).
      lia. }
    rewrite (slice_to_end p start) by lia.
    set (n := Z.to_nat start).
    assert (Hn : (n <= length pre)%nat) by (subst n; lia).
    assert (Hp : p = firstn n pre ++ (skipn n pre ++ [c])).
    { subst p. now rewrite app_assoc, firstn_skipn. }
    assert (Henc : skipn n p = skipn n pre ++ [c]).
    { subst p. rewrite skipn_app.
      replace (n - length pre)%nat with 0%nat by lia. reflexivity. }
    rewrite Henc.
    set (enc := skipn n pre ++ [c]) in *.
    assert (Hel : length enc = (length pre - n + 1)%nat)
      by (subst enc; rewrite length_app, length_skipn; cbn [length]; lia).
    destruct (DecodeRuneInString enc) as [r size] eqn:E.
    destruct (start + Z.of_nat size =? len p) eqn:Ecnd;
      [|left; exists pre, c; auto].
    apply Z.eqb_eq in Ecnd.
    assert (Hsize : size = length enc) by lia.
    destruct (Decode_cases enc)
      as [[He _]|[(c' & t & He & Hc' & _)
                 |[(c' & t & He & Hc' & E')
                  |(c' & t & r' & w & He & Hc' & E' & Hw & Hq)]]].
    + rewrite He in Hel. cbn in Hel. lia.
    + (* ASCII at the head: then the encoding is the last byte alone *)
      rewrite He in E. unfold DecodeRuneInString in E.
      rewrite (first_ASCII c' Hc') in E. injection E as <- <-.
      rewrite He in Hsize. cbn [length] in Hsize.
      destruct t; [|discriminate].
      assert (skipn n pre = []) by (destruct (skipn n pre) as [|? [|? ?]];
                                    [reflexivity|discriminate He..]).
      subst enc. rewrite H in He. cbn in He. injection He as ->. lia.
    + rewrite E in E'. injection E' as -> ->. left. exists pre, c. auto.
    + rewrite E in E'. injection E' as <- <-. right.
      exists (firstn n pre), enc, r.
      split; [exact Hp|]. split; [lia|].
      split; [now rewrite Hsize|].
      split; [now rewrite He|].
      intros q. specialize (Hq q).
      rewrite Hsize, firstn_all in Hq. exact Hq.
Qed.

(** ** Trim: the right end *)

(** The end position [TrimRightFunc] computes from the start of the last
    rune it keeps: the forward width at that start is the backward width,
    when what follows (if anything) starts a rune. *)
Lemma adjust_end (p q : gostring) (r : Z) (size : nat) :
  p <> [] ->
  (q = [] \/ exists c q', q = c :: q' /\ RuneStart c = true) ->
  DecodeLastRuneInString p = (r, size) ->
  let s := p ++ q in
  let j := len p - Z.of_nat size in
  (if (0 <=? j) && (RuneSelf <=? bval (at_ s j))
   then j + Z.of_nat (snd (DecodeRuneInString (slice s j (len s))))
   else j + 1) = len p.
Proof.
  intros Hp Hq E s j. subst s j. unfold RuneSelf, at_.
  destruct (DecodeLast_cases p)
    as [[He _]|[(pre & c & He & Hc & E')
               |[(pre & c & He & Hc & E')
                |(pre & enc & r' & He & Hl & E' & Hc & Hd)]]];
    [contradiction| | |]; rewrite E in E'; injection E' as -> ->; subst p;
    unfold len; rewrite length_app.
  - cbn [length].
    replace (Z.of_nat (length pre + 1) - Z.of_nat 1)
      with (Z.of_nat (length pre)) by lia.
    rewrite Nat2Z.id, <- app_assoc. change ([c] ++ q) with (c :: q).
    rewrite nth_middle.
    replace (0x80 <=? bval c) with false by decide_Z.
    rewrite andb_false_r. lia.
  - cbn [length].
    replace (Z.of_nat (length pre + 1) - Z.of_nat 1)
      with (Z.of_nat (length pre)) by lia.
    rewrite Nat2Z.id, <- app_assoc. change ([c] ++ q) with (c :: q).
    rewrite nth_middle.
    replace (0x80 <=? bval c) with true by decide_Z.
    replace (0 <=? Z.of_nat (length pre)) with true
      by decide_Z.
    cbn [andb].
    change (Z.of_nat (length (pre ++ c :: q)))
      with (len (pre ++ c :: q)).
    rewrite slice_to_end by lia. rewrite Nat2Z.id.
    rewrite skipn_app, skipn_all, Nat.sub_diag. cbn [skipn app].
    rewrite (Decode_lone c q Hc Hq). cbn [snd]. lia.
  - replace (Z.of_nat (length pre + length enc) - Z.of_nat (length enc))
      with (Z.of_nat (length pre)) by lia.
    rewrite Nat2Z.id, <- app_assoc.
    destruct enc as [|c0 enc']; [cbn in Hl; lia|]. cbn [hd] in Hc.
    cbn [app]. rewrite nth_middle.
    replace (0x80 <=? bval c0) with true by decide_Z.
    replace (0 <=? Z.of_nat (length pre)) with true
      by decide_Z.
    cbn [andb].
    change (Z.of_nat (length (pre ++ c0 :: enc' ++ q)))
      with (len (pre ++ c0 :: enc' ++ q)).
    rewrite slice_to_end by lia. rewrite Nat2Z.id.
    rewrite skipn_app, skipn_all, Nat.sub_diag. cbn [skipn app].
    change (c0 :: enc' ++ q) with ((c0 :: enc') ++ q).
    rewrite Hd. cbn [snd]. lia.
Qed.

Lemma lastSpace_nil : lastSpace [] = false.
Proof. reflexivity. Qed.

(** A white-space rune found at the end starts at a rune-start byte, and
    takes at least one byte. *)
Lemma lastSpace_split (p : gostring) (r : Z) (size : nat) :
  DecodeLastRuneInString p = (r, size) -> IsSpace r = true ->
  exists pre enc,
    p = pre ++ enc /\ length enc = size /\ (1 <= size)%nat
    /\ exists c enc', enc = c :: enc' /\ RuneStart c = true.
Proof.
  intros E Hr.
  destruct (DecodeLast_cases p)
    as [[He E']|[(pre & c & He & Hc & E')
                |[(pre & c & He & Hc & E')
                 |(pre & enc & r' & He & Hl & E' & Hc & Hd)]]];
    rewrite E in E'; injection E' as -> ->; try discriminate Hr.
  - exists pre, [c]. repeat split; auto.
    exists c, []. split; [reflexivity|now apply RuneStart_ascii].
  - exists pre, enc. repeat split; auto; try lia.
    destruct enc as [|c enc']; [cbn in Hl; lia|].
    exists c, enc'. split; [reflexivity|now apply RuneStart_lead].
Qed.

Lemma DecodeLast_size (p : gostring) (r : Z) (size : nat) :
  p <> [] -> DecodeLastRuneInString p = (r, size) ->
  (1 <= size <= length p)%nat.
Proof.
  intros Hp E.
  destruct (DecodeLast_cases p)
    as [[He E']|[(pre & c & He & Hc & E')
                |[(pre & c & He & Hc & E')
                 |(pre & enc & r' & He & Hl & E' & Hc & Hd)]]];
    [contradiction| | |]; rewrite E in E'; injection E' as -> ->; subst p;
    rewrite length_app; cbn [length]; lia.
Qed.

Lemma lastIndexFunc_step (k : nat) (p q : gostring) (f : Z -> bool)
      (truth : bool) :
  p <> [] ->
  lastIndexFunc_from (S k) (p ++ q) (len p) f truth =
    let '(r, size) := DecodeLastRuneInString p in
    if Bool.eqb (f r) truth then len p - Z.of_nat size
    else lastIndexFunc_from k (p ++ q) (len p - Z.of_nat size) f truth.
Proof.
  intros Hp. cbn [lastIndexFunc_from].
  assert (Hpos : 0 < len p) by (unfold len; destruct p; cbn; [easy|lia]).
  replace (len p <=? 0) with false by decide_Z.
  rewrite slice_from_start. unfold len at 1. rewrite Nat2Z.id.
  rewrite firstn_app, firstn_all, Nat.sub_diag. cbn [firstn].
  now rewrite app_nil_r.
Qed.

(** The loop of [lastIndexFunc] followed by the end computation of
    [TrimRightFunc], started at the end of [p] inside [p ++ q]: the result
    is the end of a prefix of [p] that does not end in white space. *)
Lemma trimRight_loop (rounds : nat) (p q : gostring) :
  (length p <= rounds)%nat ->
  (q = [] \/ exists c q', q = c :: q' /\ RuneStart c = true) ->
  let s := p ++ q in
  let i := lastIndexFunc_from rounds s (len p) IsSpace false in
  exists e,
    (e <= length p)%nat
    /\ (if (0 <=? i) && (RuneSelf <=? bval (at_ s i))
        then i + Z.of_nat (snd (DecodeRuneInString (slice s i (len s))))
        else i + 1) = Z.of_nat e
    /\ lastSpace (firstn e p) = false.
Proof.
  revert p q. induction rounds as [|k IH]; intros p q Hlen Hq s i; subst s i.
  - destruct p; [|cbn in Hlen; lia]. exists 0%nat.
    split; [lia|]. split; reflexivity.
  - destruct p as [|c0 p0].
    { exists 0%nat. split; [cbn; lia|]. split; reflexivity. }
    set (p := c0 :: p0) in *.
    assert (Hne : p <> []) by (subst p; discriminate).
    rewrite (lastIndexFunc_step k p q IsSpace false Hne).
    destruct (DecodeLastRuneInString p) as [r size] eqn:E.
    pose proof (DecodeLast_size p r size Hne E) as Hsz.
    destruct (IsSpace r) eqn:Hr; cbn [Bool.eqb].
    + destruct (lastSpace_split p r size E Hr)
        as (pre & enc & Hpe & Hel & _ & c & enc' & Henc & Hc).
      assert (Hlp : length p = (length pre + size)%nat)
        by (rewrite Hpe, length_app; lia).
      replace (len p - Z.of_nat size) with (len pre) by (unfold len; lia).
      rewrite Hpe, <- app_assoc.
      destruct (IH pre (enc ++ q)) as (e & He & Hi & Hs).
      * lia.
      * right. subst enc. cbn [app]. eauto.
      * exists e. split; [rewrite length_app; lia|]. split; [exact Hi|].
        now rewrite firstn_app, (proj2 (Nat.sub_0_le e (length pre)) He),
          firstn_O, app_nil_r.
    + exists (length p). split; [lia|]. split.
      * apply (adjust_end p q r size Hne Hq E).
      * rewrite firstn_all. unfold lastSpace. now rewrite E.
Qed.

Lemma TrimRightFunc_eq (s : gostring) (f : Z -> bool) :
  TrimRightFunc s f =
    let i := lastIndexFunc s f false in
    slice s 0
      (if (0 <=? i) && (RuneSelf <=? bval (at_ s i))
       then i + Z.of_nat (snd (DecodeRuneInString (slice s i (len s))))
       else i + 1).
Proof.
  unfold TrimRightFunc. cbv zeta.
  now destruct (DecodeRuneInString _).
Qed.

(** [TrimRightFunc] keeps a prefix that does not end in white space. *)
Lemma TrimRightFunc_spec (s : gostring) :
  exists e,
    (e <= length s)%nat
    /\ TrimRightFunc s IsSpace = firstn e s
    /\ lastSpace (firstn e s) = false.
Proof.
  destruct (trimRight_loop (length s) s [] (le_n _) (or_introl eq_refl))
    as (e & He & Hi & Hs).
  cbv zeta in Hi. rewrite app_nil_r in Hi.
  exists e. split; [exact He|]. split; [|exact Hs].
  rewrite TrimRightFunc_eq. unfold lastIndexFunc. cbv zeta.
  rewrite Hi, slice_from_start. now rewrite Nat2Z.id.
Qed.

(** A text that does not end in white space is left as it is. *)
Lemma TrimRightFunc_fix (t : gostring) :
  lastSpace t = false -> TrimRightFunc t IsSpace = t.
Proof.
  intros H. rewrite TrimRightFunc_eq. unfold lastIndexFunc. cbv zeta.
  destruct t as [|c0 t0]; [reflexivity|].
  set (t := c0 :: t0) in *.
  assert (Hne : t <> []) by (subst t; discriminate).
  pose proof (lastIndexFunc_step (length t0) t [] IsSpace false Hne) as St.
  rewrite app_nil_r in St.
  change (length t) with (S (length t0)). rewrite St.
  destruct (DecodeLastRuneInString t) as [r size] eqn:E.
  unfold lastSpace in H. rewrite E in H. cbn [fst] in H. rewrite H.
  cbn [Bool.eqb].
  pose proof (adjust_end t [] r size Hne (or_introl eq_refl) E) as Ha.
  cbv zeta in Ha. rewrite app_nil_r in Ha. rewrite Ha.
  rewrite slice_from_start. unfold len. rewrite Nat2Z.id.
  apply firstn_all.
Qed.

(** ** Trim: the left end *)

Lemma leadSpace_nil : leadSpace [] = false.
Proof. reflexivity. Qed.

Lemma Decode_width (s : gostring) :
  s <> [] ->
  (1 <= snd (DecodeRuneInString s) <= length s)%nat.
Proof.
  intros Hs.
  destruct (Decode_cases s)
    as [[He _]|[(c & t & He & _ & E)|[(c & t & He & _ & E)
                                     |(c & t & r & w & He & _ & E & Hw & _)]]];
    [contradiction| | |]; rewrite E; subst s; cbn [snd length] in *; lia.
Qed.

(** Passing over the rest of a rune. *)
Lemma indexFunc_skip (k : nat) (i : Z) (t : gostring) (f : Z -> bool)
      (truth : bool) :
  (k <= length t)%nat ->
  indexFunc_from k i t f truth =
  indexFunc_from 0 (i + Z.of_nat k) (skipn k t) f truth.
Proof.
  revert i t. induction k as [|k IH]; intros i t Hk.
  - cbn [skipn Z.of_nat]. now rewrite Z.add_0_r.
  - destruct t as [|c t]; [cbn in Hk; lia|].
    cbn [indexFunc_from skipn]. rewrite IH by (cbn in Hk; lia).
    f_equal. lia.
Qed.

(** The loop of [indexFunc], looking for the first rune that is not white
    space: it ends at the start of a suffix that does not begin with white
    space, or finds none. *)
Lemma trimLeft_loop (n : nat) (s : gostring) (i0 : Z) :
  (length s <= n)%nat ->
  let j := indexFunc_from 0 i0 s IsSpace false in
  j = -1 \/ exists k, (k < length s)%nat /\ j = i0 + Z.of_nat k
                      /\ leadSpace (skipn k s) = false.
Proof.
  revert s i0. induction n as [|n IH]; intros s i0 Hn j; subst j.
  - destruct s; [|cbn in Hn; lia]. now left.
  - destruct s as [|c t]; [now left|].
    cbn [indexFunc_from].
    destruct (DecodeRuneInString (c :: t)) as [r w] eqn:E.
    destruct (IsSpace r) eqn:Hr; cbn [Bool.eqb].
    + pose proof (Decode_width (c :: t) ltac:(discriminate)) as Hw.
      rewrite E in Hw. cbn [snd length] in Hw.
      rewrite indexFunc_skip by lia.
      destruct (IH (skipn (Nat.pred w) t) (i0 + 1 + Z.of_nat (Nat.pred w)))
        as [Hj|(k & Hk & Hj & Hl)].
      * rewrite length_skipn. cbn in Hn. lia.
      * now left.
      * right. exists (S (Nat.pred w + k)).
        rewrite length_skipn in Hk. cbn [length].
        split; [lia|]. split; [lia|].
        cbn [skipn]. rewrite skipn_skipn in Hl.
        now rewrite Nat.add_comm.
    + right. exists 0%nat. cbn [length skipn].
      split; [lia|]. split; [lia|]. unfold leadSpace. now rewrite E.
Qed.

(** [TrimLeftFunc] leaves a text that does not begin with white space. *)
Lemma TrimLeftFunc_spec (s : gostring) :
  leadSpace (TrimLeftFunc s IsSpace) = false.
Proof.
  unfold TrimLeftFunc, indexFunc.
  destruct (trimLeft_loop (length s) s 0 (le_n _))
    as [Hj|(k & Hk & Hj & Hl)]; cbv zeta in *; rewrite Hj.
  - reflexivity.
  - replace (0 + Z.of_nat k =? -1) with false
      by decide_Z.
    rewrite slice_to_end by lia.
    now replace (Z.to_nat (0 + Z.of_nat k)) with k by lia.
Qed.

(** A text that does not begin with white space is left as it is. *)
Lemma TrimLeftFunc_fix (t : gostring) :
  leadSpace t = false -> TrimLeftFunc t IsSpace = t.
Proof.
  intros H. unfold TrimLeftFunc, indexFunc.
  destruct t as [|c t0]; [reflexivity|].
  cbn [indexFunc_from]. unfold leadSpace in H.
  destruct (DecodeRuneInString (c :: t0)) as [r w]. cbn [fst] in H.
  rewrite H. cbn [Bool.eqb Z.eqb].
  now rewrite slice_to_end by lia.
Qed.

(** ** Trim: [TrimSpace] *)

Lemma firstn_S_nth {A} (k : nat) (u : list A) (d : A) :
  (k < length u)%nat -> firstn (S k) u = firstn k u ++ [nth k u d].
Proof.
  revert u. induction k as [|k IH]; intros [|x u] H; cbn in H; try lia.
  - reflexivity.
  - cbn [firstn nth app]. f_equal. apply IH. lia.
Qed.

Lemma DecodeLast_ascii (pre : gostring) (c : byte) :
  bval c < 0x80 -> DecodeLastRuneInString (pre ++ [c]) = (bval c, 1%nat).
Proof.
  intros Hc. unfold DecodeLastRuneInString, RuneSelf, at_, len.
  rewrite length_app. cbn [length].
  replace (Z.of_nat (length pre + 1) =? 0) with false
    by decide_Z.
  replace (Z.to_nat (Z.of_nat (length pre + 1) - 1)) with (length pre) by lia.
  rewrite nth_middle.
  now replace (bval c <? 0x80) with true by decide_Z.
Qed.

(** The second loop of [TrimSpace] keeps a prefix that does not end in
    white space. *)
Lemma trimSpaceStop_spec (u : gostring) (stop : nat) :
  (stop <= length u)%nat ->
  exists e,
    (e <= stop)%nat /\ trimSpaceStop u stop = firstn e u
    /\ lastSpace (firstn e u) = false.
Proof.
  induction stop as [|k IH]; intros Hs.
  - exists 0%nat. repeat split. lia.
  - cbn [trimSpaceStop]. unfold at_. rewrite Nat2Z.id.
    rewrite slice_from_start, Nat2Z.id. unfold RuneSelf.
    destruct (0x80 <=? bval (nth k u x00)) eqn:Ec.
    + destruct (TrimRightFunc_spec (firstn (S k) u)) as (e & He & -> & Hl).
      rewrite length_firstn in He. rewrite firstn_firstn in *.
      exists (Nat.min e (S k)). split; [lia|]. auto.
    + apply Z.leb_gt in Ec. destruct (asciiSpace (nth k u x00)) eqn:Ea.
      * destruct (IH ltac:(lia)) as (e & He & Ht & Hl).
        exists e. split; [lia|]. auto.
      * exists (S k). split; [lia|]. split; [reflexivity|].
        rewrite (firstn_S_nth k u x00) by lia.
        unfold lastSpace. rewrite DecodeLast_ascii by assumption.
        cbn [fst]. now rewrite IsSpace_ascii.
Qed.

(** What [TrimSpace] returns neither begins nor ends with white space. *)
Lemma TrimSpace_trimmed (s : gostring) :
  leadSpace (TrimSpace s) = false /\ lastSpace (TrimSpace s) = false.
Proof.
  induction s as [|c t IH]; [split; reflexivity|].
  cbn [TrimSpace]. unfold RuneSelf.
  destruct (0x80 <=? bval c) eqn:Ec.
  - unfold TrimFunc.
    destruct (TrimRightFunc_spec (TrimLeftFunc (c :: t) IsSpace))
      as (e & _ & -> & Hl).
    split; [|exact Hl].
    destruct (leadSpace (firstn e _)) eqn:E; [|reflexivity].
    apply leadSpace_prefix in E. now rewrite TrimLeftFunc_spec in E.
  - apply Z.leb_gt in Ec. destruct (asciiSpace c) eqn:Ea; [exact IH|].
    destruct (trimSpaceStop_spec (c :: t) (length (c :: t)) (le_n _))
      as (e & _ & -> & Hl).
    split; [|exact Hl].
    destruct e; [reflexivity|]. cbn [firstn]. unfold leadSpace.
    unfold DecodeRuneInString. rewrite (first_ASCII c Ec). cbn [fst].
    now rewrite IsSpace_ascii.
Qed.

(** A text that neither begins nor ends with white space is left as it
    is. *)
Lemma TrimSpace_fix (t : gostring) :
  leadSpace t = false -> lastSpace t = false -> TrimSpace t = t.
Proof.
  intros Hl Hr. destruct t as [|c t0]; [reflexivity|].
  cbn [TrimSpace]. unfold RuneSelf.
  destruct (0x80 <=? bval c) eqn:Ec.
  - unfold TrimFunc. rewrite (TrimLeftFunc_fix _ Hl).
    now apply TrimRightFunc_fix.
  - apply Z.leb_gt in Ec.
    assert (Ea : asciiSpace c = false).
    { unfold leadSpace, DecodeRuneInString in Hl.
      rewrite (first_ASCII c Ec) in Hl. cbn [fst] in Hl.
      now rewrite IsSpace_ascii in Hl. }
    rewrite Ea.
    destruct (@exists_last _ (c :: t0) ltac:(discriminate))
      as (t1 & c1 & Heq).
    rewrite Heq in *. clear Heq.
    rewrite length_app. cbn [length]. rewrite Nat.add_1_r.
    cbn [trimSpaceStop]. unfold at_. rewrite Nat2Z.id, nth_middle.
    rewrite slice_from_start, Nat2Z.id.
    replace (S (length t1)) with (length (t1 ++ [c1]))
      by (rewrite length_app; cbn; lia).
    rewrite firstn_all. unfold RuneSelf.
    destruct (0x80 <=? bval c1) eqn:Ec1; [now apply TrimRightFunc_fix|].
    apply Z.leb_gt in Ec1.
    unfold lastSpace in Hr. rewrite DecodeLast_ascii in Hr by assumption.
    cbn [fst] in Hr. rewrite IsSpace_ascii in Hr by assumption.
    now rewrite Hr.
Qed.

(** C9. Trim is idempotent: for every text [s], trimming the trimmed text
    changes nothing, [TrimSpace (TrimSpace s) = TrimSpace s]; so the trim
    stage of [main] applied to its own result is a no-op. *)
Theorem TrimSpace_idempotent (s : gostring) :
  TrimSpace (TrimSpace s) = TrimSpace s
  /\ forall config,
      trimStage config (trimStage config s) = trimStage config s.
Proof.
  assert (H : forall x, TrimSpace (TrimSpace x) = TrimSpace x).
  { intros x. destruct (TrimSpace_trimmed x) as [Hl Hr].
    now apply TrimSpace_fix. }
  split; [apply H|].
  intros config. unfold trimStage. destruct (trim config); auto.
Qed.

(* ================================================================== *)
(** * Further properties of the code *)
(* ================================================================== *)

(** ** Lines: splitting, joining, counting *)

Lemma Split_Count (s : gostring) (sep : byte) :
  len (Split s sep) = Count s sep + 1.
Proof.
  unfold len. induction s as [|c t IH]; [reflexivity|].
  cbn [Split Count]. destruct (Byte.eqb c sep).
  - cbn [length]. lia.
  - destruct (Split t sep) as [|l ls] eqn:E; [now apply Split_nonempty in E|].
    cbn [length] in *. lia.
Qed.

Lemma Split_sepFree (s : gostring) (sep : byte) :
  Forall (fun l => sepFree sep l = true) (Split s sep).
Proof.
  induction s as [|c t IH]; [repeat constructor|].
  cbn [Split]. destruct (Byte.eqb c sep) eqn:E.
  - constructor; [reflexivity|exact IH].
  - destruct (Split t sep) as [|l ls]; inversion IH; subst;
      constructor; auto; cbn; rewrite E; auto.
Qed.

Lemma Split_one (sep : byte) (e : gostring) :
  sepFree sep e = true -> Split e sep = [e].
Proof.
  induction e as [|c e IH]; [reflexivity|]. cbn.
  intros H. apply andb_prop in H as [Hc He].
  apply negb_true_iff in Hc. rewrite Hc, (IH He). reflexivity.
Qed.

Lemma Split_app_sep (sep : byte) (e rest : gostring) :
  sepFree sep e = true ->
  Split (e ++ sep :: rest) sep = e :: Split rest sep.
Proof.
  induction e as [|c e IH]; cbn.
  - intros _. rewrite (Byte.byte_dec_lb eq_refl : Byte.eqb sep sep = true).
    reflexivity.
  - intros H. apply andb_prop in H as [Hc He].
    apply negb_true_iff in Hc. rewrite Hc, (IH He). reflexivity.
Qed.

(** Splitting what was joined gives the lines back, when there is at least
    one line and no line holds the separator. *)
Lemma Split_Join (sep : byte) (L : list gostring) :
  L <> [] -> Forall (fun l => sepFree sep l = true) L ->
  Split (Join L [sep]) sep = L.
Proof.
  induction L as [|e L IH]; [contradiction|]. intros _ H.
  inversion H as [|? ? He HL]; subst.
  destruct L as [|e' L'].
  - cbn [Join]. now apply Split_one.
  - change (Join (e :: e' :: L') [sep])
      with (e ++ [sep] ++ Join (e' :: L') [sep]).
    cbn [app]. rewrite Split_app_sep by assumption.
    f_equal. apply IH; [discriminate|assumption].
Qed.

Lemma Forall_firstn {A} (P : A -> Prop) (n : nat) (l : list A) :
  Forall P l -> Forall P (firstn n l).
Proof.
  intros H. revert n. induction H; intros [|n]; cbn; auto.
Qed.

Lemma Forall_skipn {A} (P : A -> Prop) (n : nat) (l : list A) :
  Forall P l -> Forall P (skipn n l).
Proof.
  intros H. revert n. induction H; intros [|n]; cbn; auto.
Qed.

Lemma applyLineFilters_stages (s : gostring) (H T : Z) :
  applyLineFilters s H T = Join (tailStage T (headStage H (Split s nl))) [nl].
Proof.
  unfold applyLineFilters.
  destruct ((H <=? 0) && (T <=? 0)) eqn:E.
  - apply andb_prop in E as [EH ET]. apply Z.leb_le in EH, ET.
    rewrite tailStage_noop, headStage_noop by auto. now rewrite Join_Split.
  - f_equal. unfold tailStage at 1, headStage at 1 2 3.
    fold (headStage H (Split s nl)).
    change (slice_to (Split s nl) H) with (first_n H (Split s nl)).
    destruct ((0 <? T) && (T <? len _)) eqn:ET; [|reflexivity].
    apply andb_prop in ET as [E0 E1]. apply Z.ltb_lt in E0, E1.
    now apply slice_from_last_n.
Qed.

(** The two stages keep at least one line, and lines of the text. *)
Lemma stages_lines (H T : Z) (L : list gostring) :
  L <> [] -> Forall (fun l => sepFree nl l = true) L ->
  tailStage T (headStage H L) <> []
  /\ Forall (fun l => sepFree nl l = true) (tailStage T (headStage H L)).
Proof.
  intros Hne HF.
  assert (H1 : headStage H L <> []
               /\ Forall (fun l => sepFree nl l = true) (headStage H L)).
  { unfold headStage, first_n.
    destruct ((0 <? H) && (H <? len L)) eqn:E; [|auto].
    apply andb_prop in E as [E0 _]. apply Z.ltb_lt in E0. split.
    - destruct L; [contradiction|].
      destruct (Z.to_nat H) eqn:EH; [lia|discriminate].
    - now apply Forall_firstn. }
  destruct H1 as [Hne1 HF1]. unfold tailStage, last_n.
  destruct ((0 <? T) && (T <? len (headStage H L))) eqn:E; [|auto].
  apply andb_prop in E as [E0 E1]. apply Z.ltb_lt in E0, E1. split.
  - intros Hnil. apply (f_equal (@length _)) in Hnil.
    rewrite length_skipn in Hnil. unfold len in E1. cbn in Hnil. lia.
  - now apply Forall_skipn.
Qed.

Lemma stages_length (H T : Z) (L : list gostring) :
  L <> [] ->
  let L' := tailStage T (headStage H L) in
  1 <= len L' <= len L /\ (0 < H -> len L' <= H) /\ (0 < T -> len L' <= T).
Proof.
  intros Hne L'. subst L'.
  assert (HL : 1 <= len L) by (unfold len; destruct L; cbn; [easy|lia]).
  assert (H1 : 1 <= len (headStage H L) <= len L
               /\ (0 < H -> len (headStage H L) <= H)).
  { unfold headStage, first_n.
    destruct ((0 <? H) && (H <? len L)) eqn:E.
    - apply andb_prop in E as [E0 E1]. apply Z.ltb_lt in E0, E1.
      unfold len in *. rewrite length_firstn. lia.
    - apply andb_false_iff in E as [E|E];
        [apply Z.ltb_ge in E|apply Z.ltb_ge in E]; lia. }
  destruct H1 as [Hb Hh]. unfold tailStage, last_n.
  destruct ((0 <? T) && (T <? len (headStage H L))) eqn:E.
  - apply andb_prop in E as [E0 E1]. apply Z.ltb_lt in E0, E1.
    unfold len in *. rewrite length_skipn. lia.
  - apply andb_false_iff in E as [E|E];
      [apply Z.ltb_ge in E|apply Z.ltb_ge in E]; lia.
Qed.

(** The lines of the filtered text are the lines the two stages keep: at
    least one, at most [H] when a head count is given, at most [T] when a
    tail count is given. *)
Theorem applyLineFilters_lines (s : gostring) (H T : Z) :
  let L' := Split (applyLineFilters s H T) nl in
  L' = tailStage T (headStage H (Split s nl))
  /\ 1 <= len L' <= len (Split s nl)
  /\ (0 < H -> len L' <= H)
  /\ (0 < T -> len L' <= T).
Proof.
  intros L'. subst L'. rewrite applyLineFilters_stages.
  destruct (stages_lines H T (Split s nl) (Split_nonempty s nl)
              (Split_sepFree s nl)) as [Hne HF].
  rewrite (Split_Join nl _ Hne HF). split; [reflexivity|].
  apply (stages_length H T (Split s nl) (Split_nonempty s nl)).
Qed.

Lemma applyLineFilters_lines_witness :
  Split (applyLineFilters sample_lines 4 2) nl = [go "c"; go "d"]
  /\ len (Split (applyLineFilters sample_lines 4 2) nl) <= 4
  /\ len (Split (applyLineFilters sample_lines 4 2) nl) <= 2.
Proof.
  destruct (applyLineFilters_lines sample_lines 4 2) as (E & _ & Hh & Ht).
  split; [rewrite E; reflexivity|].
  split; [apply Hh; lia|apply Ht; lia].
Defined.

(** Filtering a filtered text again with the same counts changes nothing. *)
Theorem applyLineFilters_idempotent (s : gostring) (H T : Z) :
  applyLineFilters (applyLineFilters s H T) H T = applyLineFilters s H T.
Proof.
  rewrite (applyLineFilters_stages (applyLineFilters s H T)).
  destruct (stages_lines H T (Split s nl) (Split_nonempty s nl)
              (Split_sepFree s nl)) as [Hne HF].
  pose proof (stages_length H T (Split s nl) (Split_nonempty s nl))
    as (Hb & Hh & Ht). cbv zeta in *.
  rewrite (applyLineFilters_stages s H T) at 1.
  rewrite (Split_Join nl _ Hne HF).
  set (L2 := tailStage T (headStage H (Split s nl))) in *.
  assert (E1 : headStage H L2 = L2).
  { apply headStage_noop.
    destruct (Z.lt_ge_cases 0 H); [right; auto|left; lia]. }
  rewrite E1.
  assert (E2 : tailStage T L2 = L2).
  { apply tailStage_noop.
    destruct (Z.lt_ge_cases 0 T); [right; auto|left; lia]. }
  rewrite E2. symmetry. apply applyLineFilters_stages.
Qed.

Lemma limitLines_head_only (output : gostring) (maxLines : Z) :
  limitLines output maxLines = applyLineFilters output maxLines 0.
Proof.
  rewrite applyLineFilters_stages.
  rewrite tailStage_noop by (left; lia).
  unfold limitLines, headStage.
  destruct (maxLines <=? 0) eqn:E0.
  - apply Z.leb_le in E0.
    replace (0 <? maxLines) with false by decide_Z.
    cbn [andb]. now rewrite Join_Split.
  - apply Z.leb_gt in E0.
    replace (0 <? maxLines) with true by decide_Z. cbn [andb].
    destruct (len (Split output nl) <=? maxLines) eqn:E1.
    + apply Z.leb_le in E1.
      replace (maxLines <? len (Split output nl)) with false by decide_Z.
      now rewrite Join_Split.
    + apply Z.leb_gt in E1.
      replace (maxLines <? len (Split output nl)) with true by decide_Z.
      reflexivity.
Qed.

(** The display limit is the head filter: [limitLines] with a count is
    [applyLineFilters] with that head count and no tail count, also for
    counts that are zero, negative or beyond the number of lines. *)
Theorem limitLines_is_head_filter (output : gostring) (maxLines : Z) :
  limitLines output maxLines = applyLineFilters output maxLines 0.
Proof. exact (limitLines_head_only output maxLines). Qed.

Lemma Join_cons (e : gostring) (L : list gostring) (sep : gostring) :
  L <> [] -> Join (e :: L) sep = e ++ sep ++ Join L sep.
Proof. destruct L; [contradiction|reflexivity]. Qed.

Lemma Join_firstn_prefix (n : nat) (L : list gostring) (sep : gostring) :
  exists rest, Join L sep = Join (firstn n L) sep ++ rest.
Proof.
  revert n. induction L as [|e L IH]; intros n.
  - exists []. now rewrite firstn_nil.
  - destruct n as [|n]; [now exists (Join (e :: L) sep)|].
    cbn [firstn]. destruct L as [|e' L'].
    + exists []. rewrite firstn_nil. cbn. now rewrite app_nil_r.
    + destruct (IH n) as [rest Hr].
      rewrite (Join_cons e (e' :: L')) by discriminate. rewrite Hr.
      destruct (firstn n (e' :: L')) as [|f F] eqn:EF.
      * exists (sep ++ rest). cbn. reflexivity.
      * exists rest. rewrite (Join_cons e (f :: F)) by discriminate.
        now rewrite <- !app_assoc.
Qed.

Lemma Join_skipn_suffix (n : nat) (L : list gostring) (sep : gostring) :
  exists pre, Join L sep = pre ++ Join (skipn n L) sep.
Proof.
  revert L. induction n as [|n IH]; intros L; [now exists []|].
  destruct L as [|e L]; [now exists []|]. cbn [skipn].
  destruct (IH L) as [pre Hp].
  destruct L as [|e' L'].
  - exists e. rewrite skipn_nil. cbn. now rewrite app_nil_r.
  - rewrite (Join_cons e (e' :: L')) by discriminate. rewrite Hp.
    exists (e ++ sep ++ pre). now rewrite <- !app_assoc.
Qed.

(** The filters only cut: the filtered text is one contiguous part of the
    text, a prefix of it when no tail count is given and a suffix of it
    when no head count is given.  In particular what the display limit
    shows is a prefix of the text. *)
Theorem applyLineFilters_cuts (s : gostring) (H T : Z) :
  (exists pre post,
      s = pre ++ applyLineFilters s H T ++ post
      /\ (T <= 0 -> pre = []) /\ (H <= 0 -> post = []))
  /\ exists rest, s = limitLines s H ++ rest.
Proof.
  assert (Hcut : forall H T, exists pre post,
      s = pre ++ applyLineFilters s H T ++ post
      /\ (T <= 0 -> pre = []) /\ (H <= 0 -> post = [])).
  { clear H T. intros H T. rewrite applyLineFilters_stages.
    set (L := Split s nl).
    assert (Hh : exists post, Join L [nl] = Join (headStage H L) [nl] ++ post
                              /\ (H <= 0 -> post = [])).
    { unfold headStage, first_n.
      destruct ((0 <? H) && (H <? len L)) eqn:E.
      - apply andb_prop in E as [E0 _]. apply Z.ltb_lt in E0.
        destruct (Join_firstn_prefix (Z.to_nat H) L [nl]) as [post Hp].
        exists post. split; [exact Hp|lia].
      - exists []. now rewrite app_nil_r. }
    destruct Hh as (post & Hp & Hpost).
    assert (Ht : exists pre,
               Join (headStage H L) [nl]
               = pre ++ Join (tailStage T (headStage H L)) [nl]
               /\ (T <= 0 -> pre = [])).
    { unfold tailStage, last_n.
      destruct ((0 <? T) && (T <? len (headStage H L))) eqn:E.
      - apply andb_prop in E as [E0 _]. apply Z.ltb_lt in E0.
        destruct (Join_skipn_suffix
                    (length (headStage H L) - Z.to_nat T) (headStage H L)
                    [nl]) as [pre Hq].
        exists pre. split; [exact Hq|lia].
      - now exists []. }
    destruct Ht as (pre & Hq & Hpre).
    exists pre, post. split; [|auto].
    rewrite <- (Join_Split s nl) at 1. fold L. rewrite Hp, Hq.
    now rewrite <- app_assoc. }
  split; [apply Hcut|].
  destruct (Hcut H 0) as (pre & post & E & Hpre & _).
  rewrite (Hpre (Z.le_refl 0)) in E. cbn [app] in E.
  exists post. now rewrite limitLines_head_only.
Qed.

Lemma applyLineFilters_cuts_witness :
  exists post,
    sample_lines = [] ++ applyLineFilters sample_lines 2 0 ++ post.
Proof.
  destruct (applyLineFilters_cuts sample_lines 2 0)
    as [(pre & post & E & Hpre & _) _].
  exists post. rewrite <- (Hpre (Z.le_refl 0)). exact E.
Defined.

(** ** File persister: every outcome *)

Ltac writeToFile_flags appendMode :=
  destruct appendMode;
  [ change (has_flag (Z.lor (Z.lor O_CREATE O_WRONLY) O_APPEND) O_TRUNC)
      with false;
    change (has_flag (Z.lor (Z.lor O_CREATE O_WRONLY) O_APPEND) O_CREATE)
      with true;
    change (has_flag (Z.lor (Z.lor O_CREATE O_WRONLY) O_APPEND) O_APPEND)
      with true
  | change (has_flag (Z.lor (Z.lor O_CREATE O_WRONLY) O_TRUNC) O_TRUNC)
      with true;
    change (has_flag (Z.lor (Z.lor O_CREATE O_WRONLY) O_TRUNC) O_CREATE)
      with true;
    change (has_flag (Z.lor (Z.lor O_CREATE O_WRONLY) O_TRUNC) O_APPEND)
      with false ].

(** [writeToFile] makes the directory, opens the file only when that did
    not fail, and writes only when the opening did not fail; it closes
    whatever it wrote to, also when the write fails.  It prints nothing and
    starts no process.  When it does not get to write, no file changes and
    an error is returned. *)
Theorem writeToFile_closes_what_it_opens
        (w : World) (path content : gostring) (appendMode : bool)
        (st : State) :
  let r := writeToFile w path content appendMode st in
  let ext := writeToFile_events w path content appendMode in
  trace (snd r) = trace st ++ ext
  /\ fileops ext = ext /\ runs ext = [] /\ stdout_of ext = []
  /\ (In (EvWrite path content) ext -> In (EvClose path) ext)
  /\ (~ In (EvWrite path content) ext ->
      fs (snd r) = fs st /\ exists e, fst r = Done (Some e)).
Proof.
  intros r ext. subst r ext.
  unfold writeToFile, writeToFile_events, os_OpenFile, file_WriteString,
    bind, emit, get_fs, put_fs, when, ret.
  destruct (mkdir_all w (filepath_Dir w path)) as [e|]; cbn [fs trace fst snd].
  { do 4 (split; [reflexivity|]). split; [intros [H|[]]; discriminate|].
    eauto. }
  writeToFile_flags appendMode;
    (destruct (open_file w path _) as [e|] eqn:Eo; cbn [fs trace fst snd];
     [ split; [now rewrite <- app_assoc|]; do 3 (split; [reflexivity|]);
       split; [intros [H|[H|[]]]; discriminate|eauto]
     | ]);
    (destruct (fs st path) as [old|]; cbn [fs trace fst snd];
     destruct (write_string w path content) as [[n e]|]; cbn [fs trace fst snd];
     (split; [now rewrite <- !app_assoc|]; do 3 (split; [reflexivity|]);
      split; [intros _; cbn; auto|intros H; exfalso; apply H; cbn; auto])).
Qed.

Lemma writeToFile_closes_what_it_opens_witness :
  In (EvClose (go "/tmp/cb.txt"))
     (writeToFile_events faulty_world (go "/tmp/cb.txt") sample_record1 false)
  /\ fst (writeToFile faulty_world (go "/tmp/cb.txt") sample_record1 false
            (init fs_empty)) = Done (Some (OSError (go "no space left on device"))).
Proof.
  destruct (writeToFile_closes_what_it_opens faulty_world (go "/tmp/cb.txt")
              sample_record1 false (init fs_empty))
    as (_ & _ & _ & _ & Hc & _).
  split; [apply Hc; cbn; auto|reflexivity].
Defined.

(** [writeToFile] changes no other file.  In append mode, whatever happens,
    the file keeps what it held and gains a prefix of the content, all of
    it when no error is returned.  In overwrite mode, either nothing changed
    and an error is returned, or the file holds a prefix of the content and
    nothing of what it held: a failing write loses the old content. *)
Theorem writeToFile_outcomes
        (w : World) (path content : gostring) (appendMode : bool)
        (st : State) :
  let r := writeToFile w path content appendMode st in
  (forall p, p <> path -> fs (snd r) p = fs st p)
  /\ (exists oe, fst r = Done oe)
  /\ (appendMode = true ->
      exists k rest,
        content = k ++ rest
        /\ content_of (fs (snd r)) path = content_of (fs st) path ++ k
        /\ (fst r = Done None -> rest = []))
  /\ (appendMode = false ->
      (fs (snd r) = fs st /\ fst r <> Done None)
      \/ exists k rest,
          content = k ++ rest /\ fs (snd r) path = Some k
          /\ (fst r = Done None -> rest = [])).
Proof.
  intros r. subst r.
  unfold writeToFile, os_OpenFile, file_WriteString, bind, emit, get_fs,
    put_fs, when, ret.
  destruct (mkdir_all w (filepath_Dir w path)) as [e|]; cbn [fs trace fst snd].
  { split; [reflexivity|]. split; [eauto|]. split.
    - intros _. exists [], content. rewrite app_nil_r.
      repeat split. discriminate.
    - intros _. left. split; [reflexivity|discriminate]. }
  writeToFile_flags appendMode;
    (destruct (open_file w path _) as [e|]; cbn [fs trace fst snd];
     [ split; [reflexivity|]; split; [eauto|]; split;
       [ intros _; exists [], content; rewrite app_nil_r;
         repeat split; discriminate
       | intros _; left; split; [reflexivity|discriminate] ]
     | ]);
    unfold content_of;
    (destruct (fs st path) as [old|] eqn:Eold; cbn [fs trace fst snd];
     rewrite ?Eold, ?fs_set_same;
     destruct (write_string w path content) as [[n e]|];
     cbn [fs trace fst snd];
     (split; [intros p Hp; rewrite !fs_set_other by assumption; reflexivity|];
      split; [eauto|]; rewrite ?fs_set_same, ?Eold;
      cbn [app]; rewrite ?skipn_nil, ?app_nil_r)).
  all: split; try discriminate; intros _.
  all: try (exists (firstn n content), (skipn n content);
            rewrite firstn_skipn; repeat split; discriminate).
  all: try (exists content, []; rewrite app_nil_r; repeat split).
  all: try (right; exists (firstn n content), (skipn n content);
            rewrite firstn_skipn; repeat split; discriminate).
  all: try (right; exists content, []; rewrite app_nil_r; repeat split).
Qed.

Lemma writeToFile_outcomes_witness :
  (exists k rest,
      sample_record2 = k ++ rest
      /\ content_of
           (fs (snd (writeToFile faulty_world (go "/tmp/cb.txt")
                       sample_record2 true
                       (init (fs_set fs_empty (go "/tmp/cb.txt")
                                     sample_record1)))))
           (go "/tmp/cb.txt")
         = sample_record1 ++ k)
  /\ fs (snd (writeToFile faulty_world (go "/tmp/cb.txt") sample_record2
                false
                (init (fs_set fs_empty (go "/tmp/cb.txt") sample_record1))))
        (go "/tmp/cb.txt") = Some (go "[202").
Proof.
  split.
  - destruct (writeToFile_outcomes faulty_world (go "/tmp/cb.txt")
                sample_record2 true
                (init (fs_set fs_empty (go "/tmp/cb.txt") sample_record1)))
      as (_ & _ & Ha & _).
    destruct (Ha eq_refl) as (k & rest & E & Hc & _).
    exists k, rest. split; [exact E|exact Hc].
  - destruct (writeToFile_outcomes faulty_world (go "/tmp/cb.txt")
                sample_record2 false
                (init (fs_set fs_empty (go "/tmp/cb.txt") sample_record1)))
      as (_ & _ & _ & Ho).
    destruct (Ho eq_refl) as [[Hfs _]|(k & rest & E & Hs & _)].
    + exfalso.
      pose proof (f_equal (fun f => f (go "/tmp/cb.txt")) Hfs) as H.
      vm_compute in H. discriminate H.
    + reflexivity.
Defined.

(** ** Clipboard publisher: every outcome *)

Lemma runs_app (a b : list Event) : runs (a ++ b) = runs a ++ runs b.
Proof. apply filter_app. Qed.

Lemma fileops_app (a b : list Event) :
  fileops (a ++ b) = fileops a ++ fileops b.
Proof. apply filter_app. Qed.

(** The clipboard block, observed.  It touches no file.  The processes it
    starts are those of [clipboard_runs]: none when the clipboard is
    disabled or no tool is found; else the tool found, with its arguments,
    once with an empty input when clearing was asked for and then once
    with the text.  It ends well or exits with status 1. *)
Lemma publishStep_runs (w : World) (config : Config) (output : gostring)
      (st : State) :
  let r := publishStep w config output st in
  fs (snd r) = fs st
  /\ (fst r = Done tt \/ fst r = Exit 1)
  /\ exists ext,
      trace (snd r) = trace st ++ ext
      /\ fileops ext = []
      /\ runs ext = clipboard_runs config (fst (detectClipboardTool w))
                                   (snd (detectClipboardTool w)) output.
Proof.
  unfold publishStep, clipboard_runs, clearClipboard, copyToClipboard.
  destruct (noClipboard config); cbn [negb orb].
  { split; [reflexivity|]. split; [now left|]. exists [].
    now rewrite app_nil_r. }
  destruct (detectClipboardTool w) as [tool args]. cbn [fst snd].
  destruct (gostring_eqb tool []) eqn:Et.
  - destruct (clear config), (verbose config);
      (split; [reflexivity|]; split; [now right|]);
      cbn; eexists; rewrite <- ?app_assoc; (split; [reflexivity|]);
      split; reflexivity.
  - unfold cmd_Run, when, print_stderr, print_stdout, os_Exit, bind,
      get_trace, emit, ret.
    destruct (clear config), (verbose config); cbn [fs trace fst snd];
      repeat match goal with
             | |- context [run_error ?x] =>
                 destruct (run_error x); cbn [fs trace fst snd]
             end;
      (split; [reflexivity|]; split; [first [now left|now right]|]);
      eexists; rewrite <- ?app_assoc; (split; [reflexivity|]);
      split; reflexivity.
Qed.

(** The clipboard block starts the tool found by [detectClipboardTool],
    and no other process: with the same arguments for clearing and for
    publishing, the clearing run first and with an empty input, the
    publishing run with the whole text.  It touches no file. *)
Theorem publishStep_one_tool (w : World) (config : Config)
        (output : gostring) (st : State) :
  let r := publishStep w config output st in
  let tool := fst (detectClipboardTool w) in
  let args := snd (detectClipboardTool w) in
  fs (snd r) = fs st
  /\ exists ext,
      trace (snd r) = trace st ++ ext
      /\ fileops ext = []
      /\ runs ext =
           if noClipboard config || gostring_eqb tool [] then []
           else (if clear config then [EvRun tool args []] else [])
                ++ [EvRun tool args output].
Proof.
  intros r tool args.
  destruct (publishStep_runs w config output st) as (Hfs & _ & ext & H).
  split; [exact Hfs|]. exists ext. exact H.
Qed.

(** A failing clearing run is not fatal, and it is the publishing run alone
    that decides: when a tool is found and its publishing run ends without
    error, the block ends well whatever the clearing run did; when no tool
    is found or the publishing run fails, the block exits with status 1. *)
Theorem publishStep_clear_not_fatal (w : World) (config : Config)
        (output : gostring) (st : State) :
  let r := publishStep w config output st in
  let tool := fst (detectClipboardTool w) in
  let args := snd (detectClipboardTool w) in
  noClipboard config = false ->
  (tool <> [] ->
   (forall history, run_error (exec_run w history tool args output) = None) ->
   fst r = Done tt)
  /\ (tool = [] \/
      (forall history, run_error (exec_run w history tool args output) <> None)
      -> fst r = Exit 1).
Proof.
  intros r tool args Hnc. subst r tool args.
  unfold publishStep, clearClipboard, copyToClipboard. rewrite Hnc.
  cbn [negb]. destruct (detectClipboardTool w) as [tool args]. cbn [fst snd].
  destruct (gostring_eqb tool []) eqn:Et.
  - apply gostring_eqb_eq in Et. subst tool. split; [intros H; now contradiction H|].
    intros _. destruct (clear config), (verbose config); reflexivity.
  - assert (Hne : tool <> [])
      by (intros ->; rewrite gostring_eqb_refl in Et; discriminate).
    unfold cmd_Run, when, print_stderr, print_stdout, os_Exit, bind,
      get_trace, emit, ret.
    split.
    + intros _ Hok.
      destruct (clear config), (verbose config); cbn [fs trace fst snd];
        repeat match goal with
               | |- context [run_error (exec_run w ?h tool args [])] =>
                   destruct (run_error (exec_run w h tool args []));
                   cbn [fs trace fst snd]
               end;
        rewrite !Hok; reflexivity.
    + intros [Hnil|Hbad]; [contradiction|].
      destruct (clear config), (verbose config); cbn [fs trace fst snd];
        repeat match goal with
               | |- context [run_error (exec_run w ?h tool args [])] =>
                   destruct (run_error (exec_run w h tool args []));
                   cbn [fs trace fst snd]
               end;
        match goal with
        | |- context [run_error (exec_run w ?h tool args output)] =>
            specialize (Hbad h);
            destruct (run_error (exec_run w h tool args output));
            [reflexivity|contradiction]
        end.
Qed.

Lemma publishStep_clear_not_fatal_witness :
  fst (publishStep clear_failing_world clear_verbose_config (go "hello")
         (init fs_empty)) = Done tt
  /\ fst (publishStep bare_world clear_verbose_config (go "hello")
            (init fs_empty)) = Exit 1.
Proof.
  split.
  - destruct (publishStep_clear_not_fatal clear_failing_world
                clear_verbose_config (go "hello") (init fs_empty) eq_refl)
      as [H _].
    apply H; [discriminate|]. intros history. reflexivity.
  - destruct (publishStep_clear_not_fatal bare_world
                clear_verbose_config (go "hello") (init fs_empty) eq_refl)
      as [_ H].
    apply H. left. reflexivity.
Defined.

(** The number of lines reported in verbose mode is the number of lines the
    filters see: the count of newlines plus one, so one for an empty text.
    The report is the last thing a successful clipboard block prints. *)
Theorem copied_line_count (w : World) (config : Config) (output : gostring)
        (st : State) :
  let r := publishStep w config output st in
  Count output nl + 1 = len (Split output nl)
  /\ (verbose config = true -> noClipboard config = false ->
      fst r = Done tt ->
      exists ext,
        trace (snd r) =
          trace st ++ ext
            ++ [EvStdout (go "Copied " ++ itoa (len (Split output nl))
                             ++ go " lines to clipboard" ++ [nl])]).
Proof.
  intros r. subst r. split; [now rewrite Split_Count|].
  intros Hv Hnc. rewrite Split_Count.
  unfold publishStep, clearClipboard, copyToClipboard. rewrite Hv, Hnc.
  cbn [negb]. destruct (detectClipboardTool w) as [tool args].
  destruct (gostring_eqb tool []) eqn:Et.
  - destruct (clear config); cbn; discriminate.
  - unfold cmd_Run, when, print_stderr, print_stdout, os_Exit, bind,
      get_trace, emit, ret.
    destruct (clear config); cbn [fs trace fst snd];
      repeat match goal with
             | |- context [run_error ?x] =>
                 destruct (run_error x); cbn [fs trace fst snd]
             end;
      try discriminate; intros _; rewrite <- ?app_assoc; cbn [app].
    all: first [ eexists [_]; reflexivity
               | eexists [_; _]; reflexivity
               | eexists [_; _; _]; reflexivity ].
Qed.

Lemma copied_line_count_witness :
  exists ext,
    trace (snd (publishStep clear_failing_world clear_verbose_config
                  (go "hello") (init fs_empty)))
    = [] ++ ext ++ [EvStdout (go "Copied 1 lines to clipboard" ++ [nl])].
Proof.
  destruct (copied_line_count clear_failing_world clear_verbose_config
              (go "hello") (init fs_empty)) as [_ H].
  exact (H eq_refl eq_refl eq_refl).
Defined.

(** ** Orchestrator: every run *)

Lemma delayStep_eq (config : Config) (st : State) :
  delayStep config st =
    (Done tt, {| fs := fs st; trace := trace st ++ delay_events config |}).
Proof.
  unfold delayStep, delay_events. destruct (0 <? delay config).
  - unfold when, print_stdout, bind, emit, ret.
    destruct (verbose config); cbn [fs trace]; [|reflexivity].
    now rewrite <- app_assoc.
  - destruct st. cbn. now rewrite app_nil_r.
Qed.

Lemma delay_events_kinds (config : Config) :
  runs (delay_events config) = [] /\ fileops (delay_events config) = [].
Proof.
  unfold delay_events.
  destruct (0 <? delay config), (verbose config); split; reflexivity.
Qed.

(** What [writeToFile] returns and does to the files depends on the files
    alone, not on what the program did before. *)
Lemma writeToFile_indep (w : World) (path content : gostring)
      (appendMode : bool) (st st' : State) :
  fs st = fs st' ->
  fst (writeToFile w path content appendMode st)
  = fst (writeToFile w path content appendMode st')
  /\ fs (snd (writeToFile w path content appendMode st))
     = fs (snd (writeToFile w path content appendMode st')).
Proof.
  intros E.
  unfold writeToFile, os_OpenFile, file_WriteString, bind, emit, get_fs,
    put_fs, when, ret.
  destruct (mkdir_all w (filepath_Dir w path)); cbn [fs trace fst snd];
    [auto|].
  destruct (open_file w path _); cbn [fs trace fst snd]; [auto|].
  rewrite <- E.
  destruct (fs st path); cbn [fs trace fst snd];
    destruct (has_flag _ _); cbn [fs trace fst snd];
    try (destruct (has_flag _ _); cbn [fs trace fst snd]);
    destruct (write_string w path content) as [[n e]|];
    cbn [fs trace fst snd]; rewrite ?fs_set_same; auto.
Qed.

Lemma silent_nil_kinds (ext : list Event) :
  silent ext = [] -> runs ext = [] /\ fileops ext = [].
Proof.
  induction ext as [|e ext IH]; [auto|].
  destruct e; cbn; intros H; try discriminate. auto.
Qed.

(** [writeToFile], observed: its events, and that it returns. *)
Lemma writeToFile_trace
      (w : World) (path content : gostring) (appendMode : bool) (st : State) :
  let r := writeToFile w path content appendMode st in
  let ext := writeToFile_events w path content appendMode in
  trace (snd r) = trace st ++ ext /\ fileops ext = ext /\ runs ext = [].
Proof.
  intros r ext. subst r ext.
  unfold writeToFile, writeToFile_events, os_OpenFile, file_WriteString,
    bind, emit, get_fs, put_fs, when, ret.
  destruct (mkdir_all w (filepath_Dir w path)) as [e|]; cbn [fs trace fst snd];
    [auto|].
  writeToFile_flags appendMode;
    (destruct (open_file w path _) as [e|]; cbn [fs trace fst snd];
     [ split; [now rewrite <- app_assoc|auto] | ]);
    (destruct (fs st path) as [old|]; cbn [fs trace fst snd];
     destruct (write_string w path content) as [[n e]|]; cbn [fs trace fst snd];
     (split; [now rewrite <- !app_assoc|auto])).
Qed.

Lemma writeToFile_returns
      (w : World) (path content : gostring) (appendMode : bool) (st : State) :
  exists oe, fst (writeToFile w path content appendMode st) = Done oe.
Proof.
  unfold writeToFile, os_OpenFile, file_WriteString, bind, emit, get_fs,
    put_fs, when, ret.
  destruct (mkdir_all w (filepath_Dir w path)); cbn [fs trace fst snd];
    [eauto|].
  writeToFile_flags appendMode;
    (destruct (open_file w path _); cbn [fs trace fst snd]; [eauto|]);
    destruct (fs st path); cbn [fs trace fst snd];
    destruct (write_string w path content) as [[n e]|];
    cbn [fs trace fst snd]; eauto.
Qed.

(** The file block, observed: with [--no-temp] it does nothing; else its
    operations on files are those of [writeToFile], it starts no process,
    and it ends well exactly when [writeToFile] returns no error. *)
Lemma persistStep_shape (w : World) (config : Config) (full : gostring)
      (st : State) :
  let r := persistStep w config full st in
  let target := targetFile_of config in
  let wr := writeToFile w target full (append config) st in
  (noTemp config = true -> r = (Done tt, st))
  /\ (noTemp config = false ->
      fs (snd r) = fs (snd wr)
      /\ (fst r = Done tt /\ fst wr = Done None
          \/ fst r = Exit 1 /\ fst wr <> Done None)
      /\ exists ext,
          trace (snd r) = trace st ++ ext
          /\ runs ext = []
          /\ fileops ext = writeToFile_events w target full (append config)).
Proof.
  intros r target wr. subst r target wr. unfold persistStep.
  destruct (noTemp config); cbn [negb]; split; try discriminate;
    [reflexivity|]. intros _.
  pose proof (writeToFile_trace w (targetFile_of config)
                full (append config) st) as (Ht & Hf & Hr).
  pose proof (writeToFile_returns w (targetFile_of config) full
                (append config) st) as (oe & Hoe).
  unfold bind.
  destruct (writeToFile w (targetFile_of config) full (append config) st)
    as [o st1]. cbn [fst snd] in *. subst o.
  destruct oe as [e|].
  - unfold print_stderr, os_Exit, emit. cbn [fst snd fs trace].
    split; [reflexivity|]. split; [right; split; [reflexivity|discriminate]|].
    eexists (_ ++ [_]). rewrite Ht, <- app_assoc.
    split; [reflexivity|]. rewrite runs_app, fileops_app, Hr, Hf.
    cbn. now rewrite app_nil_r.
  - unfold when, print_stdout, emit, ret.
    destruct (verbose config); cbn [fst snd fs trace].
    + split; [reflexivity|]. split; [now left|].
      eexists (_ ++ [_]). rewrite Ht, <- app_assoc.
      split; [reflexivity|]. rewrite runs_app, fileops_app, Hr, Hf.
      cbn. now rewrite app_nil_r.
    + split; [reflexivity|]. split; [now left|].
      eexists. split; [exact Ht|]. auto.
Qed.

(** Every run of [main], observed in two parts: what happens up to and
    including the file block, and what happens after it. *)
Lemma main_shape (w : World) (config : Config) (args : list gostring)
      (st : State) :
  let run := main w config args st in
  let target := targetFile_of config in
  let tool := fst (detectClipboardTool w) in
  let targs := snd (detectClipboardTool w) in
  exists ext1 ext2,
    trace (snd run) = trace st ++ ext1 ++ ext2
    /\ fileops ext2 = []
    /\ ((* help, version, or no command *)
        ((help config = true \/ showVersion config = true \/ args = [])
         /\ runs ext1 = [] /\ fileops ext1 = [] /\ ext2 = []
         /\ fs (snd run) = fs st
         /\ (fst run = Exit 0 \/ fst run = Exit 1))
        \/ (* the executor reports an error *)
        (exists name rest out e,
            args = name :: rest
            /\ fst (executeCommand w args (stderr config) st)
               = Done (out, Some e)
            /\ runs ext1 = [EvRun name rest []] /\ fileops ext1 = []
            /\ ext2 = [] /\ fs (snd run) = fs st /\ fst run = Exit 1)
        \/ (* the command was captured *)
        (exists name rest captured,
            args = name :: rest
            /\ help config = false /\ showVersion config = false
            /\ fst (executeCommand w args (stderr config) st)
               = Done (captured, None)
            /\ runs ext1 = [EvRun name rest []]
            /\ let text := transform config captured in
               let record := record_of w args text in
               let wr := writeToFile w target record (append config) st in
               (noTemp config = true /\ fileops ext1 = []
                /\ fs (snd run) = fs st
                \/ noTemp config = false
                   /\ fileops ext1 =
                        writeToFile_events w target record (append config)
                   /\ fs (snd run) = fs (snd wr))
               /\ (noTemp config = false /\ fst wr <> Done None
                   /\ ext2 = [] /\ fst run = Exit 1
                   \/ (noTemp config = true \/ fst wr = Done None)
                      /\ runs ext2 = clipboard_runs config tool targs text
                      /\ (fst run = Done tt \/ fst run = Exit 1)))).
Proof.
  intros run target tool targs. subst run target tool targs.
  destruct (help config) eqn:Hh.
  { unfold main. rewrite Hh. eexists [_], []. cbn.
    split; [reflexivity|]. split; [reflexivity|]. left. auto 10. }
  destruct (showVersion config) eqn:Hv.
  { unfold main. rewrite Hh, Hv. eexists [_], []. cbn.
    split; [reflexivity|]. split; [reflexivity|]. left. auto 10. }
  destruct args as [|name rest].
  { unfold main. rewrite Hh, Hv. eexists [_; _], []. cbn.
    split; [now rewrite <- app_assoc|]. split; [reflexivity|].
    left. auto 10. }
  pose proof (executeCommand_eq w name rest (stderr config) st) as Hx.
  set (res := match exec_run w (trace st) name rest [] with
              | SpawnFailed e => _ | Ran ws None => _ | Ran ws (Some e) => _
              end) in Hx.
  destruct res as [captured [e|]].
  { rewrite (main_executor_error w config name rest st captured e Hh Hv Hx).
    cbn [fst snd fs trace]. eexists [_; _], [].
    split; [reflexivity|]. split; [reflexivity|]. right. left.
    exists name, rest, captured, e. rewrite Hx. auto 10. }
  rewrite main_runs_command by assumption.
  rewrite (bind_Done _ _ _ _ _ Hx).
  rewrite (bind_Done _ _ _ (ran st name rest []) tt) by reflexivity.
  rewrite (bind_Done _ _ _ _ _ (delayStep_eq config (ran st name rest []))).
  cbn [ran fs trace]. cbv zeta.
  set (text := transform config captured).
  set (record := record_of w (name :: rest) text).
  set (s2 := {| fs := fs st; trace := _ |}).
  destruct (delay_events_kinds config) as [Hdr Hdf].
  destruct (persistStep_shape w config record s2) as [Hpt Hpf].
  destruct (writeToFile_indep w (targetFile_of config) record (append config)
              s2 st eq_refl) as [Hi1 Hi2].
  pose proof (pair_eta (persistStep w config record s2)) as Ep.
  set (r3 := persistStep w config record s2) in *.
  assert (Hfinish : forall s3 extp,
    r3 = (Done tt, s3) ->
    trace s3 = trace s2 ++ extp -> runs extp = [] ->
    (noTemp config = true /\ fileops extp = [] /\ fs s3 = fs st
     \/ noTemp config = false
        /\ fileops extp =
             writeToFile_events w (targetFile_of config) record
                                (append config)
        /\ fs s3 =
             fs (snd (writeToFile w (targetFile_of config) record
                        (append config) st))) ->
    (noTemp config = true
     \/ fst (writeToFile w (targetFile_of config) record (append config) st)
        = Done None) ->
    exists ext1 ext2,
      trace (snd (bind (fun _ => r3)
                    (fun _ => bind (publishStep w config text)
                                (fun _ => echoStep config text)) s2))
      = trace st ++ ext1 ++ ext2
      /\ fileops ext2 = []
      /\ runs ext1 = [EvRun name rest []]
      /\ (noTemp config = true /\ fileops ext1 = []
          /\ fs (snd (bind (fun _ => r3)
                    (fun _ => bind (publishStep w config text)
                                (fun _ => echoStep config text)) s2)) = fs st
          \/ noTemp config = false
             /\ fileops ext1 =
                  writeToFile_events w (targetFile_of config) record
                                     (append config)
             /\ fs (snd (bind (fun _ => r3)
                    (fun _ => bind (publishStep w config text)
                                (fun _ => echoStep config text)) s2))
                = fs (snd (writeToFile w (targetFile_of config) record
                             (append config) st)))
      /\ runs ext2 = clipboard_runs config (fst (detectClipboardTool w))
                                    (snd (detectClipboardTool w)) text
      /\ (fst (bind (fun _ => r3)
                    (fun _ => bind (publishStep w config text)
                                (fun _ => echoStep config text)) s2) = Done tt
          \/ fst (bind (fun _ => r3)
                    (fun _ => bind (publishStep w config text)
                                (fun _ => echoStep config text)) s2) = Exit 1)).
  { intros s3 extp E3 Ht3 Hr3 Hfiles Hok.
    rewrite (bind_Done (fun _ => r3) _ s2 s3 tt E3).
    destruct (publishStep_runs w config text s3)
      as (Hfs4 & Ho4 & extc & Htc & Hfc & Hrc).
    pose proof (pair_eta (publishStep w config text s3)) as Ec.
    set (r4 := publishStep w config text s3) in *.
    assert (Hfs : fs (snd r4) = fs s3) by exact Hfs4.
    assert (Hfiles' :
      noTemp config = true /\ fileops ([EvRun name rest []]
                                 ++ delay_events config ++ extp) = []
      /\ fs (snd r4) = fs st
      \/ noTemp config = false
         /\ fileops ([EvRun name rest []] ++ delay_events config ++ extp) =
              writeToFile_events w (targetFile_of config) record
                                 (append config)
         /\ fs (snd r4) =
              fs (snd (writeToFile w (targetFile_of config) record
                         (append config) st))).
    { rewrite !fileops_app, Hdf, Hfs. cbn [fileops filter isFileEv app].
      exact Hfiles. }
    assert (Hruns1 : runs ([EvRun name rest []] ++ delay_events config
                             ++ extp) = [EvRun name rest []])
      by (rewrite !runs_app, Hdr, Hr3; reflexivity).
    destruct Ho4 as [Ho4|Ho4]; rewrite Ho4 in Ec.
    - rewrite (bind_Done _ _ _ _ _ Ec).
      destruct (echoStep_facts config text (snd r4))
        as (exte & -> & _ & Hs & _).
      destruct (silent_nil_kinds exte Hs) as [Hre Hfe].
      cbn [fst snd fs trace].
      exists ([EvRun name rest []] ++ delay_events config ++ extp),
             (extc ++ exte).
      split; [rewrite Htc, Ht3; unfold s2; cbn [trace];
              now rewrite <- !app_assoc|].
      split; [now rewrite fileops_app, Hfc, Hfe|].
      split; [exact Hruns1|]. split; [exact Hfiles'|].
      split; [now rewrite runs_app, Hrc, Hre, app_nil_r|]. now left.
    - rewrite (bind_Exit _ _ _ _ _ Ec). cbn [fst snd].
      exists ([EvRun name rest []] ++ delay_events config ++ extp), extc.
      split; [rewrite Htc, Ht3; unfold s2; cbn [trace];
              now rewrite <- !app_assoc|].
      split; [exact Hfc|]. split; [exact Hruns1|].
      split; [exact Hfiles'|]. split; [exact Hrc|]. now right. }
  change (persistStep w config record;;
          publishStep w config text;; echoStep config text)
    with (bind (fun s => persistStep w config record s)
               (fun _ => bind (publishStep w config text)
                           (fun _ => echoStep config text))).
  assert (Hbind : forall k : unit -> M unit,
             bind (fun s => persistStep w config record s) k s2
             = bind (fun _ => r3) k s2) by reflexivity.
  rewrite Hbind.
  destruct (noTemp config) eqn:Hnt.
  - specialize (Hpt eq_refl). fold r3 in Hpt.
    destruct (Hfinish s2 [] Hpt (eq_sym (app_nil_r _)) eq_refl
                (or_introl (conj eq_refl (conj eq_refl eq_refl)))
                (or_introl eq_refl))
      as (ext1 & ext2 & Ht & Hf2 & Hr1 & Hfl & Hr2 & Ho).
    exists ext1, ext2. split; [exact Ht|]. split; [exact Hf2|].
    right. right. exists name, rest, captured.
    rewrite Hx. cbn [fst].
    do 5 (split; [reflexivity || assumption|]).
    split; [exact Hfl|]. right. auto.
  - destruct (Hpf eq_refl) as (Hfs3 & Ho3 & extp & Htp & Hrp & Hfp).
    fold r3 in Hfs3, Ho3, Htp. rewrite Hi1 in Ho3. rewrite Hi2 in Hfs3.
    destruct Ho3 as [[Ho3 Hw]|[Ho3 Hw]]; rewrite Ho3 in Ep.
    + destruct (Hfinish (snd r3) extp Ep Htp Hrp
                  (or_intror (conj eq_refl (conj Hfp Hfs3)))
                  (or_intror Hw))
        as (ext1 & ext2 & Ht & Hf2 & Hr1 & Hfl & Hr2 & Ho).
      exists ext1, ext2. split; [exact Ht|]. split; [exact Hf2|].
      right. right. exists name, rest, captured.
      rewrite Hx. cbn [fst].
      do 5 (split; [reflexivity || assumption|]).
      split; [exact Hfl|]. right. auto.
    + rewrite (bind_Exit (fun _ => r3) _ s2 _ _ Ep). cbn [fst snd].
      exists ([EvRun name rest []] ++ delay_events config ++ extp), [].
      split; [rewrite Htp; unfold s2; cbn [trace];
              now rewrite <- !app_assoc, app_nil_r|].
      split; [reflexivity|].
      right. right. exists name, rest, captured.
      rewrite Hx. cbn [fst].
      do 4 (split; [reflexivity || assumption|]).
      split; [rewrite !runs_app, Hdr, Hrp; reflexivity|].
      split.
      * right. split; [reflexivity|].
        split; [rewrite !fileops_app, Hdf; exact Hfp|exact Hfs3].
      * left. auto.
Qed.

(** The three early exits of [main], in the order the source tests them. *)
Lemma main_early (w : World) (config : Config) (args : list gostring)
      (st : State) :
  (help config = true ->
   main w config args st =
     (Exit 0, {| fs := fs st;
                 trace := trace st ++ [EvStdout (helpText ++ [nl])] |}))
  /\ (help config = false -> showVersion config = true ->
      main w config args st =
        (Exit 0, {| fs := fs st;
                    trace := trace st ++
                      [EvStdout (go "cb version " ++ version ++ [nl])] |}))
  /\ (help config = false -> showVersion config = false -> args = [] ->
      main w config args st =
        (Exit 1, {| fs := fs st;
                    trace := trace st ++
                      [EvStderr (go "Error: no command specified" ++ [nl]);
                       EvStdout (helpText ++ [nl])] |})).
Proof.
  unfold main. split; [|split].
  - intros ->. reflexivity.
  - intros -> ->. reflexivity.
  - intros -> -> ->. cbn. now rewrite <- app_assoc.
Qed.

(** What one [writeToFile] may touch. *)
Lemma writeToFile_other_files (w : World) (path content : gostring)
      (appendMode : bool) (st : State) (p : gostring) :
  p <> path ->
  fs (snd (writeToFile w path content appendMode st)) p = fs st p.
Proof.
  intros Hp.
  unfold writeToFile, os_OpenFile, file_WriteString, bind, emit, get_fs,
    put_fs, when, ret.
  destruct (mkdir_all w (filepath_Dir w path)); cbn [fs trace fst snd];
    [reflexivity|].
  writeToFile_flags appendMode;
    (destruct (open_file w path _); cbn [fs trace fst snd]; [reflexivity|]);
    destruct (fs st path); cbn [fs trace fst snd];
    destruct (write_string w path content) as [[n e]|];
    cbn [fs trace fst snd]; now rewrite !fs_set_other by assumption.
Qed.

(** The path a file event names; [None] for the other events. *)
Lemma writeToFile_events_paths (w : World) (path content : gostring)
      (appendMode : bool) (e : Event) :
  In e (writeToFile_events w path content appendMode) ->
  e = EvMkdirAll (filepath_Dir w path) perm_0755
  \/ (exists flags, e = EvOpenFile path flags perm_0644)
  \/ e = EvWrite path content \/ e = EvClose path.
Proof.
  unfold writeToFile_events. intros [H|H]; [now left|].
  destruct (mkdir_all w (filepath_Dir w path)); [destruct H|].
  destruct H as [H|H]; [right; left; eauto|].
  destruct (open_file w path _); [destruct H|].
  destruct H as [H|[H|[]]]; auto.
Qed.

(** ** Orchestrator: exit status *)

(** [main] ends in one of three ways: it returns (status 0), or it calls
    [os.Exit] with 0 or with 1.  It never panics: the empty argument list,
    on which [executeCommand] would index out of range, is turned away
    before.  [os.Exit(0)] is reached exactly under [--help] or
    [--version], whatever else is on the command line, and then, as when no
    command is given, no process is started and no file operation is
    made. *)
Theorem main_exit_status (w : World) (config : Config)
        (args : list gostring) (st : State) :
  let run := main w config args st in
  fst (executeCommand w [] (stderr config) st) = Panic
  /\ (fst run = Done tt \/ fst run = Exit 0 \/ fst run = Exit 1)
  /\ (fst run = Exit 0 <-> help config = true \/ showVersion config = true)
  /\ (help config = true \/ showVersion config = true \/ args = [] ->
      fst run <> Done tt
      /\ fs (snd run) = fs st
      /\ exists ext, trace (snd run) = trace st ++ ext
                     /\ runs ext = [] /\ fileops ext = []).
Proof.
  intros run. subst run. split; [reflexivity|].
  destruct (main_early w config args st) as (Eh & Ev & En).
  destruct (main_shape w config args st)
    as (ext1 & ext2 & Ht & Hf2 & Hcases). cbv zeta in Hcases.
  split; [|split].
  - destruct Hcases as [(_ & _ & _ & _ & _ & [H|H])
                       |[(name & rest & out & e & _ & _ & _ & _ & _ & _ & H)
                        |(name & rest & captured & _ & _ & _ & _ & _ & _ & H)]];
      auto.
    destruct H as [(_ & _ & _ & H)|(_ & _ & [H|H])]; auto.
  - split.
    + intros H0.
      destruct (help config) eqn:Hh; [now left|].
      destruct (showVersion config) eqn:Hv; [now right|]. exfalso.
      destruct Hcases as [([H|[H|H]] & _)
                       |[(name & rest & out & e & _ & _ & _ & _ & _ & _ & H)
                        |(name & rest & captured & _ & _ & _ & _ & _ & _ & H)]];
        try discriminate.
      * rewrite (En eq_refl eq_refl H) in H0. discriminate.
      * rewrite H in H0. discriminate.
      * destruct H as [(_ & _ & _ & H)|(_ & _ & [H|H])];
          rewrite H in H0; discriminate.
    + intros [H|H].
      * now rewrite (Eh H).
      * destruct (help config) eqn:Hh; [now rewrite (Eh eq_refl)|].
        now rewrite (Ev eq_refl H).
  - intros Hearly.
    assert (Hm : exists c ext,
               main w config args st =
                 (Exit c, {| fs := fs st; trace := trace st ++ ext |})
               /\ runs ext = [] /\ fileops ext = []).
    { destruct (help config) eqn:Hh.
      { eexists _, _. split; [exact (Eh eq_refl)|]. now split. }
      destruct (showVersion config) eqn:Hv.
      { eexists _, _. split; [exact (Ev eq_refl eq_refl)|]. now split. }
      destruct Hearly as [H|[H|H]]; try discriminate.
      eexists _, _. split; [exact (En eq_refl eq_refl H)|]. now split. }
    destruct Hm as (c & ext & -> & Hr & Hf). cbn [fst snd fs trace].
    split; [discriminate|]. split; [reflexivity|]. now exists ext.
Qed.

Lemma main_exit_status_witness :
  fst (main bare_world default_config [] (init fs_empty)) <> Done tt
  /\ fs (snd (main bare_world default_config [] (init fs_empty))) = fs_empty.
Proof.
  destruct (main_exit_status bare_world default_config [] (init fs_empty))
    as (_ & _ & _ & H).
  destruct (H (or_intror (or_intror eq_refl))) as (H1 & H2 & _).
  split; [exact H1|exact H2].
Defined.

(** ** Orchestrator: files *)

(** With [--no-temp], [main] makes no directory, opens, writes and closes
    no file, and leaves every file as it was, however the run ends. *)
Theorem main_no_temp_touches_no_file (w : World) (config : Config)
        (args : list gostring) (st : State) :
  let run := main w config args st in
  noTemp config = true ->
  fs (snd run) = fs st
  /\ exists ext, trace (snd run) = trace st ++ ext /\ fileops ext = [].
Proof.
  intros run Hnt. subst run.
  destruct (main_shape w config args st)
    as (ext1 & ext2 & Ht & Hf2 & Hcases). cbv zeta in Hcases.
  assert (H : fs (snd (main w config args st)) = fs st /\ fileops ext1 = []).
  { destruct Hcases as [(_ & _ & Hf & _ & Hfs & _)
                       |[(name & rest & out & e & _ & _ & _ & Hf & _ & Hfs & _)
                        |(name & rest & captured & _ & _ & _ & _ & _ & H & _)]];
      auto.
    destruct H as [(_ & Hf & Hfs)|(Hc & _)]; [auto|congruence]. }
  destruct H as [Hfs Hf1]. split; [exact Hfs|].
  exists (ext1 ++ ext2). split; [exact Ht|].
  now rewrite fileops_app, Hf1, Hf2.
Qed.

Lemma main_no_temp_touches_no_file_witness :
  fs (snd (main (sample_world hello_child) no_temp_config [go "echo"; go "hello"]
             (init fs_empty))) (go "/tmp/cb.txt") = None.
Proof.
  destruct (main_no_temp_touches_no_file (sample_world hello_child)
              no_temp_config [go "echo"; go "hello"] (init fs_empty) eq_refl)
    as [H _].
  exact (f_equal (fun f => f (go "/tmp/cb.txt")) H).
Defined.

(** [main] works on one file only, the target: the file given with [-f],
    or /tmp/cb.txt.  Every other file is left as it was, and the only
    operations on the file system are: making the directory of the target,
    and opening, writing and closing the target. *)
Theorem main_touches_the_target_only (w : World) (config : Config)
        (args : list gostring) (st : State) :
  let run := main w config args st in
  let target := targetFile_of config in
  (file config <> [] -> target = file config)
  /\ (file config = [] -> target = go "/tmp/cb.txt")
  /\ (forall p, p <> target -> fs (snd run) p = fs st p)
  /\ exists ext,
      trace (snd run) = trace st ++ ext
      /\ forall e, In e (fileops ext) ->
           e = EvMkdirAll (filepath_Dir w target) perm_0755
           \/ (exists flags, e = EvOpenFile target flags perm_0644)
           \/ (exists content, e = EvWrite target content)
           \/ e = EvClose target.
Proof.
  intros run target. subst run target.
  split; [|split].
  { intros H. unfold targetFile_of.
    destruct (gostring_eqb (file config) []) eqn:E; [|reflexivity].
    apply gostring_eqb_eq in E. contradiction. }
  { intros H. unfold targetFile_of. rewrite H. reflexivity. }
  destruct (main_shape w config args st)
    as (ext1 & ext2 & Ht & Hf2 & Hcases). cbv zeta in Hcases.
  assert (H : fs (snd (main w config args st)) = fs st /\ fileops ext1 = []
              \/ exists content,
                  fs (snd (main w config args st))
                  = fs (snd (writeToFile w (targetFile_of config) content
                               (append config) st))
                  /\ fileops ext1
                     = writeToFile_events w (targetFile_of config) content
                         (append config)).
  { destruct Hcases as [(_ & _ & Hf & _ & Hfs & _)
                       |[(name & rest & out & e & _ & _ & _ & Hf & _ & Hfs & _)
                        |(name & rest & captured & _ & _ & _ & _ & _ & H & _)]];
      auto.
    destruct H as [(_ & Hf & Hfs)|(_ & Hf & Hfs)]; [auto|].
    right. eexists. split; [exact Hfs|exact Hf]. }
  split.
  - intros p Hp. destruct H as [[-> _]|(content & -> & _)]; [reflexivity|].
    now apply writeToFile_other_files.
  - exists (ext1 ++ ext2). split; [exact Ht|].
    intros e. rewrite fileops_app, Hf2, app_nil_r.
    destruct H as [[_ ->]|(content & _ & ->)]; [intros []|].
    intros Hin. apply writeToFile_events_paths in Hin.
    destruct Hin as [Hin|[Hin|[Hin|Hin]]]; eauto.
Qed.

Lemma main_touches_the_target_only_witness :
  targetFile_of default_config = go "/tmp/cb.txt"
  /\ fs (snd (main (sample_world hello_child) default_config
                [go "echo"; go "hello"] (init fs_empty))) (go "/etc/passwd")
     = None.
Proof.
  destruct (main_touches_the_target_only (sample_world hello_child)
              default_config [go "echo"; go "hello"] (init fs_empty))
    as (_ & Hd & Hp & _).
  split; [exact (Hd eq_refl)|].
  apply (Hp (go "/etc/passwd")). discriminate.
Defined.

(** ** Orchestrator: processes *)

Lemma In_runs (e : Event) (ext : list Event) :
  In e (runs ext) <-> In e ext /\ isRunEv e = true.
Proof. apply filter_In. Qed.

Lemma clipboard_runs_In (config : Config) (tool : gostring)
      (targs : list gostring) (output : gostring) (e : Event) :
  In e (clipboard_runs config tool targs output) ->
  noClipboard config = false
  /\ (e = EvRun tool targs [] \/ e = EvRun tool targs output).
Proof.
  unfold clipboard_runs. destruct (noClipboard config); [intros []|].
  cbn [orb]. destruct (gostring_eqb tool []); [intros []|].
  destruct (clear config); cbn; intuition.
Qed.

(** Whatever the flags, [main] starts no program other than the command it
    is given and the clipboard tool found by [detectClipboardTool].  The
    command is started with exactly the given arguments and an empty
    standard input; the tool with its fixed arguments and, on standard
    input, nothing (clearing) or the transformed output.  With [-n] the
    command is the only process. *)
Theorem main_starts_command_and_tool_only (w : World) (config : Config)
        (args : list gostring) (st : State) :
  let run := main w config args st in
  let tool := fst (detectClipboardTool w) in
  let targs := snd (detectClipboardTool w) in
  exists ext,
    trace (snd run) = trace st ++ ext
    /\ (forall name a input,
           In (EvRun name a input) ext ->
           (name :: a = args /\ input = [])
           \/ (noClipboard config = false /\ name = tool /\ a = targs
               /\ (input = []
                   \/ exists captured,
                       fst (executeCommand w args (stderr config) st)
                         = Done (captured, None)
                       /\ input = transform config captured)))
    /\ (length (runs ext) <= 3)%nat.
Proof.
  intros run tool targs. subst run tool targs.
  destruct (main_shape w config args st)
    as (ext1 & ext2 & Ht & Hf2 & Hcases). cbv zeta in Hcases.
  exists (ext1 ++ ext2). split; [exact Ht|].
  assert (Hin : forall e, In e (ext1 ++ ext2) -> isRunEv e = true ->
                          In e (runs ext1) \/ In e (runs ext2)).
  { intros e Hi He. apply in_app_or in Hi.
    destruct Hi; [left|right]; apply In_runs; auto. }
  destruct Hcases as [(_ & Hr & _ & -> & _)
                     |[(name & rest & out & e & -> & _ & Hr & _ & -> & _)
                      |(name & rest & captured & -> & _ & _ & Hx & Hr & _ & H)]].
  - rewrite app_nil_r, Hr. split; [|cbn; lia].
    intros name a input Hi.
    destruct (Hin _ ltac:(rewrite app_nil_r; exact Hi) eq_refl) as [H|[]].
    rewrite Hr in H. destruct H.
  - rewrite app_nil_r, Hr. split; [|cbn; lia].
    intros name' a input Hi.
    destruct (Hin _ ltac:(rewrite app_nil_r; exact Hi) eq_refl) as [H|[]].
    rewrite Hr in H. destruct H as [H|[]]. inversion H. now left.
  - assert (Hr2 : ext2 = []
                  \/ runs ext2 =
                       clipboard_runs config (fst (detectClipboardTool w))
                         (snd (detectClipboardTool w))
                         (transform config captured)).
    { destruct H as [(_ & _ & H & _)|(_ & H & _)]; auto. }
    split.
    + intros name' a input Hi.
      destruct (Hin _ Hi eq_refl) as [H1|H2].
      * rewrite Hr in H1. destruct H1 as [H1|[]]. inversion H1. now left.
      * destruct Hr2 as [-> | Hr2]; [destruct H2|]. rewrite Hr2 in H2.
        apply clipboard_runs_In in H2. destruct H2 as [Hnc [H2|H2]];
          inversion H2; subst; right; split; auto; split; auto; split; auto.
        right. exists captured. split; [exact Hx|reflexivity].
    + rewrite runs_app, length_app, Hr. cbn [length].
      destruct Hr2 as [-> | ->]; [cbn; lia|].
      unfold clipboard_runs.
      destruct (noClipboard config || gostring_eqb _ []); [cbn; lia|].
      destruct (clear config); cbn; lia.
Qed.

Lemma main_starts_command_and_tool_only_witness :
  exists ext,
    trace (snd (main (sample_world hello_child) file_only_config
                  [go "echo"; go "hello"] (init fs_empty))) = [] ++ ext
    /\ forall name a input,
        In (EvRun name a input) ext ->
        name :: a = [go "echo"; go "hello"] /\ input = [].
Proof.
  destruct (main_starts_command_and_tool_only (sample_world hello_child)
              file_only_config [go "echo"; go "hello"] (init fs_empty))
    as (ext & Ht & H & _).
  exists ext. split; [exact Ht|].
  intros name a input Hi.
  destruct (H name a input Hi) as [H1|(H1 & _)]; [exact H1|discriminate H1].
Defined.

(** A failing write is fatal and comes before the clipboard: when the
    command was captured and [writeToFile] returns an error, [main] exits
    with status 1 and the command stays the only process started; the
    clipboard tool is not run. *)
Theorem main_write_failure_is_fatal (w : World) (config : Config)
        (args : list gostring) (st : State) (captured : gostring) :
  let run := main w config args st in
  let record := record_of w args (transform config captured) in
  help config = false -> showVersion config = false ->
  noTemp config = false ->
  fst (executeCommand w args (stderr config) st) = Done (captured, None) ->
  fst (writeToFile w (targetFile_of config) record (append config) st)
    <> Done None ->
  fst run = Exit 1
  /\ exists name rest ext,
      args = name :: rest
      /\ trace (snd run) = trace st ++ ext
      /\ runs ext = [EvRun name rest []]
      /\ fileops ext = writeToFile_events w (targetFile_of config) record
                         (append config).
Proof.
  intros run record Hh Hv Hnt Hx Hw. subst run record.
  destruct (main_shape w config args st)
    as (ext1 & ext2 & Ht & Hf2 & Hcases). cbv zeta in Hcases.
  destruct Hcases as [([H|[H|H]] & _)
                     |[(name & rest & out & e & _ & Hx' & _)
                      |(name & rest & captured' & -> & _ & _ & Hx' & Hr & Hf
                        & H)]]; try congruence.
  { subst args. discriminate Hx. }
  assert (captured' = captured) by congruence. subst captured'.
  destruct H as [(_ & _ & -> & Ho)|([H|H] & _)]; try congruence.
  split; [exact Ho|]. exists name, rest, ext1.
  rewrite app_nil_r in Ht. split; [reflexivity|]. split; [exact Ht|].
  split; [exact Hr|].
  destruct Hf as [(Hc & _)|(_ & Hf & _)]; [congruence|exact Hf].
Qed.

Lemma main_write_failure_is_fatal_witness :
  fst (main faulty_world default_config [go "true"] (init fs_empty)) = Exit 1.
Proof.
  exact (proj1 (main_write_failure_is_fatal faulty_world default_config
                  [go "true"] (init fs_empty) [] eq_refl eq_refl eq_refl
                  eq_refl ltac:(discriminate))).
Defined.

(** The file is final before the clipboard is touched.  When the command
    was captured and [--no-temp] is not set, the files are, at the end of
    the run, as [writeToFile] left them, whether the clipboard step then
    succeeds or ends the program with status 1; and every operation on the
    file system comes before the first start of the clipboard tool. *)
Theorem main_file_final_before_clipboard (w : World) (config : Config)
        (args : list gostring) (st : State) (captured : gostring) :
  let run := main w config args st in
  let record := record_of w args (transform config captured) in
  let wr := writeToFile w (targetFile_of config) record (append config) st in
  let tool := fst (detectClipboardTool w) in
  let targs := snd (detectClipboardTool w) in
  help config = false -> showVersion config = false ->
  noTemp config = false ->
  fst (executeCommand w args (stderr config) st) = Done (captured, None) ->
  fs (snd run) = fs (snd wr)
  /\ exists name rest before after,
      args = name :: rest
      /\ trace (snd run) = trace st ++ before ++ after
      /\ runs before = [EvRun name rest []]
      /\ fileops before = writeToFile_events w (targetFile_of config) record
                            (append config)
      /\ fileops after = []
      /\ (fst wr = Done None ->
          runs after = clipboard_runs config tool targs
                         (transform config captured)).
Proof.
  intros run record wr tool targs Hh Hv Hnt Hx.
  subst run record wr tool targs.
  destruct (main_shape w config args st)
    as (ext1 & ext2 & Ht & Hf2 & Hcases). cbv zeta in Hcases.
  destruct Hcases as [([H|[H|H]] & _)
                     |[(name & rest & out & e & _ & Hx' & _)
                      |(name & rest & captured' & -> & _ & _ & Hx' & Hr & Hf
                        & H)]]; try congruence.
  { subst args. discriminate Hx. }
  assert (captured' = captured) by congruence. subst captured'.
  destruct Hf as [(Hc & _)|(_ & Hf & Hfs)]; [congruence|].
  split; [exact Hfs|]. exists name, rest, ext1, ext2.
  do 5 (split; [reflexivity || assumption|]).
  intros Hw. destruct H as [(_ & Hne & _)|(_ & H & _)]; [contradiction|exact H].
Qed.

Lemma main_file_final_before_clipboard_witness :
  fs (snd (main bare_world default_config [go "true"] (init fs_empty)))
     (go "/tmp/cb.txt")
  = Some (go "[2025-11-17 19:41:29 " ++ [dquote] ++ go "true" ++ [dquote]
             ++ go "]:" ++ [nl; nl])
  /\ fst (main bare_world default_config [go "true"] (init fs_empty))
     = Exit 1.
Proof.
  destruct (main_file_final_before_clipboard bare_world default_config
              [go "true"] (init fs_empty) [] eq_refl eq_refl eq_refl eq_refl)
    as [H _].
  split; [|reflexivity].
  exact (f_equal (fun f => f (go "/tmp/cb.txt")) H).
Defined.

(** ** ANSI stripping: fixed points, and lines *)

Lemma matchANSI_length (s : gostring) (n : nat) :
  matchANSI s = Some n -> (3 <= n <= length s)%nat.
Proof.
  intros H. destruct (matchANSI_sound s n H) as (E & rest & HE & -> & ->).
  destruct HE as (ps & l & -> & _ & _).
  rewrite length_app. cbn [length]. rewrite length_app. cbn [length]. lia.
Qed.

Lemma replaceAll_length (s : gostring) :
  forall skip, (length (replaceAll skip s) <= length s - skip)%nat
               \/ (length s < skip)%nat /\ replaceAll skip s = [].
Proof.
  induction s as [|c t IH]; intros skip.
  - destruct skip; cbn; [left; lia|right; split; [lia|reflexivity]].
  - destruct skip as [|k].
    + left. cbn [replaceAll].
      destruct (matchANSI (c :: t)) as [n|] eqn:Em.
      * apply matchANSI_length in Em. cbn [length] in *.
        destruct (IH (Nat.pred n)) as [H|[H _]]; lia.
      * cbn [length]. destruct (IH 0%nat) as [H|[H _]]; lia.
    + cbn [replaceAll length].
      destruct (IH k) as [H|[H ->]]; [left; lia|right; split; [lia|easy]].
Qed.

Lemma stripANSI_length (s : gostring) :
  (length (stripANSI s) <= length s)%nat.
Proof.
  unfold stripANSI. destruct (replaceAll_length s 0) as [H|[H _]]; lia.
Qed.

Lemma stripANSI_match (s : gostring) (n : nat) :
  matchANSI s = Some n -> stripANSI s = stripANSI (skipn n s).
Proof.
  intros H. destruct (matchANSI_sound s n H) as (E & rest & HE & -> & ->).
  rewrite skipn_app, Nat.sub_diag, skipn_all. cbn [skipn app].
  now apply stripANSI_escape.
Qed.

Lemma stripANSI_shrinks (pre E post : gostring) :
  isEscape E ->
  (length (stripANSI (pre ++ E ++ post)) < length (pre ++ E ++ post))%nat.
Proof.
  intros HE. induction pre as [|c pre IH].
  - cbn [app]. rewrite (stripANSI_escape E post HE).
    pose proof (stripANSI_length post) as Hl. rewrite length_app.
    destruct HE as (ps & l & -> & _). cbn [length]. lia.
  - cbn [app]. destruct (matchANSI (c :: pre ++ E ++ post)) as [n|] eqn:Em.
    + rewrite (stripANSI_match _ _ Em).
      pose proof (stripANSI_length (skipn n (c :: pre ++ E ++ post))) as Hl.
      rewrite length_skipn in Hl. apply matchANSI_length in Em. lia.
    + rewrite (stripANSI_keep _ _ Em). cbn [length]. lia.
Qed.

(** [stripANSI] never makes a text longer, and the texts it leaves as they
    are are exactly those without an escape sequence: a text with one
    anywhere comes out strictly shorter. *)
Theorem stripANSI_fixed_points (s : gostring) :
  (length (stripANSI s) <= length s)%nat
  /\ (stripANSI s = s <-> EscapeFree s)
  /\ (stripANSI s <> s -> (length (stripANSI s) < length s)%nat).
Proof.
  assert (Hfix : EscapeFree s -> stripANSI s = s).
  { intros Hf. apply stripANSI_Interspersed; [exact Hf|].
    clear Hf. induction s; constructor; assumption. }
  split; [apply stripANSI_length|]. split; [split|].
  - intros Heq pre E post HE ->.
    pose proof (stripANSI_shrinks pre E post HE) as Hl.
    rewrite Heq in Hl. lia.
  - exact Hfix.
  - intros Hne.
    destruct (Nat.eq_dec (length (stripANSI s)) (length s)) as [El|Nl];
      [|pose proof (stripANSI_length s); lia].
    exfalso. apply Hne. apply Hfix. intros pre E post HE ->.
    pose proof (stripANSI_shrinks pre E post HE). lia.
Qed.

Lemma stripANSI_fixed_points_witness :
  (length (stripANSI sample_coloured) < length sample_coloured)%nat.
Proof.
  apply (proj2 (proj2 (stripANSI_fixed_points sample_coloured))).
  vm_compute. discriminate.
Defined.

Lemma matchParams_line (l rest : gostring) :
  sepFree nl l = true -> matchParams (l ++ nl :: rest) = matchParams l.
Proof.
  induction l as [|c l IH]; [reflexivity|].
  unfold sepFree. cbn [forallb app matchParams]. intros H.
  apply andb_prop in H as [_ H].
  destruct (isParam c); [now rewrite (IH H)|reflexivity].
Qed.

Lemma matchANSI_line (l rest : gostring) :
  sepFree nl l = true -> matchANSI (l ++ nl :: rest) = matchANSI l.
Proof.
  destruct l as [|e [|b t]].
  - intros _. cbn [app matchANSI]. destruct rest; reflexivity.
  - intros _. cbn [app matchANSI].
    replace (Byte.eqb nl x5b) with false by reflexivity.
    now rewrite andb_false_r.
  - unfold sepFree. cbn [forallb app matchANSI]. intros H.
    apply andb_prop in H as [_ H]. apply andb_prop in H as [_ H].
    destruct (Byte.eqb e ESC && Byte.eqb b x5b); [|reflexivity].
    now rewrite (matchParams_line t rest H).
Qed.

Lemma replaceAll_line (l rest : gostring) :
  sepFree nl l = true ->
  forall skip, (skip <= length l)%nat ->
    replaceAll skip (l ++ nl :: rest)
    = replaceAll skip l ++ nl :: replaceAll 0 rest.
Proof.
  induction l as [|c t IH]; intros Hl skip Hs.
  - assert (skip = 0%nat) by (cbn in Hs; lia). subst skip.
    cbn [app]. change (replaceAll 0 (nl :: rest))
      with (match matchANSI (nl :: rest) with
            | Some n => replaceAll (Nat.pred n) rest
            | None => nl :: replaceAll 0 rest
            end).
    pose proof (matchANSI_line [] rest eq_refl) as Hm. cbn [app] in Hm.
    now rewrite Hm.
  - assert (Ht : sepFree nl t = true).
    { unfold sepFree in *. cbn [forallb] in Hl.
      now apply andb_prop in Hl as [_ Hl]. }
    destruct skip as [|k].
    + change (replaceAll 0 ((c :: t) ++ nl :: rest))
        with (match matchANSI ((c :: t) ++ nl :: rest) with
              | Some n => replaceAll (Nat.pred n) (t ++ nl :: rest)
              | None => c :: replaceAll 0 (t ++ nl :: rest)
              end).
      rewrite (matchANSI_line (c :: t) rest Hl).
      cbn [replaceAll].
      destruct (matchANSI (c :: t)) as [n|] eqn:Em.
      * apply matchANSI_length in Em. cbn [length] in Em.
        apply (IH Ht). lia.
      * cbn [app]. f_equal. apply (IH Ht). lia.
    + cbn [app replaceAll]. apply (IH Ht). cbn [length] in Hs. lia.
Qed.

Lemma replaceAll_Forall (P : byte -> Prop) (s : gostring) :
  Forall P s -> forall skip, Forall P (replaceAll skip s).
Proof.
  induction 1 as [|c t Hc Ht IH]; intros skip; [destruct skip; constructor|].
  destruct skip as [|k]; [|apply IH].
  cbn [replaceAll]. destruct (matchANSI (c :: t)); [apply IH|].
  constructor; [exact Hc|apply IH].
Qed.

Lemma stripANSI_sepFree (l : gostring) :
  sepFree nl l = true -> sepFree nl (stripANSI l) = true.
Proof.
  unfold sepFree. rewrite !forallb_forall. intros H.
  apply Forall_forall. apply replaceAll_Forall. now apply Forall_forall.
Qed.

Lemma stripANSI_Join (L : list gostring) :
  Forall (fun l => sepFree nl l = true) L ->
  stripANSI (Join L [nl]) = Join (map stripANSI L) [nl].
Proof.
  induction 1 as [|e L He HL IH]; [reflexivity|].
  destruct L as [|e' L']; [reflexivity|].
  rewrite (Join_cons e (e' :: L')) by discriminate.
  change (map stripANSI (e :: e' :: L'))
    with (stripANSI e :: map stripANSI (e' :: L')).
  rewrite (Join_cons (stripANSI e)) by discriminate.
  rewrite <- IH. cbn [app]. unfold stripANSI at 1.
  now apply replaceAll_line; [|lia].
Qed.

Lemma stripANSI_Split (s : gostring) :
  Split (stripANSI s) nl = map stripANSI (Split s nl).
Proof.
  rewrite <- (Join_Split s nl) at 1.
  rewrite (stripANSI_Join _ (Split_sepFree s nl)).
  apply Split_Join.
  - pose proof (Split_nonempty s nl). destruct (Split s nl); easy.
  - apply Forall_forall. intros l Hin. apply in_map_iff in Hin.
    destruct Hin as (l0 & <- & Hin). apply stripANSI_sepFree.
    pose proof (Split_sepFree s nl) as HF. rewrite Forall_forall in HF. auto.
Qed.

Lemma headStage_map {f : gostring -> gostring} (H : Z) (L : list gostring) :
  headStage H (map f L) = map f (headStage H L).
Proof.
  unfold headStage, first_n, len. rewrite length_map.
  destruct ((0 <? H) && _); [apply firstn_map|reflexivity].
Qed.

Lemma tailStage_map {f : gostring -> gostring} (T : Z) (L : list gostring) :
  tailStage T (map f L) = map f (tailStage T L).
Proof.
  unfold tailStage, last_n, len. rewrite length_map.
  destruct ((0 <? T) && _); [apply skipn_map|reflexivity].
Qed.

(** Stripping works line by line: no escape sequence holds a newline, so
    the stripped text has the lines of the text, each stripped, and as many
    of them.  Hence stripping commutes with the head/tail filter and with
    the display limit: cutting the stripped text gives the same as
    stripping the cut text. *)
Theorem stripANSI_line_by_line (s : gostring) (H T : Z) :
  Split (stripANSI s) nl = map stripANSI (Split s nl)
  /\ Count (stripANSI s) nl = Count s nl
  /\ applyLineFilters (stripANSI s) H T = stripANSI (applyLineFilters s H T)
  /\ limitLines (stripANSI s) H = stripANSI (limitLines s H).
Proof.
  assert (Hc : forall H T,
    applyLineFilters (stripANSI s) H T = stripANSI (applyLineFilters s H T)).
  { clear H T. intros H T. rewrite !applyLineFilters_stages.
    rewrite stripANSI_Split, headStage_map, tailStage_map.
    symmetry. apply stripANSI_Join.
    apply (stages_lines H T (Split s nl) (Split_nonempty s nl)
             (Split_sepFree s nl)). }
  split; [apply stripANSI_Split|]. split; [|split].
  - pose proof (Split_Count (stripANSI s) nl) as H1.
    pose proof (Split_Count s nl) as H2.
    rewrite stripANSI_Split in H1. unfold len in *.
    rewrite length_map in H1. lia.
  - apply Hc.
  - rewrite !limitLines_head_only. apply Hc.
Qed.

(** ** Delay *)

(** The delay block does nothing for a delay of zero or less.  For a
    positive delay it sleeps once, for that many seconds as long as the
    product with [time.Second] fits 64 bits, that is up to 9223372036
    seconds; beyond, the product wraps and the sleep is shorter than asked.
    The announcement is printed before the sleep and only in verbose
    mode. *)
Theorem delayStep_duration (config : Config) (st : State) :
  (delay config <= 0 -> delayStep config st = (Done tt, st))
  /\ (0 < delay config ->
      exists d,
        delayStep config st =
          (Done tt,
           {| fs := fs st;
              trace := trace st
                ++ (if verbose config
                    then [EvStdout (go "Waiting " ++ itoa (delay config)
                                       ++ go " seconds..." ++ [nl])]
                    else [])
                ++ [EvSleep d] |})
        /\ (delay config <= 9223372036 -> d = delay config * 1000000000)
        /\ (9223372036 < delay config -> d < delay config * 1000000000)).
Proof.
  split.
  - intros H. unfold delayStep.
    replace (0 <? delay config) with false by decide_Z. reflexivity.
  - intros H. exists (wrap64 (delay config * Second)).
    split; [|split].
    + rewrite delayStep_eq. unfold delay_events.
      replace (0 <? delay config) with true by decide_Z. reflexivity.
    + intros Hle. unfold wrap64, Second.
      rewrite Z.mod_small; lia.
    + intros Hgt. unfold wrap64, Second.
      pose proof (Z.mod_pos_bound (delay config * 1000000000 + 2 ^ 63)
                    (2 ^ 64) ltac:(lia)). lia.
Qed.

Lemma delayStep_duration_witness :
  delayStep default_config (init fs_empty) = (Done tt, init fs_empty)
  /\ exists d,
      delayStep delayed_config (init fs_empty) =
        (Done tt,
         {| fs := fs_empty;
            trace := [] ++ [EvStdout (go "Waiting 2 seconds..." ++ [nl])]
                        ++ [EvSleep d] |})
      /\ d = 2 * 1000000000.
Proof.
  split.
  - exact (proj1 (delayStep_duration default_config (init fs_empty))
                 ltac:(discriminate)).
  - destruct (proj2 (delayStep_duration delayed_config (init fs_empty))
                    eq_refl) as (d & Hd & Hle & _).
    exists d. split; [exact Hd|]. apply Hle. discriminate.
Defined.

(** ** The quiet flag *)

Lemma gostring_eqb_neq (a b : gostring) : a <> b -> gostring_eqb a b = false.
Proof.
  intros H. destruct (gostring_eqb a b) eqn:E; [|reflexivity].
  apply gostring_eqb_eq in E. contradiction.
Qed.

(** What [-q] does to the echo, by the value it is given.  [Set] always
    turns the quiet switch on and touches nothing that the transform chain
    reads.  Without a value (the text true, or an empty one) and with the
    count 0 the echo is suppressed, and [String] shows the flag as true.
    With a positive count the echo is that of the first lines of the text.
    With a negative count the echo is the whole text, as if the flag were
    absent.  When the value is not a number, [Set] returns the scanning
    error, having turned the switch on and left the count as it was. *)
Theorem quietFlag_Set_then_echo
        (Sscanf_d : gostring -> Z + error) (config : Config)
        (value output : gostring) (st : State) :
  let r := quietFlag_Set Sscanf_d config value in
  let config' := fst r in
  quiet config' = true
  /\ (forall captured, transform config' captured = transform config captured)
  /\ (value = [] \/ value = go "true" ->
      snd r = None /\ quietFlag_String config' = go "true"
      /\ echoStep config' output st = (Done tt, st))
  /\ (value <> [] -> value <> go "true" ->
      (forall n, Sscanf_d value = inl n ->
         snd r = None /\ quietLines config' = n
         /\ (n = 0 -> quietFlag_String config' = go "true"
                      /\ echoStep config' output st = (Done tt, st))
         /\ (n <> 0 -> quietFlag_String config' = itoa n)
         /\ (0 < n -> echoStep config' output st
                      = echoStep (set_quiet config false 0)
                                 (limitLines output n) st)
         /\ (n < 0 -> echoStep config' output st
                      = echoStep (set_quiet config false 0) output st))
      /\ (forall e, Sscanf_d value = inr e ->
            snd r = Some e /\ quietLines config' = quietLines config)).
Proof.
  intros r config'. subst r config'. unfold quietFlag_Set.
  split; [|split; [|split]].
  - destruct (gostring_eqb value [] || gostring_eqb value (go "true"));
      [reflexivity|]. destruct (Sscanf_d value); reflexivity.
  - intros captured.
    destruct (gostring_eqb value [] || gostring_eqb value (go "true"));
      [reflexivity|]. destruct (Sscanf_d value); reflexivity.
  - intros Hv.
    assert (E : gostring_eqb value [] || gostring_eqb value (go "true") = true).
    { destruct Hv as [-> | ->]; reflexivity. }
    rewrite E. repeat split.
  - intros H1 H2.
    rewrite (gostring_eqb_neq _ _ H1), (gostring_eqb_neq _ _ H2).
    cbn [orb]. split.
    + intros n ->. cbn [fst snd]. split; [reflexivity|]. split; [reflexivity|].
      unfold quietFlag_String, echoStep, printed.
      cbn [set_quiet quiet quietLines andb].
      split; [|split; [|split]].
      * intros ->. split; reflexivity.
      * intros Hn. now replace (n =? 0) with false by decide_Z.
      * intros Hn. replace (n =? 0) with false by decide_Z.
        replace (0 <? n) with true by decide_Z. reflexivity.
      * intros Hn. replace (n =? 0) with false by decide_Z.
        replace (0 <? n) with false by decide_Z. reflexivity.
    + intros e ->. split; reflexivity.
Qed.

Lemma quietFlag_Set_then_echo_witness :
  echoStep (fst (quietFlag_Set (fun _ => inl (-3)) default_config (go "-3")))
           (go "hello") (init fs_empty)
  = echoStep (set_quiet default_config false 0) (go "hello") (init fs_empty)
  /\ echoStep (fst (quietFlag_Set (fun _ => inl 0) default_config (go "true")))
              (go "hello") (init fs_empty)
     = (Done tt, init fs_empty).
Proof.
  split.
  - destruct (quietFlag_Set_then_echo (fun _ => inl (-3)) default_config
                (go "-3") (go "hello") (init fs_empty))
      as (_ & _ & _ & H).
    destruct (H ltac:(discriminate) ltac:(discriminate)) as [Hn _].
    destruct (Hn (-3) eq_refl) as (_ & _ & _ & _ & _ & Hneg).
    exact (Hneg eq_refl).
  - destruct (quietFlag_Set_then_echo (fun _ => inl 0) default_config
                (go "true") (go "hello") (init fs_empty))
      as (_ & _ & H & _).
    destruct (H (or_intror eq_refl)) as (_ & _ & He). exact He.
Defined.

(** ** Trim: ASCII text *)

Lemma trimSpaceStop_ascii (u : gostring) :
  isASCII u = true ->
  forall stop, (stop <= length u)%nat ->
    trimSpaceStop u stop = rev (dropWhile asciiSpace (rev (firstn stop u))).
Proof.
  intros Ha. induction stop as [|k IH]; intros Hk.
  - reflexivity.
  - cbn [trimSpaceStop]. unfold at_. rewrite Nat2Z.id.
    assert (Hc : bval (nth k u x00) < 0x80).
    { unfold isASCII in Ha. rewrite forallb_forall in Ha.
      apply Z.ltb_lt. apply Ha. apply nth_In. lia. }
    replace (RuneSelf <=? bval (nth k u x00)) with false
      by (unfold RuneSelf; decide_Z).
    rewrite (firstn_S_nth k u x00) by lia.
    rewrite rev_app_distr. cbn [rev app dropWhile].
    destruct (asciiSpace (nth k u x00)).
    + apply IH. lia.
    + rewrite slice_from_start, Nat2Z.id.
      rewrite (firstn_S_nth k u x00) by lia.
      cbn [rev]. now rewrite rev_involutive.
Qed.

Lemma TrimSpace_ascii_text (s : gostring) :
  isASCII s = true -> TrimSpace s = dropEnds asciiSpace s.
Proof.
  unfold dropEnds. induction s as [|c t IH]; intros Ha; [reflexivity|].
  pose proof Ha as Ha'. unfold isASCII in Ha'. cbn [forallb] in Ha'.
  apply andb_prop in Ha' as [Hc Ht]. apply Z.ltb_lt in Hc.
  cbn [TrimSpace dropWhile].
  replace (RuneSelf <=? bval c) with false by (unfold RuneSelf; decide_Z).
  destruct (asciiSpace c); [exact (IH Ht)|].
  rewrite (trimSpaceStop_ascii (c :: t) Ha (length (c :: t)) (Nat.le_refl _)).
  now rewrite firstn_all.
Qed.

Lemma dropWhile_suffix {A} (p : A -> bool) (l : list A) :
  exists a, l = a ++ dropWhile p l /\ forallb p a = true.
Proof.
  induction l as [|x t (a & E & Ha)]; [now exists []|].
  cbn [dropWhile]. destruct (p x) eqn:Ex.
  - exists (x :: a). cbn [app forallb]. rewrite Ex, Ha. now rewrite <- E.
  - now exists [].
Qed.

Lemma dropWhile_head {A} (p : A -> bool) (l : list A) :
  match dropWhile p l with [] => True | x :: _ => p x = false end.
Proof.
  induction l as [|x t IH]; [exact I|].
  cbn [dropWhile]. destruct (p x) eqn:Ex; [exact IH|exact Ex].
Qed.

(** On a text of ASCII bytes, [TrimSpace] removes exactly the longest run
    of tab, newline, vertical tab, form feed, carriage return and space at
    each end: the text is some such bytes, the result, and some such bytes
    again, and the result neither begins nor ends with one of them. *)
Theorem TrimSpace_on_ascii (s : gostring) :
  isASCII s = true ->
  TrimSpace s = dropEnds asciiSpace s
  /\ exists a b,
      s = a ++ TrimSpace s ++ b
      /\ forallb asciiSpace a = true /\ forallb asciiSpace b = true
      /\ match TrimSpace s with
         | [] => True
         | c :: _ => asciiSpace c = false
         end
      /\ match rev (TrimSpace s) with
         | [] => True
         | c :: _ => asciiSpace c = false
         end.
Proof.
  intros Ha. rewrite (TrimSpace_ascii_text s Ha). split; [reflexivity|].
  unfold dropEnds.
  destruct (dropWhile_suffix asciiSpace s) as (a & Ea & Hfa).
  set (m := dropWhile asciiSpace s) in *.
  destruct (dropWhile_suffix asciiSpace (rev m)) as (b' & Eb & Hfb).
  set (r := dropWhile asciiSpace (rev m)) in *.
  exists a, (rev b'). split; [|split; [exact Hfa|split; [|split]]].
  - rewrite Ea at 1. f_equal. rewrite <- rev_app_distr, <- Eb.
    now rewrite rev_involutive.
  - rewrite forallb_forall in *. intros x Hx. apply Hfb.
    now apply in_rev in Hx.
  - (* the first byte of the result is a byte of [m], and its first one
       unless the whole of [m] is dropped *)
    pose proof (dropWhile_head asciiSpace s) as Hm. fold m in Hm.
    assert (Em : m = rev r ++ rev b').
    { rewrite <- rev_app_distr, <- Eb. now rewrite rev_involutive. }
    destruct (rev r) as [|c q] eqn:Er; [exact I|].
    rewrite Em in Hm. exact Hm.
  - rewrite rev_involutive. apply (dropWhile_head asciiSpace (rev m)).
Qed.

Lemma TrimSpace_on_ascii_witness :
  TrimSpace (go "  hello world " ++ [nl]) = go "hello world".
Proof.
  rewrite (proj1 (TrimSpace_on_ascii (go "  hello world " ++ [nl]) eq_refl)).
  reflexivity.
Defined.

(** ** The header of the Record *)

(** The header names the command by its arguments joined with single
    spaces, with no quoting: a run whose argument holds a space and the run
    with that argument given as two have the same Record for the same text,
    so the file does not tell them apart. *)
Theorem record_of_does_not_quote
        (w : World) (a b : gostring) (rest : list gostring)
        (output : gostring) :
  record_of w (a :: b :: rest) output
  = record_of w ((a ++ go " " ++ b) :: rest) output
  /\ exists tail,
      record_of w (a :: b :: rest) output
      = go "[" ++ now w ++ go " " ++ [dquote] ++ a ++ go " " ++ b ++ tail.
Proof.
  assert (E : Join (a :: b :: rest) (go " ")
              = Join ((a ++ go " " ++ b) :: rest) (go " ")).
  { destruct rest as [|c rest]; [reflexivity|].
    rewrite (Join_cons a (b :: c :: rest)) by discriminate.
    rewrite (Join_cons b (c :: rest)) by discriminate.
    rewrite (Join_cons (a ++ go " " ++ b) (c :: rest)) by discriminate.
    now rewrite <- !app_assoc. }
  unfold record_of. cbv zeta. rewrite E. split; [reflexivity|].
  unfold header_of. destruct rest as [|c rest].
  - eexists. cbn [Join]. rewrite <- !app_assoc. reflexivity.
  - eexists. rewrite (Join_cons (a ++ go " " ++ b) (c :: rest)) by discriminate.
    rewrite <- !app_assoc. reflexivity.
Qed.
